(** * bping: a concurrent ping sweep over a CIDR block

    A shallow embedding of [bping.py]: the probe [ping], the GUI sweep
    [ScanThread.run] with its cancellation flag, the batch sweep
    [scan_network], the command-line branch of [main] from the parsed
    arguments on, and the handlers of [IPScannerGUI] on the attributes and
    the widget states they read or write, together with the part of Python's
    [ipaddress] module the sweeps call ([ip_network], [num_addresses],
    [hosts], [str] of an address).

    What the program leaves to its environment is an explicit parameter of
    the model: the outcome of every [subprocess.run] call, the order in which
    the pool's futures complete, the moments at which the GUI thread calls
    [stop], the readings of [time.time], whether a file can be opened, and
    what the user does to the window.

    Scope of the [ipaddress] model: the IPv4 family with a text argument, in
    the forms [a.b.c.d], [a.b.c.d/prefixlen], [a.b.c.d/netmask] and
    [a.b.c.d/hostmask], as CPython 3.9.5 and later read them (no leading
    zeros in an octet; [hosts()] of a /31 and of a /32 are not empty).  The
    IPv6 family is outside the model: what is stated of a text that is no
    IPv4 network is stated of texts the IPv6 constructor refuses at its
    first check.  Texts are sequences of characters below U+0100.

    Not modelled: the layout and the styling of the widgets ([init_ui]), the
    argument parsing of [main], its GUI branch and its [KeyboardInterrupt]
    handler, and the text of printed messages. *)

From Stdlib Require Import ZArith String Ascii List Lia Bool PrimFloat DecimalString.
From Stdlib Require Uint63 FloatOps SpecFloat.
From stdpp Require Import base option list sorting gmap strings.

Open Scope Z_scope.

(** ** Exceptions and fallible results *)

(** The exceptions that reach the code of [bping.py], all of them subclasses
    of [Exception].  [AddressValueError] and [NetmaskValueError] are
    subclasses of [ValueError] in [ipaddress]; [OSError] stands for whatever
    else [subprocess.run] raises (command not found, permission denied, ...).
    The messages are not modelled. *)
Inductive exn : Type :=
  | AddressValueError
  | NetmaskValueError
  | ValueError
  | KeyError
  | IndexError
  | TimeoutExpired
  | OSError.

Inductive result (A : Type) : Type :=
  | Return (a : A)
  | Raise (e : exn).
Arguments Return {A} a.
Arguments Raise {A} e.

(** Sequencing of fallible steps, with stdpp's [x ← r; k] notation. *)
#[global] Instance result_bind : MBind result := fun A B k r =>
  match r with
  | Return a => k a
  | Raise e => Raise e
  end.
#[global] Instance result_ret : MRet result := fun A a => Return a.

(** ** Python text primitives *)

Module pystr.

(** [s.split(sep)] for a one-character separator: never empty. *)
Fixpoint split (sep : ascii) (s : string) : list string :=
  match s with
  | EmptyString => [EmptyString]
  | String c rest =>
      if Ascii.eqb c sep then EmptyString :: split sep rest
      else match split sep rest with
           | [] => [String c EmptyString]
           | p :: ps => String c p :: ps
           end
  end.

(** [sep.join(parts)]. *)
Fixpoint join (sep : string) (parts : list string) : string :=
  match parts with
  | [] => EmptyString
  | [p] => p
  | p :: ps => p +:+ sep +:+ join sep ps
  end.

Definition is_digit (c : ascii) : bool :=
  (Ascii.leb "0" c && Ascii.leb c "9")%bool.

Fixpoint all_digits (s : string) : bool :=
  match s with
  | EmptyString => true
  | String c rest => is_digit c && all_digits rest
  end.

(** [s.isascii() and s.isdigit()]: at least one character, all in 0-9. *)
Definition isdigit (s : string) : bool :=
  match s with
  | EmptyString => false
  | _ => all_digits s
  end.

Definition digit_val (c : ascii) : Z := Z.of_nat (nat_of_ascii c) - 48.

Fixpoint int_acc (acc : Z) (s : string) : Z :=
  match s with
  | EmptyString => acc
  | String c rest => int_acc (10 * acc + digit_val c) rest
  end.

(** [int(s, 10)] on a text of digits. *)
Definition int (s : string) : Z := int_acc 0 s.

(** [str(n)] for a non-negative integer. *)
Definition of_int (n : Z) : string := NilZero.string_of_int (Z.to_int n).

(** ['c' in s]. *)
Fixpoint contains (c : ascii) (s : string) : bool :=
  match s with
  | EmptyString => false
  | String d rest => Ascii.eqb d c || contains c rest
  end.

(** [s.rsplit(sep, 1)]: [s] cut at its last [sep], if it has one. *)
Definition rsplit1 (sep : ascii) (s : string) : list string :=
  match reverse (split sep s) with
  | last :: ((_ :: _) as init) =>
      [join (String sep EmptyString) (reverse init); last]
  | _ => [s]
  end.

(** [c.isspace()], for a character below U+0100: the controls 9-13 and
    28-31, the space, U+0085 and U+00A0. *)
Definition isspace (c : ascii) : bool :=
  let n := nat_of_ascii c in
  ((9 <=? n) && (n <=? 13) || (28 <=? n) && (n <=? 32)
   || (n =? 133) || (n =? 160))%nat.

(** [s.lstrip()]. *)
Fixpoint lstrip (s : string) : string :=
  match s with
  | EmptyString => EmptyString
  | String c rest => if isspace c then lstrip rest else s
  end.

(** [s.strip()], for a text of characters below U+0100. *)
Definition strip (s : string) : string :=
  String.rev (lstrip (String.rev (lstrip s))).

End pystr.

(** ** Python floats *)

Module pyfloat.

(** [float(n)], exact for an [n] of at most 53 bits. *)
Definition of_int (n : Z) : float :=
  if n <? 0 then PrimFloat.opp (PrimFloat.of_uint63 (Uint63.of_Z (- n)))
  else PrimFloat.of_uint63 (Uint63.of_Z n).

(** [a / b] on two ints of at most 53 bits: the quotient of the two floats;
    [None] stands for the [ZeroDivisionError]. *)
Definition true_divide (a b : Z) : option float :=
  if b =? 0 then None else Some (PrimFloat.div (of_int a) (of_int b)).

(** [int(x)]: [x] cut towards zero; [None] stands for the [OverflowError]
    of an infinity and the [ValueError] of a NaN. *)
Definition to_int (x : float) : option Z :=
  match FloatOps.Prim2SF x with
  | SpecFloat.S754_zero _ => Some 0
  | SpecFloat.S754_finite s m e =>
      let v := if 0 <=? e then Z.pos m * 2 ^ e else Z.pos m / 2 ^ (- e) in
      Some (if s then - v else v)
  | _ => None
  end.

End pyfloat.

(** ** The [ipaddress] module, IPv4 family *)

Module ipaddress.

Definition ALL_ONES : Z := 2 ^ 32 - 1.
Definition max_prefixlen : Z := 32.

(** [IPv4Address._parse_octet]. *)
Definition parse_octet (octet_str : string) : result Z :=
  if String.eqb octet_str "" then Raise ValueError
  else if negb (pystr.isdigit octet_str) then Raise ValueError
  else if (3 <? String.length octet_str)%nat then Raise ValueError
  else if (negb (String.eqb octet_str "0")
           && match octet_str with
              | String c _ => Ascii.eqb c "0"
              | EmptyString => false
              end)%bool
  then Raise ValueError
  else
    let octet_int := pystr.int octet_str in
    if 255 <? octet_int then Raise ValueError else Return octet_int.

Fixpoint parse_octets (octets : list string) : result (list Z) :=
  match octets with
  | [] => Return []
  | o :: os =>
      b ← parse_octet o; bs ← parse_octets os; Return (b :: bs)
  end.

(** [int.from_bytes(bs, 'big')]. *)
Definition from_bytes (bs : list Z) : Z :=
  fold_left (fun acc b => Z.lor (Z.shiftl acc 8) b) bs 0.

(** [IPv4Address._ip_int_from_string]. *)
Definition ip_int_from_string (ip_str : string) : result Z :=
  if String.eqb ip_str "" then Raise AddressValueError
  else
    let octets := pystr.split "." ip_str in
    if negb (length octets =? 4)%nat then Raise AddressValueError
    else match parse_octets octets with
         | Return bs => Return (from_bytes bs)
         | Raise _ => Raise AddressValueError
         end.

(** [IPv4Address(addr_str)] on a text; the value is the address integer. *)
Definition IPv4Address (addr_str : string) : result Z :=
  if pystr.contains "/" addr_str then Raise AddressValueError
  else ip_int_from_string addr_str.

(** [ip_int.to_bytes(4, 'big')]. *)
Definition to_bytes (ip_int : Z) : list Z :=
  [ Z.land (Z.shiftr ip_int 24) 255;
    Z.land (Z.shiftr ip_int 16) 255;
    Z.land (Z.shiftr ip_int 8) 255;
    Z.land ip_int 255 ].

(** [str(IPv4Address(ip_int))]. *)
Definition str (ip_int : Z) : string :=
  pystr.join "." (pystr.of_int <$> to_bytes ip_int).

(** [_ip_int_from_prefix]. *)
Definition ip_int_from_prefix (prefixlen : Z) : Z :=
  Z.lxor ALL_ONES (Z.shiftr ALL_ONES prefixlen).

(** [int.bit_length] on a non-negative integer. *)
Definition bit_length (n : Z) : Z :=
  if n =? 0 then 0 else Z.log2 n + 1.

(** [_count_righthand_zero_bits(number, bits)]. *)
Definition count_righthand_zero_bits (number bits : Z) : Z :=
  if number =? 0 then bits
  else Z.min bits (bit_length (Z.land (Z.lnot number) (number - 1))).

(** [_prefix_from_ip_int]; its [ValueError] is caught by the caller. *)
Definition prefix_from_ip_int (ip_int : Z) : result Z :=
  let trailing_zeroes := count_righthand_zero_bits ip_int max_prefixlen in
  let prefixlen := max_prefixlen - trailing_zeroes in
  let leading_ones := Z.shiftr ip_int trailing_zeroes in
  let all_ones := Z.shiftl 1 prefixlen - 1 in
  if negb (leading_ones =? all_ones) then Raise ValueError
  else Return prefixlen.

(** [_prefix_from_prefix_string]. *)
Definition prefix_from_prefix_string (prefixlen_str : string) : result Z :=
  if negb (pystr.isdigit prefixlen_str) then Raise NetmaskValueError
  else
    let prefixlen := pystr.int prefixlen_str in
    if negb ((0 <=? prefixlen) && (prefixlen <=? max_prefixlen))%bool
    then Raise NetmaskValueError
    else Return prefixlen.

(** [_prefix_from_ip_string]: a dotted netmask, else a dotted hostmask. *)
Definition prefix_from_ip_string (ip_str : string) : result Z :=
  match ip_int_from_string ip_str with
  | Raise _ => Raise NetmaskValueError
  | Return ip_int =>
      match prefix_from_ip_int ip_int with
      | Return p => Return p
      | Raise _ =>
          match prefix_from_ip_int (Z.lxor ip_int ALL_ONES) with
          | Return p => Return p
          | Raise _ => Raise NetmaskValueError
          end
      end
  end.

(** [_make_netmask] on the mask part of the text ([None]: no ['/'], the
    integer [max_prefixlen] is used); returns [(netmask, prefixlen)]. *)
Definition make_netmask (arg : option string) : result (Z * Z) :=
  prefixlen ←
     (match arg with
     | None => Return max_prefixlen
     | Some mask =>
         match prefix_from_prefix_string mask with
         | Return p => Return p
         | Raise _ => prefix_from_ip_string mask
         end
     end);
  Return (ip_int_from_prefix prefixlen, prefixlen).

Record IPv4Network : Type := mkNetwork {
  network_address : Z;
  netmask : Z;
  prefixlen : Z
}.

(** [_split_optional_netmask] followed by [_split_addr_prefix]. *)
Definition split_addr_prefix (address : string)
  : result (string * option string) :=
  let addr := pystr.split "/" address in
  if (2 <? length addr)%nat then Raise AddressValueError
  else match addr with
       | [a] => Return (a, None)
       | a :: m :: _ => Return (a, Some m)
       | [] => Raise AddressValueError
       end.

(** [IPv4Network(address, strict=True)]. *)
Definition new_IPv4Network (address : string) : result IPv4Network :=
  '(addr, mask) ← split_addr_prefix address;
  network_address ← IPv4Address addr;
  '(netmask, prefixlen) ← make_netmask mask;
  let packed := network_address in
  if negb (Z.land packed netmask =? packed) then Raise ValueError
  else Return (mkNetwork network_address netmask prefixlen).

(** [ipaddress.ip_network(address)]: the IPv4 constructor is tried first;
    its [AddressValueError] and [NetmaskValueError] are passed over and
    end in the final [ValueError], any other exception propagates.  Between
    the two the library tries the IPv6 constructor, which the model does not
    have: the [ValueError] of the model is the library's answer on the texts
    that constructor refuses, of which [IPv6Network_refuses] below
    recognises those refused at its first check; on the other texts that
    are no IPv4 network the model gives no account of the library. *)
Definition ip_network (address : string) : result IPv4Network :=
  match new_IPv4Network address with
  | Return n => Return n
  | Raise AddressValueError | Raise NetmaskValueError => Raise ValueError
  | Raise e => Raise e
  end.

(** The first check of [IPv6Network(address)]: what comes before the ['/']
    is read by [IPv6Address], which raises [AddressValueError] on a text of
    fewer than three parts separated by [':'] (the scope id it cuts off
    first can only leave fewer).  [true]: the constructor refuses the text
    there. *)
Definition IPv6Network_refuses (address : string) : bool :=
  match pystr.split "/" address with
  | addr :: _ => (length (pystr.split ":" addr) <? 3)%nat
  | [] => true
  end.

Definition hostmask (n : IPv4Network) : Z := Z.lxor (netmask n) ALL_ONES.

Definition broadcast_address (n : IPv4Network) : Z :=
  Z.lor (network_address n) (hostmask n).

Definition num_addresses (n : IPv4Network) : Z :=
  broadcast_address n - network_address n + 1.

(** [range(a, b)]. *)
Definition range (a b : Z) : list Z :=
  (fun i => a + Z.of_nat i) <$> seq 0 (Z.to_nat (b - a)).

(** [IPv4Network.hosts()], as a list: a /31 yields both of its addresses,
    a /32 its single address, any other prefix leaves out the network and
    the broadcast address. *)
Definition hosts (n : IPv4Network) : list Z :=
  if prefixlen n =? max_prefixlen - 1
  then range (network_address n) (broadcast_address n + 1)
  else if prefixlen n =? max_prefixlen
  then [network_address n]
  else range (network_address n + 1) (broadcast_address n).

End ipaddress.

(** ** The environment and the observable world *)

(** Python values handed to [ping]: the sweeps pass [IPv4Address] objects,
    any other caller may pass a text. *)
Inductive pyobj : Type :=
  | PyStr (s : string)
  | PyIPv4Address (ip_int : Z).

(** [str(o)]. *)
Definition py_str (o : pyobj) : string :=
  match o with
  | PyStr s => s
  | PyIPv4Address a => ipaddress.str a
  end.

(** What the program cannot decide by itself. *)
Record Env : Type := mkEnv {
  (** [subprocess.run(argv, ..., timeout=1)]: the return code of the command,
      or the exception raised. *)
  subprocess_run : list string -> result Z;
  (** the order in which the pool's futures complete, as submission indices *)
  completion_order : list nat;
  (** [stop_calls k]: how many times the GUI thread calls [stop] between the
      previous read of [self.is_running] by [run] and its [k]-th read *)
  stop_calls : nat -> nat;
  (** [time_time k]: the [k]-th reading of [time.time()] *)
  time_time : nat -> float
}.

(** The Qt signals of [ScanThread]. *)
Inductive signal : Type :=
  | update_progress (current total : Z)
  | update_ip_status (ip : string) (is_active : bool)
  | scan_complete (active_ips : list string) (elapsed_time : float).

(** Lines written by [print]; the numbers are kept unformatted. *)
Inductive line : Type :=
  | ping_error (ip : string) (e : exn)
  | scan_error (e : exn)
  | scan_started (total_ips : Z)
  | found_active (ip : string)
  | progress_line (processed_ips total_ips : Z) (elapsed : float)
  | scan_finished (n_active : nat) (elapsed : float).

(** ** The probe *)

(** [ping(ip)]: the printed lines and the value returned (or the exception
    that escapes). *)
Definition ping (env : Env) (ip : pyobj) : list line * result bool :=
  match subprocess_run env ["ping"; "-n"; "1"; "-w"; "500"; py_str ip] with
  | Return returncode => ([], Return (returncode =? 0))
  | Raise TimeoutExpired => ([], Return false)
  | Raise e => ([ping_error (py_str ip) e], Return false)
  end.

(** [ping(ip)] on a standard output that can refuse a line.  [print] raises
    when the output cannot take the text (a [UnicodeEncodeError] under an
    encoding that lacks a character of the message); the [print] of [ping]
    stands in its last handler, outside any [try], so what it raises leaves
    [ping].  [print_error l] is the exception that printing the line [l]
    ends with, if any.  The [ping] above is the probe on an output that
    takes every line. *)
Definition ping_on (print_error : line -> option exn) (env : Env)
    (ip : pyobj) : list line * result bool :=
  match subprocess_run env ["ping"; "-n"; "1"; "-w"; "500"; py_str ip] with
  | Return returncode => ([], Return (returncode =? 0))
  | Raise TimeoutExpired => ([], Return false)
  | Raise e =>
      match print_error (ping_error (py_str ip) e) with
      | None => ([ping_error (py_str ip) e], Return false)
      | Some e' => ([], Raise e')
      end
  end.

(** ** The scan thread *)

Record ScanThread : Type := mkScanThread {
  network : string;
  max_workers : Z;
  is_running : bool
}.

(** [ScanThread.__init__]. *)
Definition ScanThread_init (network : string) (max_workers : Z) : ScanThread :=
  mkScanThread network max_workers true.

(** [ScanThread.stop]. *)
Definition stop (self : ScanThread) : ScanThread :=
  mkScanThread (network self) (max_workers self) false.

(** The state the sweeps act on. *)
Record World : Type := mkWorld {
  thread : ScanThread;        (** the [ScanThread] object, shared with the GUI *)
  flag_reads : nat;           (** reads of [self.is_running] so far *)
  clock_reads : nat;          (** calls of [time.time()] so far *)
  signals : list signal;      (** signals emitted, oldest first *)
  stdout : list line;         (** lines printed by the sweep, oldest first *)
  submitted : list Z          (** the pool: arguments of its
                                  [executor.submit(ping, _)] calls, in order;
                                  future [i] runs [ping] on the [i]-th *)
}.

Definition initial_world (t : ScanThread) : World :=
  mkWorld t 0 0 [] [] [].

(** Statements: a state transformer that returns or raises. *)
Definition M (A : Type) : Type := World -> result A * World.

#[global] Instance M_ret : MRet M := fun A a w => (Return a, w).
#[global] Instance M_bind : MBind M := fun A B k m w =>
  match m w with
  | (Return a, w') => k a w'
  | (Raise e, w') => (Raise e, w')
  end.

Definition lift {A} (r : result A) : M A := fun w => (r, w).

(** [try: body except Exception as e: handler(e)]. *)
Definition try_except {A} (body : M A) (handler : exn -> M A) : M A :=
  fun w =>
    match body w with
    | (Raise e, w') => handler e w'
    | r => r
    end.

Definition emit (s : signal) : M unit := fun w =>
  (Return tt,
   mkWorld (thread w) (flag_reads w) (clock_reads w)
           (signals w ++ [s]) (stdout w) (submitted w)).

(** [print(l)] in the sweeps, on a standard output that takes every
    line. *)
Definition print (l : line) : M unit := fun w =>
  (Return tt,
   mkWorld (thread w) (flag_reads w) (clock_reads w)
           (signals w) (stdout w ++ [l]) (submitted w)).

(** [time.time()]. *)
Definition now (env : Env) : M float := fun w =>
  (Return (time_time env (clock_reads w)),
   mkWorld (thread w) (flag_reads w) (S (clock_reads w))
           (signals w) (stdout w) (submitted w)).

(** A read of [self.is_running]: the [stop] calls the GUI thread made in the
    meantime have taken effect. *)
Definition read_is_running (env : Env) : M bool := fun w =>
  let self := Nat.iter (stop_calls env (flag_reads w)) stop (thread w) in
  (Return (is_running self),
   mkWorld self (S (flag_reads w)) (clock_reads w)
           (signals w) (stdout w) (submitted w)).

Definition get_self : M ScanThread := fun w => (Return (thread w), w).

(** [ThreadPoolExecutor(max_workers=n)]: a new pool, nothing submitted yet. *)
Definition ThreadPoolExecutor (max_workers : Z) : M unit := fun w =>
  if max_workers <=? 0 then (Raise ValueError, w)
  else (Return tt,
        mkWorld (thread w) (flag_reads w) (clock_reads w)
                (signals w) (stdout w) []).

(** A future is identified by its submission index. *)
Abbreviation Future := nat (only parsing).

(** [executor.submit(ping, ip)]; the pool is taken to find a thread for
    it. *)
Definition submit (ip : Z) : M Future := fun w =>
  (Return (length (submitted w)),
   mkWorld (thread w) (flag_reads w) (clock_reads w)
           (signals w) (stdout w) (submitted w ++ [ip])).

(** [future.result()]: what [ping] returned, or raised, on the future's
    argument; what [ping] prints in its worker thread is not recorded in
    [stdout].  [run] and [scan_network] ask only for futures they submitted;
    for any other index the model raises [IndexError]. *)
Definition future_result (env : Env) (future : Future) : M bool := fun w =>
  match submitted w !! future with
  | Some ip => (snd (ping env (PyIPv4Address ip)), w)
  | None => (Raise IndexError, w)
  end.

(** [d[key]] on a dict keyed by futures. *)
Definition getitem (d : gmap Future string) (key : Future) : M string :=
  lift (match d !! key with
        | Some v => Return v
        | None => Raise KeyError
        end).

(** [as_completed(d)]: the keys of [d], each once, in completion order. *)
Definition as_completed (env : Env) (d : gmap Future string) : list Future :=
  completion_order env.

(** [{executor.submit(ping, ip): str(ip) for ip in ips}], added to [d]. *)
Fixpoint submit_all (ips : list Z) (d : gmap Future string)
  : M (gmap Future string) :=
  match ips with
  | [] => mret d
  | ip :: rest =>
      future ← submit ip;
      submit_all rest (<[future := ipaddress.str ip]> d)
  end.

(** The body of [for future in as_completed(future_to_ip)] in
    [ScanThread.run]; returns [(active_ips, processed_ips)]. *)
Fixpoint result_loop (env : Env) (future_to_ip : gmap Future string)
    (total_ips : Z) (futures : list Future)
    (active_ips : list string) (processed_ips : Z)
  : M (list string * Z) :=
  match futures with
  | [] => mret (active_ips, processed_ips)
  | future :: rest =>
      running ← read_is_running env;
      if negb running then mret (active_ips, processed_ips)
      else
        ip ← getitem future_to_ip future;
        is_active ← future_result env future;
        let active_ips :=
          if is_active : bool then active_ips ++ [ip] else active_ips in
        _ ← emit (update_ip_status ip is_active);
        let processed_ips := processed_ips + 1 in
        _ ← emit (update_progress processed_ips total_ips);
        result_loop env future_to_ip total_ips rest active_ips processed_ips
  end.

(** [ScanThread.run]. *)
Definition run (env : Env) : M unit :=
  try_except
    (self ← get_self;
     network ← lift (ipaddress.ip_network (network self));
     let total_ips := ipaddress.num_addresses network in
     start_time ← now env;
     _ ← ThreadPoolExecutor (max_workers self);
     future_to_ip ← submit_all (ipaddress.hosts network) ∅;
     '(active_ips, processed_ips) ←
       result_loop env future_to_ip total_ips
                   (as_completed env future_to_ip) [] 0;
     running ← read_is_running env;
     _ ← (if running : bool
          then emit (update_progress total_ips total_ips)
          else mret tt);
     end_time ← now env;
     emit (scan_complete active_ips (PrimFloat.sub end_time start_time)))
    (fun e => print (scan_error e)).

(** ** The batch sweep *)

(** [lst[i]] on a list. *)
Definition list_getitem {A} (lst : list A) (i : nat) : M A :=
  lift (match lst !! i with
        | Some x => Return x
        | None => Raise IndexError
        end).

(** [for ip in ips: futures.append(executor.submit(ping, ip))]. *)
Fixpoint submit_each (ips : list Z) (futures : list Future) : M (list Future) :=
  match ips with
  | [] => mret futures
  | ip :: rest =>
      future ← submit ip;
      submit_each rest (futures ++ [future])
  end.

(** The body of [for i, future in enumerate(futures)] in [scan_network];
    returns [(active_ips, processed_ips)]. *)
Fixpoint batch_loop (env : Env) (network : ipaddress.IPv4Network)
    (total_ips : Z) (start_time : float) (i : nat) (futures : list Future)
    (active_ips : list string) (processed_ips : Z)
  : M (list string * Z) :=
  match futures with
  | [] => mret (active_ips, processed_ips)
  | future :: rest =>
      ip ← list_getitem (ipaddress.hosts network) i;
      alive ← future_result env future;
      active_ips ←
        (if alive : bool
         then _ ← print (found_active (ipaddress.str ip));
              mret (active_ips ++ [ipaddress.str ip])
         else mret active_ips);
      let processed_ips := processed_ips + 1 in
      _ ← (if ((processed_ips mod 10 =? 0) || (processed_ips =? total_ips))%bool
           then t ← now env;
                print (progress_line processed_ips total_ips
                                     (PrimFloat.sub t start_time))
           else mret tt);
      batch_loop env network total_ips start_time (S i) rest
                 active_ips processed_ips
  end.

(** [scan_network(network, max_workers)]. *)
Definition scan_network (env : Env) (network : string) (max_workers : Z)
  : M (list string) :=
  network ← lift (ipaddress.ip_network network);
  let total_ips := ipaddress.num_addresses network in
  _ ← print (scan_started total_ips);
  start_time ← now env;
  _ ← ThreadPoolExecutor max_workers;
  futures ← submit_each (ipaddress.hosts network) [];
  '(active_ips, processed_ips) ←
    batch_loop env network total_ips start_time 0 futures [] 0;
  t ← now env;
  _ ← print (scan_finished (length active_ips) (PrimFloat.sub t start_time));
  mret active_ips.

(** ** The command line *)

Module argparse.

(** The [args] that [parser.parse_args()] hands to [main]: the positional
    [network], [-w/--workers] (an [int], 50 by default) and [-o/--output]
    ([None] unless given). *)
Record Namespace : Type := mkNamespace {
  network : string;
  workers : Z;
  output : option string
}.

End argparse.

(** What [main] prints itself, after the sweep returned or failed. *)
Inductive main_line : Type :=
  | saved_to (path : string)
  | list_header
  | listed (ip : string)
  | error_line (e : exn).

(** The state [main] acts on: the world of the sweep, the lines [main]
    printed after those of the sweep, and the text of the files written so
    far, as a read in text mode gives it back. *)
Record Process : Type := mkProcess {
  sweep : World;
  console : list main_line;
  files : gmap string string
}.

(** Statements of [main]. *)
Definition P (A : Type) : Type := Process -> result A * Process.

#[global] Instance P_ret : MRet P := fun A a p => (Return a, p).
#[global] Instance P_bind : MBind P := fun A B k m p =>
  match m p with
  | (Return a, p') => k a p'
  | (Raise e, p') => (Raise e, p')
  end.

(** A statement of the sweeps, run on the world of the process. *)
Definition in_sweep {A} (m : M A) : P A := fun p =>
  let '(r, w) := m (sweep p) in
  (r, mkProcess w (console p) (files p)).

(** [print(l)] in [main], on a standard output that takes every line. *)
Definition print_main (l : main_line) : P unit := fun p =>
  (Return tt, mkProcess (sweep p) (console p ++ [l]) (files p)).

(** [isinstance(e, ValueError)]. *)
Definition is_ValueError (e : exn) : bool :=
  match e with
  | AddressValueError | NetmaskValueError | ValueError => true
  | _ => false
  end.

(** [try: body except ValueError as e: handler(e)]. *)
Definition try_except_ValueError {A} (body : P A) (handler : exn -> P A)
  : P A :=
  fun p =>
    match body p with
    | (Raise e, p') => if is_ValueError e then handler e p' else (Raise e, p')
    | r => r
    end.

(** The line feed. *)
Definition LF : ascii := "010"%char.

(** [open(path, "w")]: [open_error path] is the exception the system answers
    with, if any; an opened file is created or emptied. *)
Definition open_w (open_error : string -> option exn) (path : string)
  : P unit :=
  fun p =>
    match open_error path with
    | Some e => (Raise e, p)
    | None =>
        (Return tt,
         mkProcess (sweep p) (console p) (<[path := EmptyString]> (files p)))
    end.

(** [f.write(text)] on the file opened at [path]; the text is taken to
    reach the file. *)
Definition write (path text : string) : P unit := fun p =>
  (Return tt,
   mkProcess (sweep p) (console p)
             (<[path := default EmptyString (files p !! path) +:+ text]>
                (files p))).

(** [for ip in active_ips: f.write(f"{ip}\n")]. *)
Fixpoint write_each (path : string) (active_ips : list string) : P unit :=
  match active_ips with
  | [] => mret tt
  | ip :: rest =>
      _ ← write path (ip +:+ String LF EmptyString);
      write_each path rest
  end.

(** [for ip in active_ips: print(ip)]. *)
Fixpoint print_each (active_ips : list string) : P unit :=
  match active_ips with
  | [] => mret tt
  | ip :: rest =>
      _ ← print_main (listed ip);
      print_each rest
  end.

(** The truth value of [args.output]: [None] and the empty text are false. *)
Definition truthy (output : option string) : option string :=
  match output with
  | Some EmptyString => None
  | o => o
  end.

(** [main], command-line branch, from the parsed [args] on.  The
    [KeyboardInterrupt] handler is outside the model. *)
Definition main (env : Env) (open_error : string -> option exn)
    (args : argparse.Namespace) : P unit :=
  try_except_ValueError
    (active_ips ← in_sweep (scan_network env (argparse.network args)
                                         (argparse.workers args));
     _ ← match truthy (argparse.output args) with
         | Some path =>
             _ ← open_w open_error path;
             _ ← write_each path active_ips;
             print_main (saved_to path)
         | None => mret tt
         end;
     _ ← print_main list_header;
     print_each active_ips)
    (fun e => print_main (error_line e)).

(** ** The window *)

Definition default_scan_ip : string := "192.168.1.0/24".

Module IPScannerGUI.

(** The backgrounds of a cell: grey for unscanned, the red gradient for a
    live address, the green gradient for an idle one. *)
Inductive colour : Type := grey | red | green.

(** An item of the table: its tool tip, its background and its
    [Qt.UserRole] data. *)
Record QTableWidgetItem : Type := mkItem {
  toolTip : string;
  background : colour;
  data : option string
}.

(** The texts of the status label; the numbers are kept unformatted. *)
Inductive status : Type :=
  | ready
  | scanning (network : string)
  | stopping
  | progress_text (current total progress : Z)
  | complete_text (current total : Z)
  | finished_text (n_active : nat) (elapsed_time : float).

(** The error boxes: of [create_ip_grid] and of [start_scan]. *)
Inductive dialog : Type :=
  | grid_error (e : exn)
  | network_error (e : exn).

(** The attributes and the widgets of the window that the handlers read or
    write. *)
Record window : Type := mkWindow {
  (** the thread of the last sweep started, if any *)
  scan_thread : option ScanThread;
  (** from the text of an address to its (row, column) *)
  ip_cells : gmap string (nat * nat);
  active_ips : list string;
  (** the text of the line edit *)
  network_input : string;
  (** the value of the spin box, which keeps it within 1..200 *)
  workers_input : Z;
  (** [isEnabled()] of the two buttons *)
  scan_button : bool;
  stop_button : bool;
  (** [value()] of the progress bar, whose range is 0..100 *)
  progress_bar : Z;
  status_label : status;
  (** the items set in the 16 x 16 table, by (row, column) *)
  ip_table : gmap (nat * nat) QTableWidgetItem;
  (** the [QMessageBox.critical] boxes shown, oldest first *)
  dialogs : list dialog
}.

Definition set_scan_thread (v : option ScanThread) (self : window) : window :=
  mkWindow v (ip_cells self) (active_ips self) (network_input self)
          (workers_input self) (scan_button self) (stop_button self)
          (progress_bar self) (status_label self) (ip_table self)
          (dialogs self).

Definition set_ip_cells (v : gmap string (nat * nat)) (self : window) : window :=
  mkWindow (scan_thread self) v (active_ips self) (network_input self)
          (workers_input self) (scan_button self) (stop_button self)
          (progress_bar self) (status_label self) (ip_table self)
          (dialogs self).

Definition set_active_ips (v : list string) (self : window) : window :=
  mkWindow (scan_thread self) (ip_cells self) v (network_input self)
          (workers_input self) (scan_button self) (stop_button self)
          (progress_bar self) (status_label self) (ip_table self)
          (dialogs self).

Definition set_network_input (v : string) (self : window) : window :=
  mkWindow (scan_thread self) (ip_cells self) (active_ips self) v
          (workers_input self) (scan_button self) (stop_button self)
          (progress_bar self) (status_label self) (ip_table self)
          (dialogs self).

Definition set_workers_input (v : Z) (self : window) : window :=
  mkWindow (scan_thread self) (ip_cells self) (active_ips self)
          (network_input self) v (scan_button self) (stop_button self)
          (progress_bar self) (status_label self) (ip_table self)
          (dialogs self).

Definition set_scan_button (v : bool) (self : window) : window :=
  mkWindow (scan_thread self) (ip_cells self) (active_ips self)
          (network_input self) (workers_input self) v (stop_button self)
          (progress_bar self) (status_label self) (ip_table self)
          (dialogs self).

Definition set_stop_button (v : bool) (self : window) : window :=
  mkWindow (scan_thread self) (ip_cells self) (active_ips self)
          (network_input self) (workers_input self) (scan_button self) v
          (progress_bar self) (status_label self) (ip_table self)
          (dialogs self).

Definition set_progress_bar (v : Z) (self : window) : window :=
  mkWindow (scan_thread self) (ip_cells self) (active_ips self)
          (network_input self) (workers_input self) (scan_button self)
          (stop_button self) v (status_label self) (ip_table self)
          (dialogs self).

Definition set_status_label (v : status) (self : window) : window :=
  mkWindow (scan_thread self) (ip_cells self) (active_ips self)
          (network_input self) (workers_input self) (scan_button self)
          (stop_button self) (progress_bar self) v (ip_table self)
          (dialogs self).

Definition set_ip_table (v : gmap (nat * nat) QTableWidgetItem) (self : window) : window :=
  mkWindow (scan_thread self) (ip_cells self) (active_ips self)
          (network_input self) (workers_input self) (scan_button self)
          (stop_button self) (progress_bar self) (status_label self) v
          (dialogs self).

Definition set_dialogs (v : list dialog) (self : window) : window :=
  mkWindow (scan_thread self) (ip_cells self) (active_ips self)
          (network_input self) (workers_input self) (scan_button self)
          (stop_button self) (progress_bar self) (status_label self)
          (ip_table self) v.

(** [IPScannerGUI()]: [__init__] and the widgets as [init_ui] leaves them. *)
Definition init : window :=
  mkWindow None ∅ [] default_scan_ip 50 true false (-1) ready ∅ [].

(** [QProgressBar.setValue(value)]: an [int] that does not fit a C [int]
    raises [OverflowError], for which [None] stands; a value outside the
    range of the bar is ignored. *)
Definition setValue (value : Z) (self : window) : option window :=
  if negb ((-2147483648 <=? value) && (value <=? 2147483647))%bool then None
  else if ((0 <=? value) && (value <=? 100))%bool
  then Some (set_progress_bar value self)
  else Some self.

(** The body of the two loops of [create_ip_grid]. *)
Definition grid_cell (base_ip : string) (row col : nat) (self : window)
  : window :=
  let ip_last_octet := Z.of_nat (row * 16 + col) in
  let ip_str := base_ip +:+ pystr.of_int ip_last_octet in
  let item := mkItem ip_str grey None in
  let self := set_ip_table (<[(row, col) := item]> (ip_table self)) self in
  set_ip_cells (<[ip_str := (row, col)]> (ip_cells self)) self.

(** [create_ip_grid]. *)
Definition create_ip_grid (network : string) (self : window) : window :=
  match
    network ← ipaddress.ip_network network;
    part ← match pystr.rsplit1 "."
                   (ipaddress.str (ipaddress.network_address network)) with
           | part :: _ => Return part
           | [] => Raise IndexError
           end;
    let base_ip := part +:+ "." in
    let self := set_ip_cells ∅ self in
    Return (foldl (fun self row =>
                     foldl (fun self col => grid_cell base_ip row col self)
                           self (seq 0 16))
                  self (seq 0 16))
  with
  | Return self => self
  | Raise e => set_dialogs (dialogs self ++ [grid_error e]) self
  end.

(** [start_scan]; [None] stands for an exception that leaves the handler.
    The thread object it creates is started by the caller of the model. *)
Definition start_scan (self : window) : option window :=
  let network := pystr.strip (network_input self) in
  let workers := workers_input self in
  match ipaddress.ip_network network with
  | Raise e =>
      if is_ValueError e
      then Some (set_dialogs (dialogs self ++ [network_error e]) self)
      else None
  | Return _ =>
      let self := create_ip_grid network self in
      let self := set_scan_button false self in
      let self := set_stop_button true self in
      self ← setValue 0 self;
      let self := set_status_label (scanning network) self in
      Some (set_scan_thread (Some (ScanThread_init network workers)) self)
  end.

(** [stop_scan]; [isRunning] is what [QThread.isRunning()] answers. *)
Definition stop_scan (isRunning : bool) (self : window) : window :=
  match scan_thread self with
  | Some thread =>
      if isRunning
      then let self := set_scan_thread (Some (stop thread)) self in
           let self := set_status_label stopping self in
           set_stop_button false self
      else self
  | None => self
  end.

(** [int((current / total) * 100)]. *)
Definition percent (current total : Z) : option Z :=
  quotient ← pyfloat.true_divide current total;
  pyfloat.to_int (PrimFloat.mul quotient (pyfloat.of_int 100)).

(** [update_progress]; [None] stands for an exception that leaves the
    handler. *)
Definition update_progress (current total : Z) (self : window)
  : option window :=
  progress ← percent current total;
  self ← setValue progress self;
  Some (if progress =? 100
        then set_status_label (complete_text current total) self
        else set_status_label (progress_text current total progress) self).

(** [update_ip_status]; [None] stands for the [AttributeError] of a cell
    without item. *)
Definition update_ip_status (ip : string) (is_active : bool) (self : window)
  : option window :=
  match ip_cells self !! ip with
  | Some (row, col) =>
      item ← ip_table self !! (row, col);
      if is_active
      then let item := mkItem (toolTip item) red (Some "active") in
           let self :=
             set_ip_table (<[(row, col) := item]> (ip_table self)) self in
           Some (set_active_ips (active_ips self ++ [ip]) self)
      else let item := mkItem (toolTip item) green (Some "inactive") in
           Some (set_ip_table (<[(row, col) := item]> (ip_table self)) self)
  | None => Some self
  end.

(** [scan_complete]; [None] stands for an exception that leaves the
    handler. *)
Definition scan_complete (active_ips : list string) (elapsed_time : float)
    (self : window) : option window :=
  let self := set_active_ips active_ips self in
  let self := set_scan_button true self in
  let self := set_stop_button false self in
  self ← setValue 100 self;
  Some (set_status_label (finished_text (length active_ips) elapsed_time)
                         self).

End IPScannerGUI.

(** The slots the signals of the thread are connected to by [start_scan];
    [None] stands for an exception that leaves the slot. *)
Definition deliver (s : signal) (self : IPScannerGUI.window)
  : option IPScannerGUI.window :=
  match s with
  | update_progress current total =>
      IPScannerGUI.update_progress current total self
  | update_ip_status ip is_active =>
      IPScannerGUI.update_ip_status ip is_active self
  | scan_complete active_ips elapsed_time =>
      IPScannerGUI.scan_complete active_ips elapsed_time self
  end.

(** The window after the signals [sigs], delivered in the order of their
    emission. *)
Fixpoint deliver_all (sigs : list signal) (self : IPScannerGUI.window)
  : option IPScannerGUI.window :=
  match sigs with
  | [] => Some self
  | s :: rest => self ← deliver s self; deliver_all rest self
  end.

(** * Vocabulary of the properties

    Functions and predicates in which the properties of the model are
    stated, and the concrete environments they are tried on. *)

(** ** Addresses and networks *)

(** The values of an octet. *)
Definition octet_values : list Z := Z.of_nat <$> seq 0 256.

(** The text of the octet [b] reads back as [b] and has no dot and no
    slash. *)
Definition octet_ok (b : Z) : bool :=
  match ipaddress.parse_octet (pystr.of_int b) with
  | Return v => v =? b
  | Raise _ => false
  end
  && negb (pystr.contains "." (pystr.of_int b))
  && negb (pystr.contains "/" (pystr.of_int b)).

(** A network as [IPv4Network(_, strict=True)] builds it: a prefix length
    within 0..32, its netmask, and a 32-bit address without host bits. *)
Definition well_formed (n : ipaddress.IPv4Network) : Prop :=
  0 <= ipaddress.prefixlen n <= 32
  /\ ipaddress.netmask n = ipaddress.ip_int_from_prefix (ipaddress.prefixlen n)
  /\ 0 <= ipaddress.network_address n < 2 ^ 32
  /\ Z.land (ipaddress.network_address n) (ipaddress.netmask n)
     = ipaddress.network_address n.

(** ** Results and signals of a sweep *)

(** What the probe reports for an address: [true] exactly when the command
    ran and returned 0. *)
Definition alive (env : Env) (ip : Z) : bool :=
  match subprocess_run env
          ["ping"; "-n"; "1"; "-w"; "500"; ipaddress.str ip] with
  | Return returncode => returncode =? 0
  | Raise _ => false
  end.

(** The dictionary built by the comprehension of [run] when the pool already
    holds [k] futures. *)
Fixpoint submit_dict (k : nat) (ips : list Z) (d : gmap Future string)
  : gmap Future string :=
  match ips with
  | [] => d
  | ip :: rest => submit_dict (S k) rest (<[k := ipaddress.str ip]> d)
  end.

(** The futures whose results the loop takes, with the thread object and the
    number of flag reads it leaves behind: the loop stops at the first read of
    [is_running] that finds it cleared. *)
Fixpoint taken (env : Env) (t : ScanThread) (r : nat) (futures : list Future)
  : list Future * (ScanThread * nat) :=
  match futures with
  | [] => ([], (t, r))
  | future :: rest =>
      let t' := Nat.iter (stop_calls env r) stop t in
      if is_running t'
      then let '(fs, end_state) := taken env t' (S r) rest in
           (future :: fs, end_state)
      else ([], (t', S r))
  end.

(** The result of a probe as the loop sees it: the address text and the
    probe's answer. *)
Definition probe (env : Env) (ip : Z) : string * bool :=
  (ipaddress.str ip, alive env ip).

(** The results behind a sequence of futures of the pool. *)
Definition outcomes (env : Env) (pool : list Z) (futures : list Future)
  : list (string * bool) :=
  omap (fun f => probe env <$> pool !! f) futures.

(** The signals the loop emits for a sequence of results, the counter
    standing at [processed]. *)
Fixpoint loop_signals (total : Z) (rs : list (string * bool)) (processed : Z)
  : list signal :=
  match rs with
  | [] => []
  | (ip, is_active) :: rest =>
      update_ip_status ip is_active
        :: update_progress (processed + 1) total
        :: loop_signals total rest (processed + 1)
  end.

(** The addresses reported alive, in order. *)
Definition live (rs : list (string * bool)) : list string :=
  fst <$> filter (fun r => snd r = true) rs.

(** The signals of a sweep that took the results [rs] and whose last read of
    the flag found [running]. *)
Definition sweep_signals (total : Z) (rs : list (string * bool))
    (running : bool) (elapsed : float) : list signal :=
  loop_signals total rs 0
  ++ (if running then [update_progress total total] else [])
  ++ [scan_complete (live rs) elapsed].

(** The per-address results carried by a stream of signals. *)
Definition result_events (sigs : list signal) : list (string * bool) :=
  omap (fun s => match s with
                 | update_ip_status ip is_active => Some (ip, is_active)
                 | _ => None
                 end) sigs.

(** The batch loop prints and reads the clock, and touches nothing else. *)
Definition same_sweep_state (w w' : World) : Prop :=
  thread w' = thread w /\ flag_reads w' = flag_reads w
  /\ signals w' = signals w /\ submitted w' = submitted w.

(** [ScanThread(network, max_workers)] followed by its [run]. *)
Definition gui_sweep (env : Env) (network : string) (max_workers : Z)
  : result unit * World :=
  run env (initial_world (ScanThread_init network max_workers)).

(** [as_completed] yields every future of the pool exactly once: the
    completion order is a permutation of the submission indices. *)
Definition each_once (order : list Future) (n_futures : nat) : Prop :=
  order ≡ₚ seq 0 n_futures.

(** ** Concrete environments and the claims' predicates *)

(** A prober that finds exactly the listed addresses: the command returns 0
    for them and 1 for every other address. *)
Definition replies (alive_ips : list string) (argv : list string) : result Z :=
  match last argv with
  | Some ip => if bool_decide (ip ∈ alive_ips) then Return 0 else Return 1
  | None => Raise OSError
  end.

(** A clock that reads 10.5 at the start of a sweep and 12 afterwards. *)
Definition demo_clock (k : nat) : float :=
  match k with
  | O => 10.5%float
  | _ => 12%float
  end.

(** The environment with the given live addresses, completion order and
    calls of [stop]. *)
Definition scenario (alive_ips : list string) (order : list nat)
    (stops : nat -> nat) : Env :=
  mkEnv (replies alive_ips) order stops demo_clock.

(** Nobody calls [stop]. *)
Definition never : nat -> nat := fun _ => 0%nat.

(** [stop] is called [m] times just before the read of index [k]. *)
Definition stop_before (k m : nat) : nat -> nat :=
  fun j => if (j =? k)%nat then m else 0%nat.

(** The networks [ip_network] builds from "10.0.0.0/30", "10.0.0.0/29" and
    "192.168.1.0/24". *)
Definition net_10_0_0_0_30 : ipaddress.IPv4Network :=
  ipaddress.mkNetwork 167772160 4294967292 30.

Definition net_10_0_0_0_29 : ipaddress.IPv4Network :=
  ipaddress.mkNetwork 167772160 4294967288 29.

Definition net_192_168_1_0_24 : ipaddress.IPv4Network :=
  ipaddress.mkNetwork 3232235776 4294967040 24.

(** Scenario C of the specification with the completion order reversed: six
    hosts, [stop] called after three results. *)
Definition cancelled_29 : Env :=
  scenario ["10.0.0.3"; "10.0.0.5"] [5; 4; 3; 2; 1; 0]%nat (stop_before 3 1).

(** What the claim asks of a live-address list [l] for the network [n]: no
    more entries than the total the sweep reports (nor than there are
    hosts), no entry twice, every entry the text of a host of [n]. *)
Definition live_list_ok (n : ipaddress.IPv4Network) (l : list string) : Prop :=
  (length l <= length (ipaddress.hosts n))%nat
  /\ Z.of_nat (length l) <= ipaddress.num_addresses n
  /\ NoDup l
  /\ forall ip, ip ∈ l ->
       exists a, a ∈ ipaddress.hosts n /\ ip = ipaddress.str a
                 /\ ipaddress.IPv4Address ip = Return a.

(** Six hosts, completing out of order; nobody calls [stop]. *)
Definition shuffled_29 : Env :=
  scenario ["10.0.0.3"; "10.0.0.5"] [4; 0; 5; 2; 1; 3]%nat never.

(** The environment in which every burst of [stop] calls is one call. *)
Definition once (env : Env) : Env :=
  mkEnv (subprocess_run env) (completion_order env)
        (fun k => Nat.min 1 (stop_calls env k)) (time_time env).

(** Scenario A of the specification: two hosts, both unreachable. *)
Definition unreachable_30 : Env := scenario [] [0; 1]%nat never.

(** The order the claim states: by the time a result signal is emitted, the
    progress signal that counts it has been emitted. *)
Definition progress_then_result (sigs : list signal) : Prop :=
  forall i ip a,
    sigs !! i = Some (update_ip_status ip a) ->
    exists j total,
      (j < i)%nat
      /\ sigs !! j
         = Some (update_progress
                   (Z.of_nat (length (result_events (take (S i) sigs)))) total).

(** The claim's reading of cancellation: every probe handed to the pool has
    its result folded in, so it shows as a result signal. *)
Definition issued_probes_folded (env : Env) (w : World) : Prop :=
  forall ip, ip ∈ submitted w ->
    update_ip_status (ipaddress.str ip) (alive env ip) ∈ signals w.

(** The claim's second half: a malformed address makes [ping] raise. *)
Definition malformed_is_error (env : Env) : Prop :=
  forall s e,
    ipaddress.IPv4Address s = Raise e ->
    exists e', snd (ping env (PyStr s)) = Raise e'.

(** An output that takes every line, and one that takes none: its encoding
    lacks the characters of the messages. *)
Definition takes_all (l : line) : option exn := None.
Definition takes_none (l : line) : option exn := Some ValueError.

(** The claim's reading of a rejected start: the call ends in the error. *)
Definition fails_with_ValueError {A} (r : result A * World) : Prop :=
  r.1 = Raise ValueError.

(** ** Further projections of signals and printed lines *)

(** The [(processed, total)] pairs carried by the progress signals of a
    stream. *)
Definition progress_events (sigs : list signal) : list (Z * Z) :=
  omap (fun s => match s with
                 | update_progress current total => Some (current, total)
                 | _ => None
                 end) sigs.

(** The addresses of the "found" lines of a printed output. *)
Definition found_lines (out : list line) : list string :=
  omap (fun l => match l with
                 | found_active ip => Some ip
                 | _ => None
                 end) out.

(** The [(processed, total)] pairs of the progress lines of a printed
    output. *)
Definition progress_lines (out : list line) : list (Z * Z) :=
  omap (fun l => match l with
                 | progress_line processed total _ => Some (processed, total)
                 | _ => None
                 end) out.

(** The counts at which [scan_network] prints a progress line when it starts
    counting after [processed]: the multiples of 10 and the total. *)
Definition printed_counts (total processed : Z) (k : nat) : list Z :=
  filter (fun q => q mod 10 = 0 \/ q = total)
         ((fun j => processed + Z.of_nat j) <$> seq 1 k).

(** A thread object on which [stop] was called before its sweep began. *)
Definition stopped_30 : World :=
  initial_world (stop (ScanThread_init "10.0.0.0/30" 2)).

(** The world after [out] was printed and the clock was read [reads]
    times. *)
Definition printed (out : list line) (reads : nat) (w : World) : World :=
  mkWorld (thread w) (flag_reads w) (clock_reads w + reads)%nat (signals w)
          (stdout w ++ out) (submitted w).

(** ** The output file of [main] *)

(** The text [main] writes for the list [l]: each entry and a line feed. *)
Definition file_text (l : list string) : string :=
  foldr (fun ip rest => ip +:+ String LF rest) EmptyString l.

(** The octet [b] is written without a line feed. *)
Definition octet_one_line (b : Z) : bool :=
  negb (pystr.contains LF (pystr.of_int b)).

(** A process that has printed nothing and written no file. *)
Definition fresh_process : Process := mkProcess stopped_30 [] ∅.

(** No file can be opened. *)
Definition read_only (path : string) : option exn := Some OSError.

(** Every file can be written. *)
Definition writable (path : string) : option exn := None.

(** ** The table of the window *)

(** The [k]-th of the 256 addresses that share their first three octets
    with the network address. *)
Definition grid_address (n : ipaddress.IPv4Network) (k : nat) : Z :=
  ipaddress.network_address n / 256 * 256 + Z.of_nat k.

(** The cell of an address: row and column by its last octet. *)
Definition cell_of (a : Z) : nat * nat :=
  let k := Z.to_nat (a mod 256) in (k / 16, k mod 16)%nat.

(** The address is one of the 256 of the grid. *)
Definition in_grid (n : ipaddress.IPv4Network) (a : Z) : bool :=
  a / 256 =? ipaddress.network_address n / 256.

(** The dictionary of the grid: the 256 address texts with their cells. *)
Definition grid_entries (n : ipaddress.IPv4Network)
  : list (string * (nat * nat)) :=
  (fun k => (ipaddress.str (grid_address n k), (k / 16, k mod 16)%nat))
    <$> seq 0 256.

(** The item the table holds for an address text. *)
Definition item_of (self : IPScannerGUI.window) (ip : string)
  : option IPScannerGUI.QTableWidgetItem :=
  cell ← IPScannerGUI.ip_cells self !! ip;
  IPScannerGUI.ip_table self !! cell.

(** Every address of the dictionary has an item in its cell, and the tool
    tip of the item is the address. *)
Definition grid_ok (self : IPScannerGUI.window) : Prop :=
  forall ip cell,
    IPScannerGUI.ip_cells self !! ip = Some cell ->
    exists item,
      IPScannerGUI.ip_table self !! cell = Some item
      /\ IPScannerGUI.toolTip item = ip.

(** The item of an address whose result has arrived. *)
Definition painted (ip : string) (is_active : bool)
  : IPScannerGUI.QTableWidgetItem :=
  if is_active
  then IPScannerGUI.mkItem ip IPScannerGUI.red (Some "active")
  else IPScannerGUI.mkItem ip IPScannerGUI.green (Some "inactive").

(** The item of an address without result. *)
Definition unscanned (ip : string) : IPScannerGUI.QTableWidgetItem :=
  IPScannerGUI.mkItem ip IPScannerGUI.grey None.

(** A point-to-point link: two addresses, both of them hosts. *)
Definition net_10_0_0_0_31 : ipaddress.IPv4Network :=
  ipaddress.mkNetwork 167772160 4294967294 31.

(** A network of 512 addresses. *)
Definition net_10_0_0_0_23 : ipaddress.IPv4Network :=
  ipaddress.mkNetwork 167772160 4294966784 23.

(** The items of a grid just created, by cell. *)
Definition grid_items (n : ipaddress.IPv4Network)
  : list ((nat * nat) * IPScannerGUI.QTableWidgetItem) :=
  (fun entry => (entry.2, unscanned entry.1)) <$> grid_entries n.

(** The two windows differ at most in the dictionary and in the table. *)
Definition same_widgets (self self' : IPScannerGUI.window) : Prop :=
  IPScannerGUI.scan_thread self' = IPScannerGUI.scan_thread self
  /\ IPScannerGUI.active_ips self' = IPScannerGUI.active_ips self
  /\ IPScannerGUI.network_input self' = IPScannerGUI.network_input self
  /\ IPScannerGUI.workers_input self' = IPScannerGUI.workers_input self
  /\ IPScannerGUI.scan_button self' = IPScannerGUI.scan_button self
  /\ IPScannerGUI.stop_button self' = IPScannerGUI.stop_button self
  /\ IPScannerGUI.progress_bar self' = IPScannerGUI.progress_bar self
  /\ IPScannerGUI.status_label self' = IPScannerGUI.status_label self
  /\ IPScannerGUI.dialogs self' = IPScannerGUI.dialogs self.

(** The two windows agree on the attributes no slot writes. *)
Definition same_inputs (self self' : IPScannerGUI.window) : Prop :=
  IPScannerGUI.scan_thread self' = IPScannerGUI.scan_thread self
  /\ IPScannerGUI.ip_cells self' = IPScannerGUI.ip_cells self
  /\ IPScannerGUI.network_input self' = IPScannerGUI.network_input self
  /\ IPScannerGUI.workers_input self' = IPScannerGUI.workers_input self
  /\ IPScannerGUI.dialogs self' = IPScannerGUI.dialogs self.

(** The results whose address has a cell. *)
Definition on_grid (self : IPScannerGUI.window) (rs : list (string * bool))
  : list (string * bool) :=
  filter (fun r => is_Some (IPScannerGUI.ip_cells self !! r.1)) rs.

(** A window whose line edit holds [text] and whose spin box holds
    [workers]. *)
Definition window_with (text : string) (workers : Z) : IPScannerGUI.window :=
  IPScannerGUI.set_workers_input workers
    (IPScannerGUI.set_network_input text IPScannerGUI.init).

(** What happens to the window: the user edits an input or presses a
    button (and [QThread.isRunning()] answers [isRunning]), or a signal of
    a thread arrives.  The spin box keeps its value within its range. *)
Inductive event : Type :=
  | edit_network (text : string)
  | edit_workers (value : Z)
  | click_scan
  | click_stop (isRunning : bool)
  | signal_arrives (s : signal).

(** The handler of an event; [None] stands for an exception that leaves
    it. *)
Definition handle (e : event) (self : IPScannerGUI.window)
  : option IPScannerGUI.window :=
  match e with
  | edit_network text => Some (IPScannerGUI.set_network_input text self)
  | edit_workers value =>
      Some (IPScannerGUI.set_workers_input (Z.max 1 (Z.min 200 value)) self)
  | click_scan => IPScannerGUI.start_scan self
  | click_stop isRunning => Some (IPScannerGUI.stop_scan isRunning self)
  | signal_arrives s => deliver s self
  end.

Fixpoint handle_all (es : list event) (self : IPScannerGUI.window)
  : option IPScannerGUI.window :=
  match es with
  | [] => Some self
  | e :: rest => self ← handle e self; handle_all rest self
  end.

(** The texts of which the model's [ip_network] is the library's: the IPv4
    networks, and the texts that the IPv6 constructor refuses as well. *)
Definition in_model (address : string) : bool :=
  match ipaddress.ip_network address with
  | Return _ => true
  | Raise _ => ipaddress.IPv6Network_refuses address
  end.

(** The values of a C [int]: PyQt hands the [int] arguments of a signal to
    the slot as such. *)
Definition c_int (value : Z) : bool :=
  (-2147483648 <=? value) && (value <=? 2147483647).

(** The events the model accounts for: the network text is one of the model,
    and the counts of a progress signal are C [int]s. *)
Definition event_in_model (e : event) : bool :=
  match e with
  | edit_network text => in_model (pystr.strip text)
  | signal_arrives (update_progress current total) =>
      c_int current && c_int total
  | _ => true
  end.

(** What holds of the window whatever has happened to it. *)
Definition window_inv (self : IPScannerGUI.window) : Prop :=
  grid_ok self
  /\ in_model (pystr.strip (IPScannerGUI.network_input self)) = true
  /\ (IPScannerGUI.scan_button self && IPScannerGUI.stop_button self = false)
  /\ 1 <= IPScannerGUI.workers_input self <= 200
  /\ -1 <= IPScannerGUI.progress_bar self <= 100
  /\ (forall t,
        IPScannerGUI.scan_thread self = Some t ->
        (exists n, ipaddress.ip_network (network t) = Return n)
        /\ 1 <= max_workers t <= 200)
  /\ (IPScannerGUI.stop_button self = true ->
      exists t, IPScannerGUI.scan_thread self = Some t
                /\ is_running t = true).

(** The first and the last character of a text. *)
Definition first_char (s : string) : option ascii :=
  match s with
  | String c _ => Some c
  | EmptyString => None
  end.

Fixpoint last_char (s : string) : option ascii :=
  match s with
  | EmptyString => None
  | String c EmptyString => Some c
  | String _ rest => last_char rest
  end.

(** The text begins and ends with a decimal digit. *)
Definition digit_ends (s : string) : Prop :=
  exists c d,
    first_char s = Some c /\ last_char s = Some d
    /\ pystr.is_digit c = true /\ pystr.is_digit d = true.

(** The percentage is the integer part of the exact one. *)
Definition percent_exact (current total : Z) : bool :=
  match IPScannerGUI.percent current total with
  | Some progress => progress =? 100 * current / total
  | None => false
  end.

(** [f] holds of the [k] integers from [a] on. *)
Fixpoint all_from (f : Z -> bool) (a : Z) (k : nat) : bool :=
  match k with
  | O => true
  | S k => f a && all_from f (a + 1) k
  end.

(** The percentage is exact for every count up to the total [2 ^ j]. *)
Definition percent_exact_upto (j : nat) : bool :=
  let total := 2 ^ Z.of_nat j in
  all_from (fun current => percent_exact current total) 0
           (S (Z.to_nat total)).

(** * Properties of the address model *)

Section text.

Import pystr.

Lemma contains_app c s1 s2 :
  contains c (s1 +:+ s2) = (contains c s1 || contains c s2)%bool.
Proof.
  induction s1 as [|d s1 IH]; simpl; [done|].
  rewrite IH. by destruct (Ascii.eqb d c).
Qed.

Lemma split_no_sep c s : contains c s = false -> split c s = [s].
Proof.
  induction s as [|d s IH]; simpl; [done|].
  intros [Hd Hs]%orb_false_elim. rewrite Hd, (IH Hs). done.
Qed.

Lemma split_app c s1 s2 :
  contains c s1 = false ->
  split c (s1 +:+ String c s2) = s1 :: split c s2.
Proof.
  induction s1 as [|d s1 IH]; simpl.
  - intros _. by rewrite Ascii.eqb_refl.
  - intros [Hd Hs]%orb_false_elim. rewrite Hd, (IH Hs). done.
Qed.

Lemma append_single c s : String c EmptyString +:+ s = String c s.
Proof. reflexivity. Qed.

End text.

Section octets.

Import pystr ipaddress.

Lemma octet_values_ok : forallb octet_ok octet_values = true.
Proof. vm_compute. reflexivity. Qed.

Lemma octet_elem b : 0 <= b <= 255 -> b ∈ octet_values.
Proof.
  intros Hb. unfold octet_values. apply list_elem_of_fmap.
  exists (Z.to_nat b). split; [lia|]. apply elem_of_seq. lia.
Qed.

Lemma octet_roundtrip b :
  0 <= b <= 255 ->
  parse_octet (of_int b) = Return b
  /\ contains "." (of_int b) = false
  /\ contains "/" (of_int b) = false.
Proof.
  intros Hb%octet_elem%list_elem_of_In.
  pose proof (proj1 (forallb_forall _ _) octet_values_ok b Hb) as Hok.
  unfold octet_ok in Hok.
  apply andb_prop in Hok as [[H1 H2]%andb_prop H3].
  apply negb_true_iff in H2, H3.
  destruct (parse_octet (of_int b)) as [v|]; [|done].
  apply Z.eqb_eq in H1. by subst.
Qed.

End octets.

Section addresses.

Import pystr ipaddress.

Lemma lor_shiftl_8 x b : 0 <= b < 256 -> Z.lor (Z.shiftl x 8) b = x * 256 + b.
Proof.
  intros Hb. rewrite Z.shiftl_mul_pow2 by lia.
  change (2 ^ 8) with 256. symmetry. apply Z.add_nocarry_lor.
  apply Z.bits_inj'. intros n Hn.
  rewrite Z.land_spec, Z.bits_0.
  destruct (Z.lt_ge_cases n 8) as [Hlt|Hge].
  - change 256 with (2 ^ 8). by rewrite Z.mul_pow2_bits_low.
  - replace b with (b mod 2 ^ 8) by (apply Z.mod_small; lia).
    rewrite Z.mod_pow2_bits_high by lia. apply andb_false_r.
Qed.

Lemma land_255 x : Z.land x 255 = x mod 256.
Proof. change 255 with (Z.ones 8). by rewrite Z.land_ones. Qed.

Lemma to_bytes_octets a : Forall (fun b => 0 <= b <= 255) (to_bytes a).
Proof.
  unfold to_bytes. repeat constructor;
    rewrite land_255; pose proof (Z.mod_pos_bound (Z.shiftr a 24) 256);
    pose proof (Z.mod_pos_bound (Z.shiftr a 16) 256);
    pose proof (Z.mod_pos_bound (Z.shiftr a 8) 256);
    pose proof (Z.mod_pos_bound a 256); lia.
Qed.

Lemma from_to_bytes a : 0 <= a < 2 ^ 32 -> from_bytes (to_bytes a) = a.
Proof.
  intros Ha. unfold from_bytes, to_bytes. simpl fold_left.
  rewrite !land_255, !Z.shiftr_div_pow2 by lia.
  rewrite Z.shiftl_0_l, Z.lor_0_l.
  rewrite !lor_shiftl_8 by (apply Z.mod_pos_bound; lia).
  change (2 ^ 24) with 16777216. change (2 ^ 16) with 65536.
  change (2 ^ 8) with 256. change (2 ^ 32) with 4294967296 in Ha.
  Z.div_mod_to_equations. lia.
Qed.

Lemma from_bytes_bound b3 b2 b1 b0 :
  0 <= b3 <= 255 -> 0 <= b2 <= 255 -> 0 <= b1 <= 255 -> 0 <= b0 <= 255 ->
  0 <= from_bytes [b3; b2; b1; b0] < 2 ^ 32.
Proof.
  intros. unfold from_bytes. simpl fold_left.
  rewrite Z.shiftl_0_l, Z.lor_0_l, !lor_shiftl_8 by lia.
  change (2 ^ 32) with 4294967296. lia.
Qed.

(** The text of an address has four dotted octets and reads back as the
    address. *)
Lemma IPv4Address_str a : 0 <= a < 2 ^ 32 -> IPv4Address (str a) = Return a.
Proof.
  intros Ha. pose proof (to_bytes_octets a) as Hoct.
  pose proof (from_to_bytes a Ha) as Hback.
  unfold str. destruct (to_bytes a) as [|b3 [|b2 [|b1 [|b0 [|]]]]] eqn:Hb;
    try discriminate.
  apply Forall_cons in Hoct as [H3 Hoct]. apply Forall_cons in Hoct as [H2 Hoct].
  apply Forall_cons in Hoct as [H1 Hoct]. apply Forall_cons in Hoct as [H0 _].
  destruct (octet_roundtrip b3 H3) as (P3 & D3 & S3).
  destruct (octet_roundtrip b2 H2) as (P2 & D2 & S2).
  destruct (octet_roundtrip b1 H1) as (P1 & D1 & S1).
  destruct (octet_roundtrip b0 H0) as (P0 & D0 & S0).
  cbn [fmap list_fmap join]. rewrite !append_single.
  unfold IPv4Address.
  rewrite !contains_app. cbn [contains]. rewrite !contains_app. cbn [contains].
  rewrite !contains_app. cbn [contains].
  rewrite S3, S2, S1, S0. cbn [orb Ascii.eqb Bool.eqb].
  unfold ip_int_from_string.
  destruct (String.eqb _ "") eqn:Hemp.
  { apply String.eqb_eq in Hemp. destruct (of_int b3); discriminate. }
  rewrite (split_app "." _ _ D3), (split_app "." _ _ D2), (split_app "." _ _ D1).
  rewrite (split_no_sep "." _ D0).
  cbn [length Nat.eqb negb parse_octets].
  rewrite P3, P2, P1, P0. cbn -[from_bytes]. by rewrite Hback.
Qed.

(** Distinct addresses have distinct texts. *)
Lemma str_inj a b :
  0 <= a < 2 ^ 32 -> 0 <= b < 2 ^ 32 -> str a = str b -> a = b.
Proof.
  intros Ha Hb Heq. pose proof (IPv4Address_str a Ha) as H1.
  rewrite Heq, (IPv4Address_str b Hb) in H1. congruence.
Qed.

End addresses.

Section parsing.

Import pystr ipaddress.

Lemma digit_val_bound c : is_digit c = true -> 0 <= digit_val c <= 9.
Proof.
  destruct c as [[] [] [] [] [] [] [] []]; vm_compute; intuition congruence.
Qed.

Lemma int_acc_nonneg s : forall acc,
  all_digits s = true -> 0 <= acc -> 0 <= int_acc acc s.
Proof.
  induction s as [|c s IH]; simpl; intros acc Hd Hacc; [done|].
  apply andb_prop in Hd as [Hc Hs]. apply IH; [done|].
  pose proof (digit_val_bound c Hc). lia.
Qed.

Lemma isdigit_all_digits s : isdigit s = true -> all_digits s = true.
Proof. by destruct s. Qed.

Lemma parse_octet_bound s v : parse_octet s = Return v -> 0 <= v <= 255.
Proof.
  unfold parse_octet.
  destruct (String.eqb s ""); [done|].
  destruct (isdigit s) eqn:Hd; [|done]. cbn [negb].
  destruct (3 <? String.length s)%nat; [done|].
  destruct (_ && _)%bool; [done|].
  destruct (255 <? int s) eqn:Hle; [done|].
  intros [= <-]. apply Z.ltb_ge in Hle. split; [|done].
  apply int_acc_nonneg; [by apply isdigit_all_digits|done].
Qed.

Lemma parse_octets_bound ss vs :
  parse_octets ss = Return vs ->
  length vs = length ss /\ Forall (fun v => 0 <= v <= 255) vs.
Proof.
  revert vs. induction ss as [|s ss IH]; intros vs; cbn.
  - intros [= <-]. by split.
  - destruct (parse_octet s) as [v|] eqn:Hv; [|done]. cbn.
    destruct (parse_octets ss) as [vs'|]; [|done]. cbn.
    intros [= <-]. destruct (IH vs' eq_refl) as [Hlen Hall].
    split; [cbn; by rewrite Hlen|].
    constructor; [by eapply parse_octet_bound|done].
Qed.

Lemma ip_int_from_string_bound s a :
  ip_int_from_string s = Return a -> 0 <= a < 2 ^ 32.
Proof.
  unfold ip_int_from_string.
  destruct (String.eqb s ""); [done|].
  destruct (length (split "." s) =? 4)%nat eqn:Hlen; [|done]. cbn [negb].
  apply Nat.eqb_eq in Hlen.
  destruct (parse_octets _) as [vs|] eqn:Hvs; [|done].
  intros [= <-]. apply parse_octets_bound in Hvs as [Hl Hall].
  rewrite Hlen in Hl.
  destruct vs as [|b3 [|b2 [|b1 [|b0 [|]]]]]; try discriminate.
  apply Forall_cons in Hall as [H3 Hall]. apply Forall_cons in Hall as [H2 Hall].
  apply Forall_cons in Hall as [H1 Hall]. apply Forall_cons in Hall as [H0 _].
  by apply from_bytes_bound.
Qed.

Lemma IPv4Address_bound s a : IPv4Address s = Return a -> 0 <= a < 2 ^ 32.
Proof.
  unfold IPv4Address. destruct (contains "/" s); [done|].
  apply ip_int_from_string_bound.
Qed.

Lemma bit_length_nonneg n : 0 <= bit_length n.
Proof.
  unfold bit_length. destruct (n =? 0); [done|].
  pose proof (Z.log2_nonneg n). lia.
Qed.

Lemma prefix_from_ip_int_bound x p :
  prefix_from_ip_int x = Return p -> 0 <= p <= 32.
Proof.
  unfold prefix_from_ip_int, count_righthand_zero_bits, max_prefixlen.
  destruct (negb _); [done|]. intros [= <-].
  destruct (x =? 0); [lia|].
  pose proof (bit_length_nonneg (Z.land (Z.lnot x) (x - 1))). lia.
Qed.

Lemma make_netmask_bound arg nm p :
  make_netmask arg = Return (nm, p) ->
  0 <= p <= 32 /\ nm = ip_int_from_prefix p.
Proof.
  unfold make_netmask. destruct arg as [mask|]; cbn.
  - destruct (prefix_from_prefix_string mask) as [q|] eqn:Hq; cbn.
    + intros [= <- <-]. split; [|done].
      unfold prefix_from_prefix_string, max_prefixlen in Hq.
      destruct (negb (isdigit mask)); [done|].
      destruct (_ && _)%bool eqn:Hb; [|done]. injection Hq as <-.
      apply andb_prop in Hb as [?%Z.leb_le ?%Z.leb_le]. lia.
    + unfold prefix_from_ip_string.
      destruct (ip_int_from_string mask) as [x|]; [|done].
      destruct (prefix_from_ip_int x) as [q|] eqn:Hq1; cbn.
      * intros [= <- <-]. split; [by eapply prefix_from_ip_int_bound|done].
      * destruct (prefix_from_ip_int (Z.lxor x ALL_ONES)) as [q|] eqn:Hq2;
          cbn; [|done].
        intros [= <- <-]. split; [by eapply prefix_from_ip_int_bound|done].
  - intros [= <- <-]. unfold max_prefixlen. split; [lia|done].
Qed.

End parsing.

Section networks.

Import ipaddress.

Lemma ip_network_well_formed s n : ip_network s = Return n -> well_formed n.
Proof.
  unfold ip_network.
  destruct (new_IPv4Network s) as [n'|e] eqn:Hn; [|by destruct e].
  intros [= <-]. unfold new_IPv4Network in Hn.
  destruct (split_addr_prefix s) as [[addr mask]|]; [|done]. cbn in Hn.
  destruct (IPv4Address addr) as [a|] eqn:Ha; [|done]. cbn in Hn.
  destruct (make_netmask mask) as [[nm p]|] eqn:Hm; [|done]. cbn in Hn.
  destruct (Z.land a nm =? a) eqn:Hland; [|done]. cbn in Hn.
  injection Hn as <-. apply Z.eqb_eq in Hland.
  apply make_netmask_bound in Hm as [Hp ->].
  apply IPv4Address_bound in Ha. unfold well_formed. cbn. tauto.
Qed.

Context (n : IPv4Network) (Hwf : well_formed n).

Let p := prefixlen n.
Let a := network_address n.

Lemma hostmask_ones : hostmask n = Z.ones (32 - p).
Proof.
  destruct Hwf as (Hp & Hm & _). unfold hostmask. rewrite Hm.
  unfold ip_int_from_prefix.
  rewrite (Z.lxor_comm ALL_ONES), Z.lxor_assoc, Z.lxor_nilpotent, Z.lxor_0_r.
  change ALL_ONES with (Z.ones 32).
  rewrite Z.shiftr_div_pow2 by lia. by rewrite Z.ones_div_pow2 by lia.
Qed.

Lemma no_host_bits : Z.land a (hostmask n) = 0.
Proof.
  pose proof hostmask_ones as Hh. destruct Hwf as (Hp & Hm & Ha & Hland).
  rewrite Hh. apply Z.bits_inj'. intros i Hi.
  assert (Z.testbit (Z.land a (netmask n)) i = Z.testbit a i) as Hbit
    by (by unfold a; rewrite Hland).
  rewrite Z.land_spec in Hbit.
  assert (netmask n = Z.lxor (hostmask n) ALL_ONES) as Hnm.
  { unfold hostmask.
    by rewrite Z.lxor_assoc, Z.lxor_nilpotent, Z.lxor_0_r. }
  rewrite Hnm, Hh in Hbit. change ALL_ONES with (Z.ones 32) in Hbit.
  rewrite Z.lxor_spec, !Z.testbit_ones_nonneg in Hbit by (fold p; lia).
  rewrite Z.land_spec, Z.bits_0, Z.testbit_ones_nonneg by (fold p; lia).
  fold p in Hbit |- *.
  destruct (Z.testbit a i); [|done]. cbn in *.
  destruct (Z.ltb_spec i (32 - p)); [|done].
  destruct (Z.ltb_spec i 32); [done|lia].
Qed.

Lemma broadcast_address_eq : broadcast_address n = a + 2 ^ (32 - p) - 1.
Proof.
  unfold broadcast_address. fold a.
  rewrite <- Z.add_nocarry_lor by apply no_host_bits.
  rewrite hostmask_ones, Z.ones_equiv. lia.
Qed.

Lemma num_addresses_eq : num_addresses n = 2 ^ (32 - p).
Proof. unfold num_addresses. rewrite broadcast_address_eq. fold a. lia. Qed.

Lemma broadcast_address_bound : a <= broadcast_address n < 2 ^ 32.
Proof.
  rewrite broadcast_address_eq.
  pose proof no_host_bits as Hz. rewrite hostmask_ones in Hz.
  destruct Hwf as (Hp & _ & Ha & _). fold p in Hp. fold a in Ha.
  rewrite Z.land_ones in Hz by lia.
  assert (0 < 2 ^ (32 - p)) as Hm by (apply Z.pow_pos_nonneg; lia).
  split; [lia|].
  assert (2 ^ 32 = 2 ^ p * 2 ^ (32 - p)) as Hpow
    by (rewrite <- Z.pow_add_r by lia; f_equal; lia).
  pose proof (Z.div_mod a (2 ^ (32 - p)) ltac:(lia)) as Hdm.
  rewrite Hz, Z.add_0_r in Hdm.
  assert (a / 2 ^ (32 - p) < 2 ^ p) as Hq
    by (apply Z.div_lt_upper_bound; lia).
  rewrite Hpow. nia.
Qed.

End networks.

Section host_enumeration.

Import ipaddress.

Lemma range_length a b : length (range a b) = Z.to_nat (b - a).
Proof. unfold range. by rewrite length_fmap, length_seq. Qed.

Lemma elem_of_range x a b : x ∈ range a b <-> a <= x < b.
Proof.
  unfold range. rewrite list_elem_of_fmap. split.
  - intros (i & -> & Hi%elem_of_seq). lia.
  - intros Hx. exists (Z.to_nat (x - a)). split; [lia|].
    apply elem_of_seq. lia.
Qed.

Lemma shifted_seq_sorted a s k :
  StronglySorted Z.lt ((fun i => a + Z.of_nat i) <$> seq s k).
Proof.
  revert s. induction k as [|k IH]; intros s; cbn; constructor; [apply IH|].
  apply Forall_forall. intros x (i & -> & Hi%elem_of_seq)%list_elem_of_fmap.
  lia.
Qed.

Lemma range_sorted a b : StronglySorted Z.lt (range a b).
Proof. apply shifted_seq_sorted. Qed.

Lemma sorted_lt_NoDup (l : list Z) : StronglySorted Z.lt l -> NoDup l.
Proof.
  induction 1 as [|x l _ IH Hall]; constructor; [|done].
  intros Hx. rewrite Forall_forall in Hall. specialize (Hall x Hx). lia.
Qed.

Context (n : IPv4Network) (Hwf : well_formed n).

Lemma hosts_sorted : StronglySorted Z.lt (hosts n).
Proof.
  unfold hosts. destruct (_ =? _); [apply range_sorted|].
  destruct (_ =? _); [|apply range_sorted].
  repeat constructor.
Qed.

Lemma hosts_NoDup : NoDup (hosts n).
Proof. apply sorted_lt_NoDup, hosts_sorted. Qed.

(** Every enumerated host lies in the block, hence is a 32-bit address. *)
Lemma hosts_in_block x :
  x ∈ hosts n -> network_address n <= x <= broadcast_address n.
Proof.
  pose proof (broadcast_address_bound n Hwf) as Hb.
  unfold hosts. destruct (_ =? _).
  { intros ?%elem_of_range. lia. }
  destruct (_ =? _).
  { intros ->%list_elem_of_singleton. lia. }
  intros ?%elem_of_range. lia.
Qed.

Lemma hosts_32bit x : x ∈ hosts n -> 0 <= x < 2 ^ 32.
Proof.
  intros Hx%hosts_in_block.
  pose proof (broadcast_address_bound n Hwf).
  destruct Hwf as (_ & _ & ? & _). lia.
Qed.

(** Below /31 the hosts are the addresses strictly between the network
    address and the broadcast address. *)
Lemma elem_of_hosts x :
  prefixlen n <= 30 ->
  x ∈ hosts n <-> network_address n < x < broadcast_address n.
Proof.
  intros Hp. unfold hosts, max_prefixlen.
  destruct (Z.eqb_spec (prefixlen n) (32 - 1)); [lia|].
  destruct (Z.eqb_spec (prefixlen n) 32); [lia|].
  rewrite elem_of_range. lia.
Qed.

Lemma hosts_length :
  Z.of_nat (length (hosts n)) =
    if prefixlen n =? 32 then 1
    else if prefixlen n =? 31 then 2
    else 2 ^ (32 - prefixlen n) - 2.
Proof.
  pose proof (broadcast_address_eq n Hwf) as Hb.
  destruct Hwf as (Hp & _). unfold hosts, max_prefixlen.
  assert (0 < 2 ^ (32 - prefixlen n)) by (apply Z.pow_pos_nonneg; lia).
  destruct (Z.eqb_spec (prefixlen n) 32) as [H32|H32].
  { rewrite H32. done. }
  destruct (Z.eqb_spec (prefixlen n) (32 - 1)) as [H31|H31].
  { rewrite range_length, Hb, H31.
    destruct (Z.eqb_spec (32 - 1) 31); [|lia]. cbn. lia. }
  destruct (Z.eqb_spec (prefixlen n) 31); [lia|].
  rewrite range_length, Hb.
  assert (2 ^ 2 <= 2 ^ (32 - prefixlen n))
    by (apply Z.pow_le_mono_r; lia).
  change (2 ^ 2) with 4 in *. lia.
Qed.

(** The hosts never outnumber the addresses of the block. *)
Lemma hosts_length_le : Z.of_nat (length (hosts n)) <= num_addresses n.
Proof.
  rewrite hosts_length, (num_addresses_eq n Hwf).
  destruct Hwf as (Hp & _).
  destruct (Z.eqb_spec (prefixlen n) 32) as [->|]; [done|].
  destruct (Z.eqb_spec (prefixlen n) 31) as [->|]; [done|]. lia.
Qed.

Lemma str_hosts_NoDup : NoDup (str <$> hosts n).
Proof.
  apply NoDup_fmap_2_strong; [|apply hosts_NoDup].
  intros x y Hx%hosts_32bit Hy%hosts_32bit. by apply str_inj.
Qed.

End host_enumeration.

(** * Properties of the probe and of the sweeps *)

#[global] Arguments ipaddress.str : simpl never.
#[global] Arguments ipaddress.hosts : simpl never.
#[global] Arguments ipaddress.num_addresses : simpl never.

(** ** The probe *)

Lemma ping_alive env ip :
  snd (ping env (PyIPv4Address ip)) = Return (alive env ip).
Proof.
  unfold ping, alive. cbn [py_str].
  destruct (subprocess_run env _) as [rc|e]; [done|]. by destruct e.
Qed.

(** ** The futures dictionary *)

Lemma submit_all_eq ips : forall d w,
  submit_all ips d w =
    (Return (submit_dict (length (submitted w)) ips d),
     mkWorld (thread w) (flag_reads w) (clock_reads w)
             (signals w) (stdout w) (submitted w ++ ips)).
Proof.
  induction ips as [|ip rest IH]; intros d w.
  - cbn. rewrite app_nil_r. by destruct w.
  - cbn [submit_all]. unfold mbind, M_bind, submit. rewrite IH. cbn.
    rewrite length_app, Nat.add_1_r, <- app_assoc. done.
Qed.

Lemma submit_dict_lookup ips : forall k d i,
  submit_dict k ips d !! i =
    if decide (k <= i < k + length ips)%nat
    then ipaddress.str <$> ips !! (i - k)%nat
    else d !! i.
Proof.
  induction ips as [|ip rest IH]; intros k d i; cbn [submit_dict length].
  - case_decide; [lia|done].
  - rewrite IH. destruct (decide (i = k)) as [->|Hne].
    + rewrite Nat.sub_diag. cbn.
      case_decide; [lia|]. case_decide; [|lia]. by rewrite lookup_insert_eq.
    + rewrite lookup_insert_ne by done.
      repeat case_decide; try lia; [|done].
      replace (i - k)%nat with (S (i - S k)) by lia. done.
Qed.

Lemma future_to_ip_lookup ips i :
  submit_dict 0 ips ∅ !! i = ipaddress.str <$> ips !! i.
Proof.
  rewrite submit_dict_lookup, Nat.sub_0_r. case_decide as Hi; [done|].
  rewrite lookup_empty. symmetry. rewrite fmap_None.
  apply lookup_ge_None. lia.
Qed.

(** ** The result loop of [run] *)

Lemma live_cons ip (b : bool) rs :
  live ((ip, b) :: rs) = if b then ip :: live rs else live rs.
Proof.
  unfold live. rewrite filter_cons. cbn. destruct b; by case_decide.
Qed.

Lemma result_loop_eq env d total futures : forall active_ips processed w,
  (forall f, f ∈ futures ->
     exists ip, submitted w !! f = Some ip /\ d !! f = Some (ipaddress.str ip)) ->
  result_loop env d total futures active_ips processed w =
    let '(fs, (t', r')) := taken env (thread w) (flag_reads w) futures in
    let rs := outcomes env (submitted w) fs in
    (Return (active_ips ++ live rs, processed + Z.of_nat (length rs)),
     mkWorld t' r' (clock_reads w)
             (signals w ++ loop_signals total rs processed)
             (stdout w) (submitted w)).
Proof.
  induction futures as [|f rest IH]; intros act p w Hd.
  - cbn. rewrite !app_nil_r, Z.add_0_r. by destruct w.
  - cbn [result_loop taken].
    unfold mbind at 1. unfold M_bind at 1. unfold read_is_running at 1.
    destruct (is_running (Nat.iter _ stop (thread w))) eqn:Hrun; cbn [negb].
    + destruct (Hd f) as (ip & Hpool & Hdict); [by left|].
      unfold mbind at 1. unfold M_bind at 1. unfold getitem, lift at 1.
      rewrite Hdict.
      unfold mbind at 1. unfold M_bind at 1. unfold future_result at 1.
      cbn [submitted]. rewrite Hpool, ping_alive.
      unfold mbind at 1. unfold M_bind at 1. unfold emit at 1.
      unfold mbind at 1. unfold M_bind at 1. unfold emit at 1.
      rewrite IH by (intros g Hg; apply Hd; by right).
      cbn [thread flag_reads clock_reads signals stdout submitted].
      destruct (taken env _ _ rest) as [fs [t' r']].
      unfold outcomes. cbn [omap list_omap]. rewrite Hpool.
      cbn [fmap option_fmap option_map].
      fold (outcomes env (submitted w) fs). unfold probe.
      rewrite live_cons. cbn [length loop_signals].
      rewrite <- !app_assoc. cbn [app].
      replace (p + 1 + Z.of_nat (length (outcomes env (submitted w) fs)))
        with (p + Z.of_nat (S (length (outcomes env (submitted w) fs))))
        by lia.
      by destruct (alive env ip); rewrite <- ?app_assoc.
    + cbn. rewrite !app_nil_r, Z.add_0_r. done.
Qed.

(** ** The whole of [run] on a valid network *)

Lemma run_eq env w n :
  ipaddress.ip_network (network (thread w)) = Return n ->
  0 < max_workers (thread w) ->
  (forall f, f ∈ completion_order env -> (f < length (ipaddress.hosts n))%nat) ->
  run env w =
    let '(fs, (t', r')) :=
      taken env (thread w) (flag_reads w) (completion_order env) in
    let rs := outcomes env (ipaddress.hosts n) fs in
    let t'' := Nat.iter (stop_calls env r') stop t' in
    (Return tt,
     mkWorld t'' (S r') (S (S (clock_reads w)))
       (signals w
        ++ sweep_signals (ipaddress.num_addresses n) rs (is_running t'')
             (PrimFloat.sub (time_time env (S (clock_reads w)))
                            (time_time env (clock_reads w))))
       (stdout w) (ipaddress.hosts n)).
Proof.
  intros Hn Hmw Horder. unfold run, try_except.
  unfold mbind at 1. unfold M_bind at 1. unfold get_self at 1.
  unfold mbind at 1. unfold M_bind at 1. unfold lift at 1. rewrite Hn.
  unfold mbind at 1. unfold M_bind at 1. unfold now at 1.
  unfold mbind at 1. unfold M_bind at 1. unfold ThreadPoolExecutor at 1.
  cbn [thread]. destruct (Z.leb_spec (max_workers (thread w)) 0); [lia|].
  unfold mbind at 1. unfold M_bind at 1. rewrite submit_all_eq.
  cbn [thread flag_reads clock_reads signals stdout submitted length app].
  unfold as_completed.
  unfold mbind at 1. unfold M_bind at 1. rewrite result_loop_eq.
  2:{ cbn [submitted]. intros f Hf%Horder.
      destruct (lookup_lt_is_Some_2 _ _ Hf) as [ip Hip].
      exists ip. split; [done|]. by rewrite future_to_ip_lookup, Hip. }
  cbn [thread flag_reads clock_reads signals stdout submitted].
  destruct (taken env _ _ _) as [fs [t' r']].
  unfold mbind, M_bind, read_is_running, now, emit, sweep_signals.
  cbn [thread flag_reads clock_reads signals stdout submitted].
  destruct (is_running (Nat.iter _ stop t')); cbn;
    by rewrite <- ?app_assoc.
Qed.

(** ** The cancellation flag *)

Lemma stop_stop t : stop (stop t) = stop t.
Proof. reflexivity. Qed.

Lemma iter_stop_S m t : Nat.iter (S m) stop t = stop t.
Proof. induction m as [|m IH]; [done|]. cbn in *. by rewrite IH. Qed.

Lemma iter_stop_cleared m t :
  is_running t = false -> is_running (Nat.iter m stop t) = false.
Proof. destruct m as [|m]; [done|]. by rewrite iter_stop_S. Qed.

Lemma taken_prefix env futures : forall t r,
  (taken env t r futures).1 `prefix_of` futures.
Proof.
  induction futures as [|f rest IH]; intros t r; cbn; [done|].
  destruct (is_running _); [|apply prefix_nil].
  specialize (IH (Nat.iter (stop_calls env r) stop t) (S r)).
  destruct (taken env _ _ rest) as [fs st]. cbn in *.
  by apply prefix_cons.
Qed.

(** Without a call of [stop] the loop takes every future. *)
Lemma taken_all env futures : forall t r,
  (forall k, stop_calls env k = 0%nat) ->
  is_running t = true ->
  taken env t r futures = (futures, (t, (r + length futures)%nat)).
Proof.
  induction futures as [|f rest IH]; intros t r Hnone Hrun; cbn.
  - by rewrite Nat.add_0_r.
  - rewrite Hnone. cbn. rewrite Hrun, IH by done.
    by rewrite Nat.add_succ_r.
Qed.

(** When the flag is first found cleared at the read of index [r + k], the
    loop has taken the first [k] futures. *)
Lemma taken_until env futures : forall k t r,
  is_running t = true ->
  (forall j, (j < k)%nat -> stop_calls env (r + j) = 0%nat) ->
  stop_calls env (r + k) <> 0%nat ->
  (k < length futures)%nat ->
  taken env t r futures = (take k futures, (stop t, S (r + k))).
Proof.
  induction futures as [|f rest IH]; intros k t r Hrun Hbefore Hstop Hk;
    cbn in Hk; [lia|].
  cbn [taken]. destruct k as [|k].
  - rewrite Nat.add_0_r in *. destruct (stop_calls env r) as [|m]; [done|].
    by rewrite iter_stop_S.
  - assert (stop_calls env r = 0%nat) as ->
      by (rewrite <- (Hbefore 0%nat) by lia; f_equal; lia).
    cbn [Nat.iter nat_rect]. rewrite Hrun.
    rewrite (IH k t (S r)); [by rewrite Nat.add_succ_r| done | | | lia].
    + intros j Hj. rewrite <- (Hbefore (S j)) by lia. f_equal. lia.
    + by rewrite Nat.add_succ_r in Hstop.
Qed.

(** The flag stays cleared once the loop has stopped early. *)
Lemma taken_early env futures : forall t r,
  (length (taken env t r futures).1 < length futures)%nat ->
  is_running (taken env t r futures).2.1 = false.
Proof.
  induction futures as [|f rest IH]; intros t r; cbn; [lia|].
  destruct (is_running _) eqn:Hrun; [|done].
  specialize (IH (Nat.iter (stop_calls env r) stop t) (S r)).
  destruct (taken env _ _ rest) as [fs st]. cbn in *. intros. apply IH. lia.
Qed.

(** ** Results and signals *)

Lemma omap_fmap_list {A B C} (f : B -> option C) (g : A -> B) (l : list A) :
  omap f (g <$> l) = omap (fun x => f (g x)) l.
Proof. induction l as [|x l IH]; cbn; [done|]. by rewrite IH. Qed.

Lemma outcomes_seq env pool :
  outcomes env pool (seq 0 (length pool)) = probe env <$> pool.
Proof.
  unfold outcomes. induction pool as [|ip pool IH]; [done|].
  cbn [length seq omap list_omap lookup list_lookup fmap option_fmap option_map
       list_fmap].
  f_equal. rewrite <- fmap_S_seq, omap_fmap_list. exact IH.
Qed.

Lemma outcomes_length env pool fs :
  (length (outcomes env pool fs) <= length fs)%nat.
Proof.
  unfold outcomes. induction fs as [|f fs IH]; cbn; [done|].
  destruct (_ <$> _); cbn; lia.
Qed.

Lemma outcomes_length_eq env pool fs :
  Forall (fun f => (f < length pool)%nat) fs ->
  length (outcomes env pool fs) = length fs.
Proof.
  unfold outcomes. induction 1 as [|f fs Hf _ IH]; cbn; [done|].
  destruct (lookup_lt_is_Some_2 _ _ Hf) as [ip ->]. cbn. by rewrite IH.
Qed.

(** The addresses behind distinct futures are distinct texts. *)
Lemma outcomes_NoDup env pool fs :
  NoDup (ipaddress.str <$> pool) -> NoDup fs ->
  NoDup (fst <$> outcomes env pool fs).
Proof.
  intros Hpool. unfold outcomes.
  induction 1 as [|f fs Hf Hfs IH]; cbn; [constructor|].
  destruct (pool !! f) as [ip|] eqn:Hip; cbn; [|done].
  constructor; [|done].
  intros ([s b] & Hs & (g & Hg & Hgo)%list_elem_of_omap)%list_elem_of_fmap.
  apply fmap_Some in Hgo as (ip' & Hip' & Hpr). unfold probe in Hpr.
  injection Hpr as -> ->. cbn [fst] in Hs.
  assert (f = g) as ->; [|done].
  apply (NoDup_lookup _ _ _ (ipaddress.str ip) Hpool);
    rewrite list_lookup_fmap; [by rewrite Hip|by rewrite Hip', Hs].
Qed.

Lemma elem_of_outcomes env pool fs r :
  r ∈ outcomes env pool fs -> exists ip, ip ∈ pool /\ r = probe env ip.
Proof.
  intros (f & _ & (ip & Hip & ->)%fmap_Some)%list_elem_of_omap.
  exists ip. split; [by eapply list_elem_of_lookup_2|done].
Qed.

Lemma live_app rs1 rs2 : live (rs1 ++ rs2) = live rs1 ++ live rs2.
Proof. unfold live. by rewrite filter_app, fmap_app. Qed.

Lemma live_sublist rs : live rs `sublist_of` fst <$> rs.
Proof. unfold live. apply fmap_sublist, sublist_filter. Qed.

Lemma live_Permutation rs1 rs2 : rs1 ≡ₚ rs2 -> live rs1 ≡ₚ live rs2.
Proof. intros H. unfold live. by rewrite H. Qed.

Lemma live_probe env ips :
  live (probe env <$> ips)
  = ipaddress.str <$> filter (fun ip => alive env ip = true) ips.
Proof.
  induction ips as [|ip ips IH]; [done|].
  rewrite fmap_cons. unfold probe at 1. rewrite live_cons, IH, filter_cons.
  destruct (alive env ip); by case_decide.
Qed.

Lemma result_events_app s1 s2 :
  result_events (s1 ++ s2) = result_events s1 ++ result_events s2.
Proof. apply omap_app. Qed.

Lemma result_events_loop total rs : forall p,
  result_events (loop_signals total rs p) = rs.
Proof.
  induction rs as [|[ip b] rs IH]; intros p; [done|].
  cbn. f_equal. apply IH.
Qed.

Lemma result_events_sweep total rs running elapsed :
  result_events (sweep_signals total rs running elapsed) = rs.
Proof.
  unfold sweep_signals. rewrite !result_events_app, result_events_loop.
  destruct running; cbn; by rewrite app_nil_r.
Qed.

Lemma loop_signals_no_complete total rs : forall p active e,
  scan_complete active e ∉ loop_signals total rs p.
Proof.
  induction rs as [|[ip b] rs IH]; intros p active e; cbn.
  - apply not_elem_of_nil.
  - rewrite !not_elem_of_cons. repeat split; [done..|apply IH].
Qed.

(** The [k]-th result of the loop is emitted at position [2k]; the progress
    event that counts it follows at position [2k+1]. *)
Lemma loop_signals_lookup total rs : forall p k ip a,
  rs !! k = Some (ip, a) ->
  loop_signals total rs p !! (2 * k)%nat = Some (update_ip_status ip a)
  /\ loop_signals total rs p !! (2 * k + 1)%nat
     = Some (update_progress (p + Z.of_nat k + 1) total).
Proof.
  induction rs as [|[ip' b] rs IH]; intros p k ip a Hk; [done|].
  destruct k as [|k]; cbn in Hk.
  - injection Hk as -> ->. cbn. split; [done|]. do 2 f_equal. lia.
  - destruct (IH (p + 1) k ip a Hk) as [H1 H2].
    replace (2 * S k)%nat with (S (S (2 * k))) by lia.
    replace (S (S (2 * k)) + 1)%nat with (S (S (2 * k + 1))) by lia.
    cbn [loop_signals lookup list_lookup].
    split; [exact H1|]. etrans; [exact H2|]. do 2 f_equal. lia.
Qed.

(** ** The batch sweep on a valid network *)

Lemma submit_each_eq ips : forall futures w,
  submit_each ips futures w =
    (Return (futures ++ seq (length (submitted w)) (length ips)),
     mkWorld (thread w) (flag_reads w) (clock_reads w)
             (signals w) (stdout w) (submitted w ++ ips)).
Proof.
  induction ips as [|ip rest IH]; intros futures w.
  - cbn. rewrite !app_nil_r. by destruct w.
  - cbn [submit_each]. unfold mbind, M_bind, submit. rewrite IH. cbn.
    rewrite length_app, Nat.add_1_r, <- !app_assoc. done.
Qed.

(** One round of the batch loop is done: the rest is the induction
    hypothesis at the world reached. *)
Ltac batch_rest IH Hpool k processed :=
  cbn [thread flag_reads clock_reads signals stdout submitted];
  match goal with
  | |- exists w', batch_loop _ _ _ _ ?j _ ?a ?q ?W = _ /\ _ =>
      let w' := fresh "w'" in
      let Heq := fresh "Heq" in
      let Hs := fresh "Hs" in
      destruct (IH j a q W) as (w' & Heq & Hs); [exact Hpool|lia|];
      exists w'; rewrite Heq; split;
      [replace (q + Z.of_nat k) with (processed + Z.of_nat (S k)) by lia;
       by rewrite <- ?app_assoc
      |exact Hs]
  end.

Lemma batch_loop_eq env n total start_time k : forall i active_ips processed w,
  submitted w = ipaddress.hosts n ->
  (i + k <= length (ipaddress.hosts n))%nat ->
  exists w',
    batch_loop env n total start_time i (seq i k) active_ips processed w
    = (Return (active_ips
               ++ live (probe env <$> take k (drop i (ipaddress.hosts n))),
               processed + Z.of_nat k), w')
    /\ same_sweep_state w w'.
Proof.
  induction k as [|k IH]; intros i act p w Hpool Hik.
  - exists w. cbn. rewrite app_nil_r, Z.add_0_r. by repeat split.
  - destruct (lookup_lt_is_Some_2 (ipaddress.hosts n) i) as [ip Hip]; [lia|].
    cbn [seq batch_loop].
    unfold mbind at 1. unfold M_bind at 1. unfold list_getitem, lift at 1.
    rewrite Hip.
    unfold mbind at 1. unfold M_bind at 1. unfold future_result at 1.
    rewrite Hpool, Hip, ping_alive.
    rewrite (drop_S _ _ _ Hip). cbn [take fmap list_fmap].
    unfold probe at 1. rewrite live_cons.
    set (cond := ((p + 1) mod 10 =? 0) || (p + 1 =? total)).
    destruct (alive env ip) eqn:Halive.
    + unfold mbind at 1. unfold M_bind at 1.
      unfold mbind at 1. unfold M_bind at 1. unfold print at 1.
      unfold mret at 1. unfold M_ret at 1.
      destruct cond.
      * unfold mbind at 1. unfold M_bind at 1.
        unfold mbind at 1. unfold M_bind at 1. unfold now at 1.
        unfold print at 1. batch_rest IH Hpool k p.
      * unfold mbind at 1. unfold M_bind at 1.
        unfold mret at 1. unfold M_ret at 1. batch_rest IH Hpool k p.
    + unfold mbind at 1. unfold M_bind at 1.
      unfold mret at 1. unfold M_ret at 1.
      destruct cond.
      * unfold mbind at 1. unfold M_bind at 1.
        unfold mbind at 1. unfold M_bind at 1. unfold now at 1.
        unfold print at 1. batch_rest IH Hpool k p.
      * unfold mbind at 1. unfold M_bind at 1.
        unfold mret at 1. unfold M_ret at 1. batch_rest IH Hpool k p.
Qed.

Lemma scan_network_eq env s mw w n :
  ipaddress.ip_network s = Return n ->
  0 < mw ->
  exists w',
    scan_network env s mw w
    = (Return (ipaddress.str
                 <$> filter (fun ip => alive env ip = true) (ipaddress.hosts n)),
       w')
    /\ thread w' = thread w /\ signals w' = signals w
    /\ submitted w' = ipaddress.hosts n.
Proof.
  intros Hn Hmw. unfold scan_network.
  unfold mbind at 1. unfold M_bind at 1. unfold lift at 1. rewrite Hn.
  unfold mbind at 1. unfold M_bind at 1. unfold print at 1.
  unfold mbind at 1. unfold M_bind at 1. unfold now at 1.
  unfold mbind at 1. unfold M_bind at 1. unfold ThreadPoolExecutor at 1.
  destruct (Z.leb_spec mw 0); [lia|].
  unfold mbind at 1. unfold M_bind at 1. rewrite submit_each_eq.
  cbn [thread flag_reads clock_reads signals stdout submitted length app].
  unfold mbind at 1. unfold M_bind at 1.
  match goal with
  | |- context [batch_loop env n ?total ?t0 0 _ [] 0 ?W] =>
      destruct (batch_loop_eq env n total t0 (length (ipaddress.hosts n))
                  0%nat [] 0 W) as (w1 & Heq & Hth & _ & Hsig & Hsub);
        [done|lia|]
  end.
  rewrite Heq. rewrite drop_0, firstn_all, live_probe. cbn [app].
  unfold mbind, M_bind, now, print, mret, M_ret.
  eexists. split; [reflexivity|]. cbn. by rewrite Hth, Hsig, Hsub.
Qed.

(** ** A sweep from a fresh thread object *)

(** A check of [each_once] that computes. *)
Lemma each_once_check order n_futures :
  bool_decide (NoDup order /\ length order = n_futures
               /\ Forall (fun f => (f < n_futures)%nat) order) = true ->
  each_once order n_futures.
Proof.
  intros (Hnd & Hlen & Hall)%bool_decide_eq_true.
  apply submseteq_length_Permutation.
  - apply NoDup_submseteq; [done|]. intros f Hf. apply elem_of_seq.
    rewrite Forall_forall in Hall. specialize (Hall f Hf). lia.
  - rewrite length_seq. lia.
Qed.

Lemma each_once_bound order n_futures f :
  each_once order n_futures -> f ∈ order -> (f < n_futures)%nat.
Proof. intros H Hf. rewrite H in Hf. apply elem_of_seq in Hf. lia. Qed.

Lemma each_once_NoDup order n_futures : each_once order n_futures -> NoDup order.
Proof. intros H. rewrite H. apply NoDup_seq. Qed.

Lemma each_once_length order n_futures :
  each_once order n_futures -> length order = n_futures.
Proof. intros H. by rewrite H, length_seq. Qed.

Lemma prefix_is_sublist {A} (l1 l2 : list A) :
  l1 `prefix_of` l2 -> l1 `sublist_of` l2.
Proof. intros [k ->]. by apply sublist_inserts_r. Qed.

Section valid_sweep.

Context (env : Env) (s : string) (mw : Z) (n : ipaddress.IPv4Network).
Context (Hn : ipaddress.ip_network s = Return n).
Context (Hmw : 0 < mw).
Context (Horder : each_once (completion_order env) (length (ipaddress.hosts n))).

(** The shape of every sweep on a valid network: the results of a prefix of
    the completion order, then possibly the closing progress signal, then
    the completion signal. *)
Lemma gui_sweep_shape :
  exists fs running elapsed w',
    gui_sweep env s mw = (Return tt, w')
    /\ fs `prefix_of` completion_order env
    /\ signals w'
       = sweep_signals (ipaddress.num_addresses n)
           (outcomes env (ipaddress.hosts n) fs) running elapsed
    /\ submitted w' = ipaddress.hosts n
    /\ is_running (thread w') = running
    /\ ((length fs < length (completion_order env))%nat -> running = false).
Proof.
  unfold gui_sweep. rewrite (run_eq env _ n); cbn [initial_world thread]; cbn;
    [|done..|intros f Hf; by eapply each_once_bound].
  pose proof (taken_prefix env (completion_order env)
                (ScanThread_init s mw) 0) as Hpre.
  pose proof (taken_early env (completion_order env)
                (ScanThread_init s mw) 0) as Hearly.
  destruct (taken env _ _ _) as [fs [t' r']]. cbn in Hpre, Hearly.
  eexists fs, _, _, _. split; [reflexivity|]. cbn.
  repeat split; [done|].
  intros Hlt. by apply iter_stop_cleared, Hearly.
Qed.

(** A sweep that nobody stops takes every result and closes the progress. *)
Lemma gui_sweep_uncancelled :
  (forall k, stop_calls env k = 0%nat) ->
  exists elapsed w',
    gui_sweep env s mw = (Return tt, w')
    /\ signals w'
       = sweep_signals (ipaddress.num_addresses n)
           (outcomes env (ipaddress.hosts n) (completion_order env))
           true elapsed
    /\ submitted w' = ipaddress.hosts n.
Proof.
  intros Hnone.
  unfold gui_sweep. rewrite (run_eq env _ n); cbn [initial_world thread]; cbn;
    [|done..|intros f Hf; by eapply each_once_bound].
  rewrite taken_all by done. rewrite Hnone. cbn.
  eexists _, _. split; [reflexivity|]. cbn. by split.
Qed.

Lemma taken_results_NoDup fs :
  fs `prefix_of` completion_order env ->
  NoDup (fst <$> outcomes env (ipaddress.hosts n) fs).
Proof.
  intros Hpre. apply outcomes_NoDup.
  - apply str_hosts_NoDup. by eapply ip_network_well_formed.
  - eapply sublist_NoDup; [by eapply each_once_NoDup|].
    by apply prefix_is_sublist.
Qed.

End valid_sweep.

(** * The claims *)

(** ** C7: one completion signal, and it is the last *)

(** Claim C7.  Every sweep over a valid network with a positive worker count
    emits exactly one [scan_complete] signal, as the last signal of the
    sweep, and it carries the aggregate outcome: the addresses reported
    alive by the result signals before it, in their order.  The environment
    is arbitrary, so the statement covers the sweep that runs to the end and
    the sweep that [stop] interrupts. *)
Theorem scan_complete_once_and_last env s mw n :
  ipaddress.ip_network s = Return n ->
  0 < mw ->
  each_once (completion_order env) (length (ipaddress.hosts n)) ->
  exists evs active elapsed,
    signals (gui_sweep env s mw).2 = evs ++ [scan_complete active elapsed]
    /\ (forall a e, scan_complete a e ∉ evs)
    /\ active = live (result_events evs).
Proof.
  intros Hn Hmw Horder.
  destruct (gui_sweep_shape env s mw n Hn Hmw Horder)
    as (fs & running & elapsed & w' & -> & _ & Hsig & _).
  cbn [snd]. rewrite Hsig. unfold sweep_signals. rewrite app_assoc.
  eexists _, _, _. split; [reflexivity|]. split.
  - intros a e [Hin|Hin]%elem_of_app.
    + by eapply loop_signals_no_complete.
    + destruct running; [|by apply not_elem_of_nil in Hin].
      by apply list_elem_of_singleton in Hin.
  - rewrite result_events_app, result_events_loop.
    destruct running; cbn; by rewrite app_nil_r.
Qed.

Lemma scan_complete_once_and_last_witness :
  exists evs active elapsed,
    signals (gui_sweep cancelled_29 "10.0.0.0/29" 1).2
    = evs ++ [scan_complete active elapsed]
    /\ (forall a e, scan_complete a e ∉ evs)
    /\ active = live (result_events evs).
Proof.
  apply (scan_complete_once_and_last cancelled_29 "10.0.0.0/29" 1
           net_10_0_0_0_29).
  - reflexivity.
  - lia.
  - apply each_once_check. vm_compute. reflexivity.
Defined.

(** A thread object with a worker count of 0 does not sweep: the pool cannot
    be created, [run] prints the error and emits nothing.  (The GUI lets the
    worker count range over 1..200.) *)
Example no_worker_no_sweep :
  gui_sweep unreachable_30 "10.0.0.0/30" 0
  = (Return tt,
     mkWorld (ScanThread_init "10.0.0.0/30" 0) 0 1 []
             [scan_error ValueError] []).
Proof. vm_compute. reflexivity. Qed.

(** ** C10: the live list stays within the range *)

Lemma live_list_ok_prefix n l1 l2 :
  live_list_ok n (l1 ++ l2) -> live_list_ok n l1.
Proof.
  intros (Hlen & Htot & Hnd & Hin). rewrite length_app in Hlen, Htot.
  repeat split; [lia|lia|by apply NoDup_app in Hnd as [? _]|].
  intros ip Hip. apply Hin, elem_of_app. by left.
Qed.

Lemma live_outcomes_ok env n fs :
  well_formed n ->
  each_once (completion_order env) (length (ipaddress.hosts n)) ->
  fs `prefix_of` completion_order env ->
  live_list_ok n (live (outcomes env (ipaddress.hosts n) fs)).
Proof.
  intros Hwf Horder Hpre.
  pose proof (sublist_length _ _ (live_sublist (outcomes env (ipaddress.hosts n) fs)))
    as Hlen.
  rewrite length_fmap in Hlen.
  pose proof (outcomes_length env (ipaddress.hosts n) fs) as Hlen2.
  pose proof (prefix_length _ _ Hpre) as Hlen3.
  rewrite (each_once_length _ _ Horder) in Hlen3.
  pose proof (hosts_length_le n Hwf) as Htot.
  repeat split; [lia|lia| |].
  - eapply sublist_NoDup; [|apply live_sublist].
    apply outcomes_NoDup; [by apply str_hosts_NoDup|].
    eapply sublist_NoDup; [by eapply each_once_NoDup|].
    by apply prefix_is_sublist.
  - intros ip Hip.
    eapply elem_of_sublist in Hip; [|apply live_sublist].
    apply list_elem_of_fmap in Hip as (r & -> & Hr).
    apply elem_of_outcomes in Hr as (a & Ha & ->).
    exists a. repeat split; [done|].
    apply IPv4Address_str. by eapply hosts_32bit.
Qed.

(** Claim C10.  At every moment of every sweep over a valid network,
    cancelled or not, the live-address list (the addresses the result
    signals so far report alive) has at most as many entries as the total
    address count, holds no address twice, and holds only texts of host
    addresses of the range; the list carried by [scan_complete] does too. *)
Theorem live_addresses_within_range env s mw n :
  ipaddress.ip_network s = Return n ->
  0 < mw ->
  each_once (completion_order env) (length (ipaddress.hosts n)) ->
  (forall evs, evs `prefix_of` signals (gui_sweep env s mw).2 ->
     live_list_ok n (live (result_events evs)))
  /\ (forall active elapsed,
        scan_complete active elapsed ∈ signals (gui_sweep env s mw).2 ->
        live_list_ok n active).
Proof.
  intros Hn Hmw Horder.
  pose proof (ip_network_well_formed s n Hn) as Hwf.
  destruct (gui_sweep_shape env s mw n Hn Hmw Horder)
    as (fs & running & elapsed & w' & -> & Hpre & Hsig & _).
  cbn [snd]. rewrite Hsig.
  pose proof (live_outcomes_ok env n fs Hwf Horder Hpre) as Hok.
  split.
  - intros evs [rest Hrest].
    apply (f_equal result_events) in Hrest.
    rewrite result_events_sweep, result_events_app in Hrest.
    rewrite Hrest, live_app in Hok. by eapply live_list_ok_prefix.
  - intros active e. unfold sweep_signals.
    rewrite !elem_of_app. intros [Hin|[Hin|Hin]].
    + by apply loop_signals_no_complete in Hin.
    + destruct running; [|by apply not_elem_of_nil in Hin].
      by apply list_elem_of_singleton in Hin.
    + apply list_elem_of_singleton in Hin. by injection Hin as -> _.
Qed.

Lemma live_addresses_within_range_witness :
  (forall evs,
     evs `prefix_of` signals (gui_sweep cancelled_29 "10.0.0.0/29" 1).2 ->
     live_list_ok net_10_0_0_0_29 (live (result_events evs)))
  /\ (forall active elapsed,
        scan_complete active elapsed
          ∈ signals (gui_sweep cancelled_29 "10.0.0.0/29" 1).2 ->
        live_list_ok net_10_0_0_0_29 active).
Proof.
  apply (live_addresses_within_range cancelled_29 "10.0.0.0/29" 1
           net_10_0_0_0_29).
  - reflexivity.
  - lia.
  - apply each_once_check. vm_compute. reflexivity.
Defined.

(** ** C8: the GUI sweep and the batch sweep agree *)

(** Claim C8.  For a valid network and a fixed prober, the GUI sweep that
    nobody stops and the batch sweep find the same live addresses: the list
    carried by [scan_complete] is a permutation of the list [scan_network]
    returns (the first in completion order, the second in address order),
    so the two are the same set. *)
Theorem gui_batch_same_live_set env s mw mw' n w :
  ipaddress.ip_network s = Return n ->
  0 < mw -> 0 < mw' ->
  each_once (completion_order env) (length (ipaddress.hosts n)) ->
  (forall k, stop_calls env k = 0%nat) ->
  exists gui elapsed batch,
    last (signals (gui_sweep env s mw).2) = Some (scan_complete gui elapsed)
    /\ (scan_network env s mw' w).1 = Return batch
    /\ gui ≡ₚ batch
    /\ (list_to_set gui : gset string) = list_to_set batch.
Proof.
  intros Hn Hmw Hmw' Horder Hnone.
  destruct (gui_sweep_uncancelled env s mw n Hn Hmw Horder Hnone)
    as (elapsed & w' & -> & Hsig & _).
  destruct (scan_network_eq env s mw' w n Hn Hmw') as (w'' & -> & _).
  cbn [fst snd]. rewrite Hsig. unfold sweep_signals.
  rewrite !app_assoc, last_snoc.
  eexists _, _, _. split; [reflexivity|]. split; [reflexivity|].
  assert (live (outcomes env (ipaddress.hosts n) (completion_order env))
          ≡ₚ ipaddress.str
               <$> filter (fun ip => alive env ip = true) (ipaddress.hosts n))
    as Hperm.
  { rewrite <- live_probe, <- outcomes_seq. apply live_Permutation.
    unfold outcomes. by apply omap_Permutation. }
  split; [done|]. by apply list_to_set_perm_L.
Qed.

Lemma gui_batch_same_live_set_witness :
  exists gui elapsed batch,
    last (signals (gui_sweep shuffled_29 "10.0.0.0/29" 50).2)
    = Some (scan_complete gui elapsed)
    /\ (scan_network shuffled_29 "10.0.0.0/29" 4
          (initial_world (ScanThread_init "" 1))).1 = Return batch
    /\ gui ≡ₚ batch
    /\ (list_to_set gui : gset string) = list_to_set batch.
Proof.
  apply (gui_batch_same_live_set shuffled_29 "10.0.0.0/29" 50 4
           net_10_0_0_0_29).
  - reflexivity.
  - lia.
  - lia.
  - apply each_once_check. vm_compute. reflexivity.
  - intros k. reflexivity.
Defined.

(** In the scenario the two lists differ in order and agree as sets. *)
Example gui_batch_shuffled :
  last (signals (gui_sweep shuffled_29 "10.0.0.0/29" 50).2)
  = Some (scan_complete ["10.0.0.5"; "10.0.0.3"] 1.5%float)
  /\ (scan_network shuffled_29 "10.0.0.0/29" 4
        (initial_world (ScanThread_init "" 1))).1
     = Return ["10.0.0.3"; "10.0.0.5"].
Proof. split; vm_compute; reflexivity. Qed.

(** ** C9: [stop] is idempotent *)

Lemma read_is_running_once env w :
  read_is_running (once env) w = read_is_running env w.
Proof.
  unfold read_is_running. cbn [stop_calls once].
  destruct (stop_calls env (flag_reads w)) as [|m]; [done|].
  replace (Nat.min 1 (S m)) with 1%nat by lia. by rewrite !iter_stop_S.
Qed.

Lemma future_result_once env f w :
  future_result (once env) f w = future_result env f w.
Proof. reflexivity. Qed.

Lemma result_loop_once env d total futures : forall active_ips processed w,
  result_loop (once env) d total futures active_ips processed w
  = result_loop env d total futures active_ips processed w.
Proof.
  induction futures as [|f rest IH]; intros act p w; [done|].
  cbn [result_loop]. unfold mbind, M_bind.
  rewrite read_is_running_once.
  destruct (read_is_running env w) as [[running|e] w1]; [|done].
  destruct running; cbn [negb]; [|done].
  destruct (getitem d f w1) as [[ip|e] w2]; [|done].
  rewrite future_result_once.
  destruct (future_result env f w2) as [[b|e] w3]; [|done].
  destruct (emit _ w3) as [[[]|e] w4]; [|done].
  destruct (emit _ w4) as [[[]|e] w5]; [|done].
  apply IH.
Qed.

(** Claim C9.  Calling [stop] several times is calling it once: on the
    thread object, and for the whole sweep, whose result, signals, output
    and final state are the same when every burst of [stop] calls is
    replaced by a single call. *)
Theorem stop_idempotent :
  (forall t, stop (stop t) = stop t)
  /\ (forall m t, Nat.iter (S m) stop t = stop t)
  /\ (forall env w, run (once env) w = run env w).
Proof.
  split; [apply stop_stop|]. split; [intros; apply iter_stop_S|].
  intros env w. unfold run, try_except, mbind, M_bind, get_self, lift.
  destruct (ipaddress.ip_network _) as [n|e]; [|done].
  unfold now at 1 3. cbn [time_time once].
  destruct (ThreadPoolExecutor _ _) as [[[]|e] w1]; [|done].
  rewrite submit_all_eq.
  unfold as_completed. cbn [completion_order once].
  rewrite result_loop_once.
  destruct (result_loop env _ _ _ _ _ _) as [[[act p]|e] w2]; [|done].
  rewrite read_is_running_once.
  destruct (read_is_running env w2) as [[running|e] w3]; [|done].
  reflexivity.
Qed.

(** ** C4: the order of the two signals of a result *)

(** The first signal of the sweep is a result signal: no progress signal
    comes before it. *)
Lemma progress_not_before_result :
  ~ progress_then_result (signals (gui_sweep unreachable_30 "10.0.0.0/30" 2).2).
Proof.
  intros H. destruct (H 0%nat "10.0.0.1" false) as (j & total & Hj & _).
  - vm_compute. reflexivity.
  - lia.
Qed.

(** Claim C4, amended.  For every result the loop takes, the engine emits
    the result signal [(address, alive)] and then the progress signal
    [(processed, total)], in that order: the [k]-th result (from 0) is the
    signal at position [2k], the progress signal at position [2k+1] carries
    the count [k+1]; this holds for every result, the last one included. *)
Theorem result_then_progress env s mw n :
  ipaddress.ip_network s = Return n ->
  0 < mw ->
  each_once (completion_order env) (length (ipaddress.hosts n)) ->
  forall k ip a,
    result_events (signals (gui_sweep env s mw).2) !! k = Some (ip, a) ->
    signals (gui_sweep env s mw).2 !! (2 * k)%nat
    = Some (update_ip_status ip a)
    /\ signals (gui_sweep env s mw).2 !! (2 * k + 1)%nat
       = Some (update_progress (Z.of_nat k + 1) (ipaddress.num_addresses n)).
Proof.
  intros Hn Hmw Horder k ip a.
  destruct (gui_sweep_shape env s mw n Hn Hmw Horder)
    as (fs & running & elapsed & w' & -> & _ & Hsig & _).
  cbn [snd]. rewrite Hsig, result_events_sweep. intros Hk.
  destruct (loop_signals_lookup (ipaddress.num_addresses n) _ 0 k ip a Hk)
    as [H1 H2].
  unfold sweep_signals. split; apply lookup_app_l_Some; [exact H1|].
  etrans; [exact H2|]. do 2 f_equal.
Qed.

Lemma result_then_progress_witness :
  result_events (signals (gui_sweep cancelled_29 "10.0.0.0/29" 1).2) !! 1%nat
  = Some ("10.0.0.5", true)
  /\ signals (gui_sweep cancelled_29 "10.0.0.0/29" 1).2 !! 2%nat
     = Some (update_ip_status "10.0.0.5" true)
  /\ signals (gui_sweep cancelled_29 "10.0.0.0/29" 1).2 !! 3%nat
     = Some (update_progress 2 (ipaddress.num_addresses net_10_0_0_0_29)).
Proof.
  split; [vm_compute; reflexivity|].
  refine (result_then_progress cancelled_29 "10.0.0.0/29" 1 net_10_0_0_0_29
            _ _ _ 1%nat "10.0.0.5" true _).
  - reflexivity.
  - lia.
  - apply each_once_check. vm_compute. reflexivity.
  - vm_compute. reflexivity.
Defined.

(** ** C3: what cancellation does to the results *)

(** The cancelled sweep of the scenario, signal by signal, and the probes it
    handed to the pool. *)
Example cancelled_29_signals :
  signals (gui_sweep cancelled_29 "10.0.0.0/29" 1).2
  = [ update_ip_status "10.0.0.6" false; update_progress 1 8;
      update_ip_status "10.0.0.5" true; update_progress 2 8;
      update_ip_status "10.0.0.4" false; update_progress 3 8;
      scan_complete ["10.0.0.5"] 1.5%float ]
  /\ submitted (gui_sweep cancelled_29 "10.0.0.0/29" 1).2
     = [ 167772161; 167772162; 167772163; 167772164; 167772165; 167772166 ]
  /\ ipaddress.str 167772163 = "10.0.0.3"
  /\ alive cancelled_29 167772163 = true.
Proof. repeat split; vm_compute; reflexivity. Qed.

(** Six probes are submitted, [stop] is called after three results: the
    probe of 10.0.0.3, which answers, never shows. *)
Lemma cancelled_probe_not_folded :
  ~ issued_probes_folded cancelled_29
      (gui_sweep cancelled_29 "10.0.0.0/29" 1).2.
Proof.
  destruct cancelled_29_signals as (Hsig & Hsub & Hstr & Halive).
  intros H. specialize (H 167772163).
  rewrite Hsig, Hsub, Hstr, Halive in H.
  assert (update_ip_status "10.0.0.3" true
          ∈ [ update_ip_status "10.0.0.6" false; update_progress 1 8;
              update_ip_status "10.0.0.5" true; update_progress 2 8;
              update_ip_status "10.0.0.4" false; update_progress 3 8;
              scan_complete ["10.0.0.5"] 1.5%float ]) as Hin
    by (apply H; do 2 right; left).
  repeat (apply elem_of_cons in Hin as [Hin|Hin]; [discriminate|]).
  by apply not_elem_of_nil in Hin.
Qed.

(** Claim C3, amended.  All probes are submitted to the pool before the
    cancellation flag is read for the first time.  When the flag is first
    found cleared at the [k]-th pass of the result loop, the loop ends: the
    [k] results taken before stay folded in (counted, and appended to the
    live list if alive), no later result is folded in and no later result
    or progress signal is emitted, although the remaining probes were
    submitted too. *)
Theorem cancel_ends_folding env s mw n k :
  ipaddress.ip_network s = Return n ->
  0 < mw ->
  each_once (completion_order env) (length (ipaddress.hosts n)) ->
  (k < length (ipaddress.hosts n))%nat ->
  (forall j, (j < k)%nat -> stop_calls env j = 0%nat) ->
  stop_calls env k <> 0%nat ->
  exists elapsed w',
    let rs := outcomes env (ipaddress.hosts n) (take k (completion_order env)) in
    gui_sweep env s mw = (Return tt, w')
    /\ submitted w' = ipaddress.hosts n
    /\ length rs = k
    /\ signals w'
       = loop_signals (ipaddress.num_addresses n) rs 0
         ++ [scan_complete (live rs) elapsed]
    /\ is_running (thread w') = false.
Proof.
  intros Hn Hmw Horder Hk Hbefore Hstop.
  unfold gui_sweep. rewrite (run_eq env _ n); cbn [initial_world thread]; cbn;
    [|done..|intros f Hf; by eapply each_once_bound].
  rewrite (taken_until env _ k); cbn;
    [|done|done|done|by rewrite (each_once_length _ _ Horder)].
  rewrite iter_stop_cleared by done.
  eexists _, _. cbn. split; [reflexivity|]. cbn.
  split; [done|].
  split; [|split; [reflexivity|by apply iter_stop_cleared]].
  rewrite outcomes_length_eq.
  - rewrite length_take, (each_once_length _ _ Horder). lia.
  - apply Forall_forall. intros f Hf.
    eapply each_once_bound; [done|].
    eapply elem_of_sublist; [done|apply sublist_take].
Qed.

Lemma cancel_ends_folding_witness :
  exists elapsed w',
    let rs := outcomes cancelled_29 (ipaddress.hosts net_10_0_0_0_29)
                (take 3 (completion_order cancelled_29)) in
    gui_sweep cancelled_29 "10.0.0.0/29" 1 = (Return tt, w')
    /\ submitted w' = ipaddress.hosts net_10_0_0_0_29
    /\ length rs = 3%nat
    /\ signals w'
       = loop_signals (ipaddress.num_addresses net_10_0_0_0_29) rs 0
         ++ [scan_complete (live rs) elapsed]
    /\ is_running (thread w') = false.
Proof.
  apply (cancel_ends_folding cancelled_29 "10.0.0.0/29" 1 net_10_0_0_0_29 3).
  - reflexivity.
  - lia.
  - apply each_once_check. vm_compute. reflexivity.
  - vm_compute. lia.
  - intros [|[|[|j]]] Hj; try reflexivity. lia.
  - vm_compute. lia.
Defined.

(** ** C5: what the probe raises *)

(** The text "not-an-ip" is no address, the command fails on it with return
    code 1, and [ping] returns [False]. *)
Lemma malformed_address_not_reported :
  ~ malformed_is_error (scenario [] [] never).
Proof.
  intros H. destruct (H "not-an-ip" AddressValueError) as [e' He'].
  - reflexivity.
  - assert (snd (ping (scenario [] [] never) (PyStr "not-an-ip"))
            = Return false) as Hret by (vm_compute; reflexivity).
    congruence.
Qed.

Lemma ping_on_takes_all env ip : ping_on takes_all env ip = ping env ip.
Proof.
  unfold ping_on, ping, takes_all.
  by destruct (subprocess_run env _) as [rc|[]].
Qed.

(** On an output that takes no line, a command that cannot be started makes
    [ping] raise. *)
Example ping_raises_with_its_print :
  snd (ping_on takes_none
         (mkEnv (fun _ => Raise OSError) [] never demo_clock)
         (PyStr "10.0.0.1"))
  = Raise ValueError.
Proof. reflexivity. Qed.

(** Claim C5, amended.  [ping] does not raise for a network-level failure:
    it returns [True] exactly when the command ran and returned 0; a
    non-zero return code and a timeout give [False] without a word; every
    other exception of [subprocess.run] (permission issues, a command that
    cannot be started) gives [False] after one printed line, and so does a
    malformed address, which is not validated and not reported as an error.
    The one way out of [ping] with an exception is that very [print]: [ping]
    raises exactly what its [print] raises, and nothing if the output takes
    the line. *)
Theorem ping_raises_only_what_its_print_raises print_error env ip :
  (forall e,
     snd (ping_on print_error env ip) = Raise e <->
     exists e0,
       subprocess_run env ["ping"; "-n"; "1"; "-w"; "500"; py_str ip]
       = Raise e0
       /\ e0 <> TimeoutExpired
       /\ print_error (ping_error (py_str ip) e0) = Some e)
  /\ (forall returncode,
        subprocess_run env ["ping"; "-n"; "1"; "-w"; "500"; py_str ip]
        = Return returncode ->
        ping_on print_error env ip = ([], Return (returncode =? 0)))
  /\ (subprocess_run env ["ping"; "-n"; "1"; "-w"; "500"; py_str ip]
      = Raise TimeoutExpired ->
      ping_on print_error env ip = ([], Return false))
  /\ (forall e0,
        subprocess_run env ["ping"; "-n"; "1"; "-w"; "500"; py_str ip]
        = Raise e0 ->
        e0 <> TimeoutExpired ->
        print_error (ping_error (py_str ip) e0) = None ->
        ping_on print_error env ip
        = ([ping_error (py_str ip) e0], Return false))
  /\ ((forall l, print_error l = None) ->
      exists b,
        snd (ping_on print_error env ip) = Return b
        /\ (b = true <->
            subprocess_run env ["ping"; "-n"; "1"; "-w"; "500"; py_str ip]
            = Return 0)).
Proof.
  unfold ping_on.
  destruct (subprocess_run env _) as [rc|e0] eqn:Hrun.
  - split; [|split; [|split; [|split]]]; try done.
    + intros e. split; [done|]. by intros (e1 & ? & _).
    + by intros rc' [= <-].
    + intros _. exists (rc =? 0). split; [done|].
      rewrite Z.eqb_eq. split; congruence.
  - destruct e0;
      try destruct (print_error (ping_error (py_str ip) _)) as [e'|] eqn:Hprint;
      cbn [snd];
      (split; [|split; [|split; [|split]]]);
      try done;
      try (intros e; split; [intros [= <-]; by eexists|]);
      try (intros e; split; [done|]);
      try (intros (e1 & [= <-] & Hne & Hp); congruence);
      try (intros e1 [= <-] Hne Hp; congruence);
      try (intros Hall; rewrite Hall in Hprint; done);
      try (intros _; exists false; split; [done|]; split; discriminate).
Qed.

(** ** C6: an invalid range expression *)

(** [run] catches the error of [ip_network] and returns normally. *)
Lemma run_swallows_invalid_range :
  ~ fails_with_ValueError (gui_sweep (scenario [] [] never) "not-an-ip" 50).
Proof.
  unfold fails_with_ValueError.
  assert ((gui_sweep (scenario [] [] never) "not-an-ip" 50).1 = Return tt)
    as -> by (vm_compute; reflexivity).
  discriminate.
Qed.

Lemma split_addr_prefix_raises s e :
  ipaddress.split_addr_prefix s = Raise e -> e = AddressValueError.
Proof.
  unfold ipaddress.split_addr_prefix.
  destruct (2 <? length _)%nat; [congruence|].
  destruct (pystr.split "/" s) as [|a [|m rest]]; congruence.
Qed.

Lemma ip_int_from_string_raises s e :
  ipaddress.ip_int_from_string s = Raise e -> e = AddressValueError.
Proof.
  unfold ipaddress.ip_int_from_string.
  destruct (String.eqb s ""); [congruence|].
  destruct (negb _); [congruence|].
  destruct (ipaddress.parse_octets _); congruence.
Qed.

Lemma IPv4Address_raises s e :
  ipaddress.IPv4Address s = Raise e -> e = AddressValueError.
Proof.
  unfold ipaddress.IPv4Address.
  destruct (pystr.contains "/" s); [congruence|].
  apply ip_int_from_string_raises.
Qed.

Lemma make_netmask_raises arg e :
  ipaddress.make_netmask arg = Raise e -> e = NetmaskValueError.
Proof.
  unfold ipaddress.make_netmask. destruct arg as [mask|]; cbn; [|congruence].
  destruct (ipaddress.prefix_from_prefix_string mask); cbn; [congruence|].
  unfold ipaddress.prefix_from_ip_string.
  destruct (ipaddress.ip_int_from_string mask) as [x|]; cbn; [|congruence].
  destruct (ipaddress.prefix_from_ip_int x); cbn; [congruence|].
  destruct (ipaddress.prefix_from_ip_int (Z.lxor x ipaddress.ALL_ONES)); cbn;
    congruence.
Qed.

(** [ip_network] raises nothing but [ValueError]. *)
Lemma ip_network_raises s e :
  ipaddress.ip_network s = Raise e -> e = ValueError.
Proof.
  unfold ipaddress.ip_network.
  destruct (ipaddress.new_IPv4Network s) as [n|e'] eqn:Hnew; [done|].
  assert (e' = AddressValueError \/ e' = NetmaskValueError \/ e' = ValueError)
    as [->|[->| ->]]; [|congruence..].
  unfold ipaddress.new_IPv4Network in Hnew.
  destruct (ipaddress.split_addr_prefix s) as [[addr mask]|e1] eqn:H1;
    cbn in Hnew.
  2:{ apply split_addr_prefix_raises in H1. left. congruence. }
  destruct (ipaddress.IPv4Address addr) as [a|e2] eqn:H2; cbn in Hnew.
  2:{ apply IPv4Address_raises in H2. left. congruence. }
  destruct (ipaddress.make_netmask mask) as [[nm p]|e3] eqn:H3; cbn in Hnew.
  2:{ apply make_netmask_raises in H3. right. left. congruence. }
  destruct (negb _); [|done]. right. right. congruence.
Qed.

(** Claim C6, amended.  A sweep started on an invalid range expression, a
    text that neither the IPv4 constructor accepts nor the IPv6 constructor
    (which refuses it at its first check), does no work: no probe is
    submitted and no progress, result or completion signal is emitted, and
    the sweep state is left as it was.  The batch sweep [scan_network] fails
    with the [ValueError] of [ip_network] before it prints or submits
    anything; the thread's [run] catches that error, prints it and returns
    normally. *)
Theorem invalid_range_no_dispatch env s mw w e :
  ipaddress.ip_network s = Raise e ->
  ipaddress.IPv6Network_refuses s = true ->
  e = ValueError
  /\ scan_network env s mw w = (Raise ValueError, w)
  /\ (network (thread w) = s ->
      run env w
      = (Return tt,
         mkWorld (thread w) (flag_reads w) (clock_reads w)
                 (signals w) (stdout w ++ [scan_error ValueError])
                 (submitted w))).
Proof.
  intros He _. pose proof (ip_network_raises s e He) as ->.
  split; [done|]. split.
  - unfold scan_network, mbind, M_bind, lift. by rewrite He.
  - intros Hs. unfold run, try_except, mbind, M_bind, get_self, lift.
    by rewrite Hs, He.
Qed.

Lemma invalid_range_no_dispatch_witness :
  ValueError = ValueError
  /\ scan_network unreachable_30 "not-an-ip" 50
       (initial_world (ScanThread_init "not-an-ip" 50))
     = (Raise ValueError, initial_world (ScanThread_init "not-an-ip" 50))
  /\ (network (thread (initial_world (ScanThread_init "not-an-ip" 50)))
      = "not-an-ip" ->
      run unreachable_30 (initial_world (ScanThread_init "not-an-ip" 50))
      = (Return tt,
         mkWorld (ScanThread_init "not-an-ip" 50) 0 0 []
                 ([] ++ [scan_error ValueError]) [])).
Proof.
  apply (invalid_range_no_dispatch unreachable_30 "not-an-ip" 50
           (initial_world (ScanThread_init "not-an-ip" 50)) ValueError).
  - reflexivity.
  - reflexivity.
Defined.

(** ** C1 and C2: the total the sweep reports *)

(** Below /31 the total the sweeps report counts the network address and
    the broadcast address, which [hosts] leaves out. *)
Lemma total_exceeds_hosts_by_two n :
  well_formed n ->
  ipaddress.prefixlen n <= 30 ->
  ipaddress.num_addresses n = Z.of_nat (length (ipaddress.hosts n)) + 2.
Proof.
  intros Hwf Hp. rewrite (hosts_length n Hwf), (num_addresses_eq n Hwf).
  destruct (Z.eqb_spec (ipaddress.prefixlen n) 32); [lia|].
  destruct (Z.eqb_spec (ipaddress.prefixlen n) 31); lia.
Qed.

(** A sweep that nobody stops emits one result signal per host, each host
    once: the result signals are the probes of the hosts, permuted into
    completion order. *)
Lemma every_host_one_result env s mw n :
  ipaddress.ip_network s = Return n ->
  0 < mw ->
  each_once (completion_order env) (length (ipaddress.hosts n)) ->
  (forall k, stop_calls env k = 0%nat) ->
  result_events (signals (gui_sweep env s mw).2)
    ≡ₚ probe env <$> ipaddress.hosts n
  /\ fst <$> result_events (signals (gui_sweep env s mw).2)
       ≡ₚ ipaddress.str <$> ipaddress.hosts n
  /\ NoDup (fst <$> result_events (signals (gui_sweep env s mw).2)).
Proof.
  intros Hn Hmw Horder Hnone.
  destruct (gui_sweep_uncancelled env s mw n Hn Hmw Horder Hnone)
    as (elapsed & w' & -> & Hsig & _).
  cbn [snd]. rewrite Hsig, result_events_sweep.
  assert (outcomes env (ipaddress.hosts n) (completion_order env)
          ≡ₚ probe env <$> ipaddress.hosts n) as Hperm.
  { rewrite <- outcomes_seq. unfold outcomes. by apply omap_Permutation. }
  split; [done|]. split.
  - rewrite Hperm, <- list_fmap_compose. done.
  - by eapply taken_results_NoDup.
Qed.

(** Claim C1, at the failing input.  Scenario A of the specification: the
    block 10.0.0.0/30, both hosts unreachable, nobody calls [stop].  The
    sweep reports a total of 4; its two hosts yield one result signal each
    and the processed count of the loop ends at 2, short of the total; only
    the closing signal, emitted after the loop, reports 4 of 4. *)
Theorem processed_stops_short_of_total :
  ipaddress.ip_network "10.0.0.0/30" = Return net_10_0_0_0_30
  /\ signals (gui_sweep unreachable_30 "10.0.0.0/30" 2).2
     = [ update_ip_status "10.0.0.1" false; update_progress 1 4;
         update_ip_status "10.0.0.2" false; update_progress 2 4;
         update_progress 4 4;
         scan_complete [] 1.5%float ].
Proof. split; vm_compute; reflexivity. Qed.

(** Claim C2, at the failing inputs.  The address count the sweeps use is
    [num_addresses]: 4 for 10.0.0.0/30 and 256 for 192.168.1.0/24, where
    the blocks have 2 and 254 hosts; the batch sweep announces the same
    total. *)
Theorem total_is_not_host_count :
  ipaddress.ip_network "10.0.0.0/30" = Return net_10_0_0_0_30
  /\ ipaddress.num_addresses net_10_0_0_0_30 = 4
  /\ ipaddress.str <$> ipaddress.hosts net_10_0_0_0_30
     = ["10.0.0.1"; "10.0.0.2"]
  /\ ipaddress.ip_network "192.168.1.0/24" = Return net_192_168_1_0_24
  /\ ipaddress.num_addresses net_192_168_1_0_24 = 256
  /\ length (ipaddress.hosts net_192_168_1_0_24) = 254%nat
  /\ last (removelast
             (signals (gui_sweep (scenario [] (seq 0 254) never)
                         "192.168.1.0/24" 50).2))
     = Some (update_progress 256 256)
  /\ head (stdout (scan_network (scenario [] [] never) "192.168.1.0/24" 50
                     (initial_world (ScanThread_init "" 1))).2)
     = Some (scan_started 256).
Proof. repeat split; vm_compute; reflexivity. Qed.

(** * Further properties of the sweeps *)

(** ** The probes a sweep submits *)

Lemma hosts_nonempty n : well_formed n -> ipaddress.hosts n <> [].
Proof.
  intros Hwf Hnil. pose proof (hosts_length n Hwf) as Hlen.
  rewrite Hnil in Hlen. cbn [length] in Hlen.
  destruct Hwf as (Hp & _).
  destruct (Z.eqb_spec (ipaddress.prefixlen n) 32); [lia|].
  destruct (Z.eqb_spec (ipaddress.prefixlen n) 31); [lia|].
  assert (2 ^ 2 <= 2 ^ (32 - ipaddress.prefixlen n))
    by (apply Z.pow_le_mono_r; lia).
  change (2 ^ 2) with 4 in *. lia.
Qed.

(** X1.  A sweep that nobody stops emits exactly one result signal per host
    address of the network: the result signals are the probes of the hosts
    permuted into completion order, so their addresses are the texts of the
    hosts, none twice and none missing, and each carries the answer of the
    probe for its address. *)
Theorem uncancelled_sweep_one_result_per_host env s mw n :
  ipaddress.ip_network s = Return n ->
  0 < mw ->
  each_once (completion_order env) (length (ipaddress.hosts n)) ->
  (forall k, stop_calls env k = 0%nat) ->
  result_events (signals (gui_sweep env s mw).2)
    ≡ₚ probe env <$> ipaddress.hosts n
  /\ NoDup (fst <$> result_events (signals (gui_sweep env s mw).2))
  /\ list_to_set (fst <$> result_events (signals (gui_sweep env s mw).2))
     =@{gset string} list_to_set (ipaddress.str <$> ipaddress.hosts n)
  /\ length (result_events (signals (gui_sweep env s mw).2))
     = length (ipaddress.hosts n).
Proof.
  intros Hn Hmw Horder Hnone.
  destruct (gui_sweep_uncancelled env s mw n Hn Hmw Horder Hnone)
    as (elapsed & w' & -> & Hsig & _).
  cbn [snd]. rewrite Hsig, result_events_sweep.
  assert (outcomes env (ipaddress.hosts n) (completion_order env)
          ≡ₚ probe env <$> ipaddress.hosts n) as Hperm.
  { rewrite <- outcomes_seq. unfold outcomes. by apply omap_Permutation. }
  split; [done|]. split; [by eapply taken_results_NoDup|]. split.
  - apply list_to_set_perm_L. rewrite Hperm, <- list_fmap_compose. done.
  - by rewrite Hperm, length_fmap.
Qed.

Lemma uncancelled_sweep_one_result_per_host_witness :
  result_events (signals (gui_sweep shuffled_29 "10.0.0.0/29" 50).2)
    ≡ₚ probe shuffled_29 <$> ipaddress.hosts net_10_0_0_0_29
  /\ NoDup (fst <$> result_events
                      (signals (gui_sweep shuffled_29 "10.0.0.0/29" 50).2))
  /\ list_to_set
       (fst <$> result_events
                  (signals (gui_sweep shuffled_29 "10.0.0.0/29" 50).2))
     =@{gset string}
     list_to_set (ipaddress.str <$> ipaddress.hosts net_10_0_0_0_29)
  /\ length (result_events
               (signals (gui_sweep shuffled_29 "10.0.0.0/29" 50).2))
     = length (ipaddress.hosts net_10_0_0_0_29).
Proof.
  apply (uncancelled_sweep_one_result_per_host shuffled_29 "10.0.0.0/29" 50
           net_10_0_0_0_29).
  - reflexivity.
  - lia.
  - apply each_once_check. vm_compute. reflexivity.
  - intros k. reflexivity.
Defined.

(** X2.  Whatever the calls of [stop], a sweep over a valid network hands
    the pool exactly one probe per host address, in ascending address
    order: every submitted address lies in the block, none is submitted
    twice, and below /31 the network address and the broadcast address are
    never probed. *)
Theorem sweep_submits_each_host_once env s mw n :
  ipaddress.ip_network s = Return n ->
  0 < mw ->
  each_once (completion_order env) (length (ipaddress.hosts n)) ->
  submitted (gui_sweep env s mw).2 = ipaddress.hosts n
  /\ StronglySorted Z.lt (submitted (gui_sweep env s mw).2)
  /\ NoDup (submitted (gui_sweep env s mw).2)
  /\ (forall ip, ip ∈ submitted (gui_sweep env s mw).2 ->
        ipaddress.network_address n <= ip <= ipaddress.broadcast_address n)
  /\ (ipaddress.prefixlen n <= 30 ->
      (ipaddress.network_address n ∉ submitted (gui_sweep env s mw).2)
      /\ (ipaddress.broadcast_address n ∉ submitted (gui_sweep env s mw).2)).
Proof.
  intros Hn Hmw Horder.
  pose proof (ip_network_well_formed s n Hn) as Hwf.
  destruct (gui_sweep_shape env s mw n Hn Hmw Horder)
    as (fs & running & elapsed & w' & -> & _ & _ & Hsub & _).
  cbn [snd]. rewrite Hsub. split; [done|].
  split; [by apply hosts_sorted|]. split; [by apply hosts_NoDup|].
  split; [intros ip; by apply hosts_in_block|].
  intros Hp. split; rewrite (elem_of_hosts n _ Hp); lia.
Qed.

Lemma sweep_submits_each_host_once_witness :
  submitted (gui_sweep cancelled_29 "10.0.0.0/29" 1).2
  = ipaddress.hosts net_10_0_0_0_29
  /\ StronglySorted Z.lt (submitted (gui_sweep cancelled_29 "10.0.0.0/29" 1).2)
  /\ NoDup (submitted (gui_sweep cancelled_29 "10.0.0.0/29" 1).2)
  /\ (forall ip, ip ∈ submitted (gui_sweep cancelled_29 "10.0.0.0/29" 1).2 ->
        ipaddress.network_address net_10_0_0_0_29 <= ip
        <= ipaddress.broadcast_address net_10_0_0_0_29)
  /\ (ipaddress.prefixlen net_10_0_0_0_29 <= 30 ->
      (ipaddress.network_address net_10_0_0_0_29
         ∉ submitted (gui_sweep cancelled_29 "10.0.0.0/29" 1).2)
      /\ (ipaddress.broadcast_address net_10_0_0_0_29
            ∉ submitted (gui_sweep cancelled_29 "10.0.0.0/29" 1).2)).
Proof.
  apply (sweep_submits_each_host_once cancelled_29 "10.0.0.0/29" 1
           net_10_0_0_0_29).
  - reflexivity.
  - lia.
  - apply each_once_check. vm_compute. reflexivity.
Defined.

(** ** The progress a sweep reports *)

Lemma progress_events_app s1 s2 :
  progress_events (s1 ++ s2) = progress_events s1 ++ progress_events s2.
Proof. apply omap_app. Qed.

Lemma progress_events_loop total rs : forall p,
  progress_events (loop_signals total rs p)
  = (fun i => (p + Z.of_nat i, total)) <$> seq 1 (length rs).
Proof.
  induction rs as [|[ip b] rs IH]; intros p; [done|].
  cbn [loop_signals length seq progress_events omap list_omap].
  fold (progress_events (loop_signals total rs (p + 1))).
  rewrite IH, <- (fmap_S_seq 1). rewrite fmap_cons, <- list_fmap_compose.
  replace (p + Z.of_nat 1) with (p + 1) by lia. f_equal.
  apply list_fmap_ext. intros _ i _. cbn. f_equal. lia.
Qed.

(** X3.  In every sweep over a valid network the loop reports progress once
    per result, counting 1, 2, 3, ... against the same total; the count
    never exceeds the number of hosts nor the total; one closing report
    [(total, total)] follows exactly when the cancellation flag is still set
    at the end of the sweep. *)
Theorem progress_counts_results env s mw n :
  ipaddress.ip_network s = Return n ->
  0 < mw ->
  each_once (completion_order env) (length (ipaddress.hosts n)) ->
  let w' := (gui_sweep env s mw).2 in
  let k := length (result_events (signals w')) in
  progress_events (signals w')
  = ((fun i => (Z.of_nat i, ipaddress.num_addresses n)) <$> seq 1 k)
    ++ (if is_running (thread w')
        then [(ipaddress.num_addresses n, ipaddress.num_addresses n)]
        else [])
  /\ (k <= length (ipaddress.hosts n))%nat
  /\ Z.of_nat k <= ipaddress.num_addresses n.
Proof.
  intros Hn Hmw Horder.
  pose proof (ip_network_well_formed s n Hn) as Hwf.
  destruct (gui_sweep_shape env s mw n Hn Hmw Horder)
    as (fs & running & elapsed & w' & -> & Hpre & Hsig & _ & Hrun & _).
  cbn [snd]. cbn zeta. rewrite Hsig, Hrun, result_events_sweep.
  unfold sweep_signals.
  rewrite !progress_events_app, progress_events_loop.
  pose proof (outcomes_length env (ipaddress.hosts n) fs) as Hlen.
  pose proof (prefix_length _ _ Hpre) as Hlen2.
  rewrite (each_once_length _ _ Horder) in Hlen2.
  pose proof (hosts_length_le n Hwf) as Htot.
  split; [|lia].
  f_equal. by destruct running.
Qed.

Lemma progress_counts_results_witness :
  let w' := (gui_sweep cancelled_29 "10.0.0.0/29" 1).2 in
  let k := length (result_events (signals w')) in
  progress_events (signals w')
  = ((fun i => (Z.of_nat i, ipaddress.num_addresses net_10_0_0_0_29))
       <$> seq 1 k)
    ++ (if is_running (thread w')
        then [(ipaddress.num_addresses net_10_0_0_0_29,
               ipaddress.num_addresses net_10_0_0_0_29)]
        else [])
  /\ (k <= length (ipaddress.hosts net_10_0_0_0_29))%nat
  /\ Z.of_nat k <= ipaddress.num_addresses net_10_0_0_0_29.
Proof.
  apply (progress_counts_results cancelled_29 "10.0.0.0/29" 1 net_10_0_0_0_29).
  - reflexivity.
  - lia.
  - apply each_once_check. vm_compute. reflexivity.
Defined.

(** ** A thread object stopped before its sweep *)

Lemma stop_fixed t : is_running t = false -> stop t = t.
Proof. destruct t as [nw mw []]; [done|]. reflexivity. Qed.

Lemma iter_stop_fixed m t : is_running t = false -> Nat.iter m stop t = t.
Proof.
  intros Ht. destruct m as [|m]; [done|]. rewrite iter_stop_S.
  by apply stop_fixed.
Qed.

Lemma taken_stopped env futures t r :
  is_running t = false ->
  (taken env t r futures).1 = [] /\ (taken env t r futures).2.1 = t.
Proof.
  intros Ht. destruct futures as [|f rest]; [done|]. cbn [taken].
  rewrite iter_stop_fixed by done. by rewrite Ht.
Qed.

(** X4.  [run] never sets the cancellation flag again.  On a thread object
    on which [stop] was called before [run] began, the sweep over a valid
    network still submits every probe, takes no result, and emits a single
    signal: [scan_complete] with an empty list. *)
Theorem stopped_thread_takes_nothing env w n :
  ipaddress.ip_network (network (thread w)) = Return n ->
  0 < max_workers (thread w) ->
  each_once (completion_order env) (length (ipaddress.hosts n)) ->
  is_running (thread w) = false ->
  exists elapsed w',
    run env w = (Return tt, w')
    /\ signals w' = signals w ++ [scan_complete [] elapsed]
    /\ submitted w' = ipaddress.hosts n
    /\ thread w' = thread w.
Proof.
  intros Hn Hmw Horder Hstopped.
  rewrite (run_eq env w n); [|done..|intros f Hf; by eapply each_once_bound].
  destruct (taken_stopped env (completion_order env) (thread w)
              (flag_reads w) Hstopped) as [Hfs Ht].
  destruct (taken env _ _ _) as [fs [t' r']]. cbn in Hfs, Ht. subst fs t'.
  cbn zeta. rewrite iter_stop_fixed by done. rewrite Hstopped.
  eexists _, _. split; [reflexivity|]. cbn. by repeat split.
Qed.

Lemma stopped_thread_takes_nothing_witness :
  exists elapsed w',
    run unreachable_30 stopped_30 = (Return tt, w')
    /\ signals w' = signals stopped_30 ++ [scan_complete [] elapsed]
    /\ submitted w' = ipaddress.hosts net_10_0_0_0_30
    /\ thread w' = thread stopped_30.
Proof.
  apply (stopped_thread_takes_nothing unreachable_30 stopped_30
           net_10_0_0_0_30).
  - reflexivity.
  - vm_compute. reflexivity.
  - apply each_once_check. vm_compute. reflexivity.
  - reflexivity.
Defined.

(** ** A worker count that is not positive *)

(** X5.  With a worker count of 0 or less no sweep takes place on a valid
    network: the pool cannot be created.  [run] has read the clock once,
    prints the error, emits no signal and submits nothing; [scan_network]
    has printed its opening line and read the clock once, and fails with
    [ValueError] without submitting anything. *)
Theorem no_workers_no_sweep env s mw n w :
  ipaddress.ip_network s = Return n ->
  mw <= 0 ->
  gui_sweep env s mw
  = (Return tt,
     mkWorld (ScanThread_init s mw) 0 1 [] [scan_error ValueError] [])
  /\ scan_network env s mw w
     = (Raise ValueError,
        mkWorld (thread w) (flag_reads w) (S (clock_reads w)) (signals w)
                (stdout w ++ [scan_started (ipaddress.num_addresses n)])
                (submitted w)).
Proof.
  intros Hn Hmw. split.
  - unfold gui_sweep, run, try_except, mbind, M_bind, get_self, lift, now,
      ThreadPoolExecutor.
    cbn [initial_world thread network max_workers ScanThread_init].
    rewrite Hn. cbn [clock_reads]. destruct (Z.leb_spec mw 0); [done|lia].
  - unfold scan_network, mbind, M_bind, lift, print, now, ThreadPoolExecutor.
    rewrite Hn. destruct (Z.leb_spec mw 0); [done|lia].
Qed.

Lemma no_workers_no_sweep_witness :
  gui_sweep unreachable_30 "10.0.0.0/30" 0
  = (Return tt,
     mkWorld (ScanThread_init "10.0.0.0/30" 0) 0 1 []
             [scan_error ValueError] [])
  /\ scan_network unreachable_30 "10.0.0.0/30" 0 stopped_30
     = (Raise ValueError,
        mkWorld (thread stopped_30) (flag_reads stopped_30)
                (S (clock_reads stopped_30)) (signals stopped_30)
                (stdout stopped_30
                 ++ [scan_started (ipaddress.num_addresses net_10_0_0_0_30)])
                (submitted stopped_30)).
Proof.
  apply (no_workers_no_sweep unreachable_30 "10.0.0.0/30" 0 net_10_0_0_0_30).
  - reflexivity.
  - lia.
Defined.

(** ** What the batch sweep returns and prints *)

Lemma sorted_filter (P : Z -> Prop) `{!forall x, Decision (P x)} (l : list Z) :
  StronglySorted Z.lt l -> StronglySorted Z.lt (filter P l).
Proof.
  induction 1 as [|x l _ IH Hall]; [constructor|].
  rewrite filter_cons. destruct (decide (P x)); [|done].
  constructor; [done|].
  apply Forall_forall. intros y [_ Hy]%list_elem_of_filter.
  rewrite Forall_forall in Hall. by apply Hall.
Qed.

Lemma found_lines_app o1 o2 :
  found_lines (o1 ++ o2) = found_lines o1 ++ found_lines o2.
Proof. apply omap_app. Qed.

Lemma progress_lines_app o1 o2 :
  progress_lines (o1 ++ o2) = progress_lines o1 ++ progress_lines o2.
Proof. apply omap_app. Qed.

Lemma printed_counts_S total p k :
  printed_counts total p (S k)
  = (if decide ((p + 1) mod 10 = 0 \/ p + 1 = total) then [p + 1] else [])
    ++ printed_counts total (p + 1) k.
Proof.
  unfold printed_counts. cbn [seq]. rewrite fmap_cons, filter_cons.
  replace (p + Z.of_nat 1) with (p + 1) by lia.
  rewrite <- (fmap_S_seq 1), <- list_fmap_compose.
  assert ((fun j => p + Z.of_nat j) ∘ S <$> seq 1 k
          = (fun j => p + 1 + Z.of_nat j) <$> seq 1 k) as ->.
  { apply list_fmap_ext. intros _ j _. cbn. lia. }
  by destruct (decide _).
Qed.

Lemma printed_counts_range total p k q :
  q ∈ printed_counts total p k ->
  p < q <= p + Z.of_nat k /\ (q mod 10 = 0 \/ q = total).
Proof.
  unfold printed_counts.
  intros [Hq (j & -> & Hj%elem_of_seq)%list_elem_of_fmap]%list_elem_of_filter.
  split; [lia|done].
Qed.

(** The progress test of the batch loop, as a proposition. *)
Lemma progress_test_spec p total :
  ((p mod 10 =? 0) || (p =? total))%bool = true <-> p mod 10 = 0 \/ p = total.
Proof. rewrite orb_true_iff, !Z.eqb_eq. done. Qed.

(** One round of the batch loop. *)
Lemma batch_loop_cons env n total start_time i f rest active_ips processed w ip :
  ipaddress.hosts n !! i = Some ip ->
  submitted w !! f = Some ip ->
  batch_loop env n total start_time i (f :: rest) active_ips processed w
  = batch_loop env n total start_time (S i) rest
      (if alive env ip then active_ips ++ [ipaddress.str ip] else active_ips)
      (processed + 1)
      (printed
         ((if alive env ip then [found_active (ipaddress.str ip)] else [])
          ++ (if ((processed + 1) mod 10 =? 0) || (processed + 1 =? total)
              then [progress_line (processed + 1) total
                      (PrimFloat.sub (time_time env (clock_reads w))
                                     start_time)]
              else []))
         (if ((processed + 1) mod 10 =? 0) || (processed + 1 =? total)
          then 1 else 0)
         w).
Proof.
  intros Hip Hpool. cbn [batch_loop].
  unfold mbind at 1. unfold M_bind at 1. unfold list_getitem, lift at 1.
  rewrite Hip.
  unfold mbind at 1. unfold M_bind at 1. unfold future_result at 1.
  rewrite Hpool, ping_alive.
  destruct w as [t r c sg out sub]. unfold printed. cbn [thread flag_reads
    clock_reads signals stdout submitted].
  destruct (alive env ip),
    (((processed + 1) mod 10 =? 0) || (processed + 1 =? total));
    unfold mbind, M_bind, print, now, mret, M_ret;
    cbn [thread flag_reads clock_reads signals stdout submitted];
    rewrite <- ?app_assoc, ?app_nil_r, ?Nat.add_0_r, ?Nat.add_1_r;
    reflexivity.
Qed.

Lemma printed_same_state out reads w : same_sweep_state w (printed out reads w).
Proof. by repeat split. Qed.

(** The batch loop in full: its result, the state it leaves alone, and the
    lines it prints. *)
Lemma batch_loop_output env n total start_time k :
  forall i active_ips processed w,
  submitted w = ipaddress.hosts n ->
  (i + k <= length (ipaddress.hosts n))%nat ->
  exists w' out,
    batch_loop env n total start_time i (seq i k) active_ips processed w
    = (Return (active_ips
               ++ live (probe env <$> take k (drop i (ipaddress.hosts n))),
               processed + Z.of_nat k), w')
    /\ same_sweep_state w w'
    /\ stdout w' = stdout w ++ out
    /\ found_lines out
       = live (probe env <$> take k (drop i (ipaddress.hosts n)))
    /\ progress_lines out
       = (fun q => (q, total)) <$> printed_counts total processed k
    /\ clock_reads w'
       = (clock_reads w + length (printed_counts total processed k))%nat.
Proof.
  induction k as [|k IH]; intros i act p w Hpool Hik.
  - exists w, []. cbn. rewrite !app_nil_r, Z.add_0_r, Nat.add_0_r.
    by repeat split.
  - destruct (lookup_lt_is_Some_2 (ipaddress.hosts n) i) as [ip Hip]; [lia|].
    cbn [seq]. rewrite (batch_loop_cons env n total start_time i i _ act p w ip)
      by (by rewrite ?Hpool).
    rewrite (drop_S _ _ _ Hip). cbn [take fmap list_fmap].
    change (probe env ip) with (ipaddress.str ip, alive env ip).
    rewrite !live_cons, printed_counts_S.
    pose proof (progress_test_spec (p + 1) total) as Htest.
    match goal with
    | |- exists w' out, batch_loop _ _ _ _ _ _ ?a _ (printed ?o ?c w) = _ /\ _ =>
        destruct (IH (S i) a (p + 1) (printed o c w) Hpool ltac:(lia))
          as (w' & out & Heq & Hs & Hout & Hf & Hp & Hc);
        exists w', (o ++ out)
    end.
    rewrite Heq. split; [|split; [|split; [|split; [|split]]]].
    + replace (p + 1 + Z.of_nat k) with (p + Z.of_nat (S k)) by lia.
      by destruct (alive env ip); rewrite <- ?app_assoc.
    + destruct Hs as (H5 & H6 & H7 & H8). by repeat split.
    + rewrite Hout. cbn [printed stdout]. by rewrite <- !app_assoc.
    + rewrite !found_lines_app, Hf.
      by destruct (alive env ip),
           (((p + 1) mod 10 =? 0) || (p + 1 =? total)).
    + rewrite !progress_lines_app, Hp, fmap_app.
      destruct (alive env ip),
        (((p + 1) mod 10 =? 0) || (p + 1 =? total)) eqn:Hcond;
        destruct (decide _) as [Hd|Hd]; try done;
        solve [apply Htest in Hd; congruence
              |exfalso; apply Hd, Htest; reflexivity].
    + rewrite Hc. cbn [printed clock_reads]. rewrite length_app.
      destruct (((p + 1) mod 10 =? 0) || (p + 1 =? total)) eqn:Hcond;
        destruct (decide _) as [Hd|Hd]; cbn; try lia;
        solve [apply Htest in Hd; congruence
              |exfalso; apply Hd, Htest; reflexivity].
Qed.

Lemma scan_network_output env s mw w n :
  ipaddress.ip_network s = Return n ->
  0 < mw ->
  let total := ipaddress.num_addresses n in
  let l := ipaddress.str
             <$> filter (fun ip => alive env ip = true) (ipaddress.hosts n) in
  exists w' out elapsed,
    scan_network env s mw w = (Return l, w')
    /\ thread w' = thread w /\ signals w' = signals w
    /\ submitted w' = ipaddress.hosts n
    /\ stdout w'
       = stdout w ++ [scan_started total] ++ out
         ++ [scan_finished (length l) elapsed]
    /\ found_lines out = l
    /\ progress_lines out
       = (fun q => (q, total))
           <$> printed_counts total 0 (length (ipaddress.hosts n)).
Proof.
  intros Hn Hmw total l. unfold scan_network.
  unfold mbind at 1. unfold M_bind at 1. unfold lift at 1. rewrite Hn.
  unfold mbind at 1. unfold M_bind at 1. unfold print at 1.
  unfold mbind at 1. unfold M_bind at 1. unfold now at 1.
  unfold mbind at 1. unfold M_bind at 1. unfold ThreadPoolExecutor at 1.
  destruct (Z.leb_spec mw 0); [lia|].
  unfold mbind at 1. unfold M_bind at 1. rewrite submit_each_eq.
  cbn [thread flag_reads clock_reads signals stdout submitted length app].
  unfold mbind at 1. unfold M_bind at 1.
  match goal with
  | |- context [batch_loop env n ?tot ?t0 0 _ [] 0 ?W] =>
      destruct (batch_loop_output env n tot t0 (length (ipaddress.hosts n))
                  0%nat [] 0 W)
        as (w1 & out & Heq & (Hth & _ & Hsig & Hsub) & Hout & Hf & Hp & _);
        [done|lia|]
  end.
  rewrite Heq. rewrite drop_0, firstn_all, live_probe in *. cbn [app].
  unfold mbind, M_bind, now, print, mret, M_ret.
  eexists _, out, _. split; [reflexivity|].
  cbn [thread flag_reads clock_reads signals stdout submitted] in *.
  rewrite Hth, Hsig, Hsub, Hout. repeat split; try done.
  by rewrite <- !app_assoc.
Qed.

(** X6.  On a valid network with a positive worker count the batch sweep
    returns the texts of the hosts whose probe answered, in ascending
    address order and without duplicates, whatever the order in which the
    probes complete; it submits one probe per host, emits no signal and
    leaves the thread object alone. *)
Theorem scan_network_returns_live_hosts_ascending env s mw w n :
  ipaddress.ip_network s = Return n ->
  0 < mw ->
  let addrs := filter (fun ip => alive env ip = true) (ipaddress.hosts n) in
  (scan_network env s mw w).1 = Return (ipaddress.str <$> addrs)
  /\ StronglySorted Z.lt addrs
  /\ NoDup (ipaddress.str <$> addrs)
  /\ (forall a, a ∈ addrs <-> a ∈ ipaddress.hosts n /\ alive env a = true)
  /\ submitted (scan_network env s mw w).2 = ipaddress.hosts n
  /\ signals (scan_network env s mw w).2 = signals w
  /\ thread (scan_network env s mw w).2 = thread w.
Proof.
  intros Hn Hmw addrs.
  pose proof (ip_network_well_formed s n Hn) as Hwf.
  destruct (scan_network_output env s mw w n Hn Hmw)
    as (w' & out & elapsed & -> & Hth & Hsig & Hsub & _).
  cbn [fst snd]. split; [done|].
  split; [apply sorted_filter; by apply hosts_sorted|]. split.
  - apply NoDup_fmap_2_strong; [|apply NoDup_filter; by apply hosts_NoDup].
    intros x y [_ Hx]%list_elem_of_filter [_ Hy]%list_elem_of_filter.
    apply str_inj; by eapply hosts_32bit.
  - split; [|done]. intros a. unfold addrs. rewrite list_elem_of_filter. tauto.
Qed.

Lemma scan_network_returns_live_hosts_ascending_witness :
  let addrs := filter (fun ip => alive shuffled_29 ip = true)
                      (ipaddress.hosts net_10_0_0_0_29) in
  (scan_network shuffled_29 "10.0.0.0/29" 4 stopped_30).1
  = Return (ipaddress.str <$> addrs)
  /\ StronglySorted Z.lt addrs
  /\ NoDup (ipaddress.str <$> addrs)
  /\ (forall a, a ∈ addrs
                <-> a ∈ ipaddress.hosts net_10_0_0_0_29
                    /\ alive shuffled_29 a = true)
  /\ submitted (scan_network shuffled_29 "10.0.0.0/29" 4 stopped_30).2
     = ipaddress.hosts net_10_0_0_0_29
  /\ signals (scan_network shuffled_29 "10.0.0.0/29" 4 stopped_30).2
     = signals stopped_30
  /\ thread (scan_network shuffled_29 "10.0.0.0/29" 4 stopped_30).2
     = thread stopped_30.
Proof.
  apply (scan_network_returns_live_hosts_ascending shuffled_29 "10.0.0.0/29"
           4 stopped_30 net_10_0_0_0_29).
  - reflexivity.
  - lia.
Defined.

(** X7.  What the batch sweep prints on a valid network with a positive
    worker count: the opening line with the total, then one "found" line
    per address of the returned list, in its order, interleaved with one
    progress line for each processed count that is a multiple of 10 or
    equals the total, then the closing line with the length of the list.
    Below /31 the processed count never equals the total, so no progress
    line reports the sweep as complete. *)
Theorem scan_network_prints env s mw w n :
  ipaddress.ip_network s = Return n ->
  0 < mw ->
  let total := ipaddress.num_addresses n in
  exists l out elapsed,
    (scan_network env s mw w).1 = Return l
    /\ stdout (scan_network env s mw w).2
       = stdout w ++ [scan_started total] ++ out
         ++ [scan_finished (length l) elapsed]
    /\ found_lines out = l
    /\ progress_lines out
       = (fun q => (q, total))
           <$> printed_counts total 0 (length (ipaddress.hosts n))
    /\ (ipaddress.prefixlen n <= 30 ->
        forall q t, (q, t) ∈ progress_lines out -> q mod 10 = 0 /\ q < t).
Proof.
  intros Hn Hmw total.
  pose proof (ip_network_well_formed s n Hn) as Hwf.
  destruct (scan_network_output env s mw w n Hn Hmw)
    as (w' & out & elapsed & -> & _ & _ & _ & Hout & Hf & Hp).
  cbn [fst snd]. eexists _, out, elapsed.
  split; [reflexivity|]. split; [exact Hout|]. split; [exact Hf|].
  split; [exact Hp|].
  intros Hpre q t. rewrite Hp.
  intros (q' & [= -> ->] & Hq%printed_counts_range)%list_elem_of_fmap.
  pose proof (total_exceeds_hosts_by_two n Hwf Hpre). fold total in H.
  destruct Hq as [Hrange [Hmod|Heq]]; [split; [done|lia]|lia].
Qed.

Lemma scan_network_prints_witness :
  let total := ipaddress.num_addresses net_192_168_1_0_24 in
  exists l out elapsed,
    (scan_network unreachable_30 "192.168.1.0/24" 50 stopped_30).1 = Return l
    /\ stdout (scan_network unreachable_30 "192.168.1.0/24" 50 stopped_30).2
       = stdout stopped_30 ++ [scan_started total] ++ out
         ++ [scan_finished (length l) elapsed]
    /\ found_lines out = l
    /\ progress_lines out
       = (fun q => (q, total))
           <$> printed_counts total 0
                 (length (ipaddress.hosts net_192_168_1_0_24))
    /\ (ipaddress.prefixlen net_192_168_1_0_24 <= 30 ->
        forall q t, (q, t) ∈ progress_lines out -> q mod 10 = 0 /\ q < t).
Proof.
  apply (scan_network_prints unreachable_30 "192.168.1.0/24" 50 stopped_30
           net_192_168_1_0_24).
  - reflexivity.
  - lia.
Defined.

(** * Properties of the command line *)

(** ** Texts and files *)

Lemma append_cons c (s1 s2 : string) : String c s1 +:+ s2 = String c (s1 +:+ s2).
Proof. reflexivity. Qed.

Lemma append_assoc (s1 s2 s3 : string) : (s1 +:+ s2) +:+ s3 = s1 +:+ (s2 +:+ s3).
Proof.
  induction s1 as [|c s1 IH]; [done|]. by rewrite !append_cons, IH.
Qed.

Lemma append_nil_r (s : string) : s +:+ EmptyString = s.
Proof. induction s as [|c s IH]; [done|]. by rewrite append_cons, IH. Qed.

Lemma file_text_app l1 l2 : file_text (l1 ++ l2) = file_text l1 +:+ file_text l2.
Proof.
  induction l1 as [|ip l1 IH]; [done|].
  cbn [app file_text foldr]. fold (file_text (l1 ++ l2)). fold (file_text l1).
  rewrite IH, append_assoc. done.
Qed.

(** Reading the written text back line by line gives the list, and one
    empty text after the last line feed. *)
Lemma split_file_text l :
  Forall (fun ip => pystr.contains LF ip = false) l ->
  pystr.split LF (file_text l) = l ++ [EmptyString].
Proof.
  induction 1 as [|ip l Hip _ IH]; simpl; [done|].
  by rewrite split_app, IH.
Qed.

Lemma octet_values_one_line : forallb octet_one_line octet_values = true.
Proof. vm_compute. reflexivity. Qed.

Lemma str_one_line a : pystr.contains LF (ipaddress.str a) = false.
Proof.
  pose proof (to_bytes_octets a) as Hoct. unfold ipaddress.str.
  unfold ipaddress.to_bytes in *.
  set (b3 := Z.land (Z.shiftr a 24) 255) in *.
  set (b2 := Z.land (Z.shiftr a 16) 255) in *.
  set (b1 := Z.land (Z.shiftr a 8) 255) in *.
  set (b0 := Z.land a 255) in *.
  assert (forall b, 0 <= b <= 255 -> pystr.contains LF (pystr.of_int b) = false)
    as Hone.
  { intros b Hb%octet_elem%list_elem_of_In.
    pose proof (proj1 (forallb_forall _ _) octet_values_one_line b Hb) as Hok.
    by apply negb_true_iff in Hok. }
  apply Forall_cons in Hoct as [H3 Hoct]. apply Forall_cons in Hoct as [H2 Hoct].
  apply Forall_cons in Hoct as [H1 Hoct]. apply Forall_cons in Hoct as [H0 _].
  cbn [fmap list_fmap pystr.join]. rewrite !append_single.
  rewrite !contains_app. cbn [pystr.contains]. rewrite !contains_app.
  cbn [pystr.contains]. rewrite !contains_app. cbn [pystr.contains].
  by rewrite (Hone b3 H3), (Hone b2 H2), (Hone b1 H1), (Hone b0 H0).
Qed.

Lemma write_each_eq path l p c :
  files p !! path = Some c ->
  write_each path l p
  = (Return tt,
     mkProcess (sweep p) (console p)
               (<[path := c +:+ file_text l]> (files p))).
Proof.
  revert p c. induction l as [|ip l IH]; intros p c Hc.
  - cbn. rewrite append_nil_r, insert_id by done. by destruct p.
  - cbn [write_each]. unfold mbind at 1. unfold P_bind at 1. unfold write.
    rewrite Hc. cbn [default].
    erewrite IH by (cbn [files]; apply lookup_insert_eq).
    cbn [sweep console files file_text foldr]. rewrite insert_insert_eq.
    by rewrite !append_assoc.
Qed.

Lemma print_each_eq l p :
  print_each l p
  = (Return tt, mkProcess (sweep p) (console p ++ (listed <$> l)) (files p)).
Proof.
  revert p. induction l as [|ip l IH]; intros p.
  - cbn. rewrite app_nil_r. by destruct p.
  - cbn [print_each]. unfold mbind at 1. unfold P_bind at 1. unfold print_main.
    rewrite IH. cbn [sweep console files fmap list_fmap].
    by rewrite <- app_assoc.
Qed.

(** ** The sweep inside [main] *)

Lemma main_after_sweep env open_error args p l w' :
  scan_network env (argparse.network args) (argparse.workers args) (sweep p)
  = (Return l, w') ->
  main env open_error args p
  = match truthy (argparse.output args) with
    | None =>
        (Return tt,
         mkProcess w' (console p ++ [list_header] ++ (listed <$> l)) (files p))
    | Some path =>
        match open_error path with
        | None =>
            (Return tt,
             mkProcess w'
               (console p ++ [saved_to path; list_header] ++ (listed <$> l))
               (<[path := file_text l]> (files p)))
        | Some e =>
            if is_ValueError e
            then (Return tt,
                  mkProcess w' (console p ++ [error_line e]) (files p))
            else (Raise e, mkProcess w' (console p) (files p))
        end
    end.
Proof.
  intros Hsweep. unfold main, try_except_ValueError.
  unfold mbind at 1. unfold P_bind at 1. unfold in_sweep at 1.
  rewrite Hsweep. destruct (truthy (argparse.output args)) as [path|].
  - unfold mbind at 1. unfold P_bind at 1.
    unfold mbind at 1. unfold P_bind at 1. unfold open_w at 1.
    cbn [sweep console files]. destruct (open_error path) as [e|].
    { by destruct (is_ValueError e). }
    unfold mbind at 1. unfold P_bind at 1.
    erewrite write_each_eq by (cbn [files]; apply lookup_insert_eq).
    unfold print_main at 1. cbn [sweep console files].
    unfold mbind, P_bind, print_main. rewrite print_each_eq.
    cbn [sweep console files]. rewrite insert_insert_eq.
    by rewrite <- !app_assoc.
  - unfold mbind, P_bind, mret, P_ret, print_main. rewrite print_each_eq.
    cbn [sweep console files]. by rewrite <- !app_assoc.
Qed.

Lemma main_after_failure env open_error args p w' :
  scan_network env (argparse.network args) (argparse.workers args) (sweep p)
  = (Raise ValueError, w') ->
  main env open_error args p
  = (Return tt, mkProcess w' (console p ++ [error_line ValueError]) (files p)).
Proof.
  intros Hsweep. unfold main, try_except_ValueError.
  unfold mbind at 1. unfold P_bind at 1. unfold in_sweep at 1.
  by rewrite Hsweep.
Qed.

Lemma scan_network_invalid env s mw w e :
  ipaddress.ip_network s = Raise e ->
  scan_network env s mw w = (Raise ValueError, w).
Proof.
  intros He. pose proof (ip_network_raises s e He) as ->.
  unfold scan_network, mbind, M_bind, lift. by rewrite He.
Qed.

Lemma scan_network_no_workers env s mw w n :
  ipaddress.ip_network s = Return n ->
  mw <= 0 ->
  scan_network env s mw w
  = (Raise ValueError,
     mkWorld (thread w) (flag_reads w) (S (clock_reads w)) (signals w)
             (stdout w ++ [scan_started (ipaddress.num_addresses n)])
             (submitted w)).
Proof.
  intros Hn Hmw.
  unfold scan_network, mbind, M_bind, lift, print, now, ThreadPoolExecutor.
  rewrite Hn. destruct (Z.leb_spec mw 0); [done|lia].
Qed.

Lemma truthy_Some path :
  path <> EmptyString -> truthy (Some path) = Some path.
Proof. by destruct path. Qed.

(** X8.  [main] with an output file that can be opened, on a valid network
    with a positive worker count: the file holds the live hosts of the sweep
    and nothing else, one per line in the order of the returned list, so
    that splitting its text at the line feeds gives the list back (and an
    empty text after the last line feed); whatever the file held before is
    gone and no other file is touched; [main] then prints the list again. *)
Theorem main_saves_live_hosts env open_error args p n path :
  ipaddress.ip_network (argparse.network args) = Return n ->
  0 < argparse.workers args ->
  argparse.output args = Some path ->
  path <> EmptyString ->
  open_error path = None ->
  let l := ipaddress.str
             <$> filter (fun ip => alive env ip = true) (ipaddress.hosts n) in
  exists w',
    scan_network env (argparse.network args) (argparse.workers args) (sweep p)
    = (Return l, w')
    /\ main env open_error args p
       = (Return tt,
          mkProcess w'
            (console p ++ [saved_to path; list_header] ++ (listed <$> l))
            (<[path := file_text l]> (files p)))
    /\ pystr.split LF (file_text l) = l ++ [EmptyString].
Proof.
  intros Hn Hmw Hout Hpath Hopen l.
  destruct (scan_network_eq env _ _ (sweep p) n Hn Hmw) as (w' & Hsweep & _).
  exists w'. split; [exact Hsweep|]. split.
  - rewrite (main_after_sweep _ _ _ _ _ _ Hsweep), Hout, truthy_Some by done.
    by rewrite Hopen.
  - apply split_file_text, Forall_fmap, Forall_forall.
    intros a _. apply str_one_line.
Qed.

Lemma main_saves_live_hosts_witness :
  let args := argparse.mkNamespace "10.0.0.0/29" 4 (Some "live.txt") in
  let l := ipaddress.str
             <$> filter (fun ip => alive shuffled_29 ip = true)
                        (ipaddress.hosts net_10_0_0_0_29) in
  exists w',
    scan_network shuffled_29 (argparse.network args) (argparse.workers args)
                 (sweep fresh_process)
    = (Return l, w')
    /\ main shuffled_29 writable args fresh_process
       = (Return tt,
          mkProcess w'
            (console fresh_process
             ++ [saved_to "live.txt"; list_header] ++ (listed <$> l))
            (<[ "live.txt" := file_text l]> (files fresh_process)))
    /\ pystr.split LF (file_text l) = l ++ [EmptyString].
Proof.
  apply (main_saves_live_hosts shuffled_29 writable
           (argparse.mkNamespace "10.0.0.0/29" 4 (Some "live.txt"))
           fresh_process net_10_0_0_0_29 "live.txt").
  - reflexivity.
  - cbn. lia.
  - reflexivity.
  - discriminate.
  - reflexivity.
Defined.

(** X9.  When the sweep cannot start, because the network text is invalid
    (no IPv4 network, and refused by the IPv6 constructor at its first
    check) or because the worker count given with an IPv4 network is not
    positive, [main] returns normally: it prints one error line and no list,
    submits no probe, and writes no file, also when an output file was asked
    for. *)
Theorem main_failed_sweep_writes_nothing env open_error args p e n :
  (ipaddress.ip_network (argparse.network args) = Raise e
   /\ ipaddress.IPv6Network_refuses (argparse.network args) = true)
  \/ (ipaddress.ip_network (argparse.network args) = Return n
      /\ argparse.workers args <= 0) ->
  exists w',
    main env open_error args p
    = (Return tt,
       mkProcess w' (console p ++ [error_line ValueError]) (files p))
    /\ submitted w' = submitted (sweep p)
    /\ signals w' = signals (sweep p)
    /\ found_lines (stdout w') = found_lines (stdout (sweep p)).
Proof.
  intros [[He _]|[Hn Hmw]].
  - exists (sweep p). split; [|done].
    apply main_after_failure. by eapply scan_network_invalid.
  - eexists. split.
    + apply main_after_failure. by apply scan_network_no_workers.
    + cbn [submitted signals stdout]. rewrite found_lines_app.
      cbn. by rewrite app_nil_r.
Qed.

Lemma main_failed_sweep_writes_nothing_witness :
  exists w',
    main unreachable_30 writable
         (argparse.mkNamespace "10.0.0.0/33" 50 (Some "live.txt"))
         fresh_process
    = (Return tt,
       mkProcess w' (console fresh_process ++ [error_line ValueError])
                 (files fresh_process))
    /\ submitted w' = submitted (sweep fresh_process)
    /\ signals w' = signals (sweep fresh_process)
    /\ found_lines (stdout w') = found_lines (stdout (sweep fresh_process)).
Proof.
  apply (main_failed_sweep_writes_nothing unreachable_30 writable
           (argparse.mkNamespace "10.0.0.0/33" 50 (Some "live.txt"))
           fresh_process ValueError net_10_0_0_0_30).
  left. split; vm_compute; reflexivity.
Defined.

(** X10.  An output file that cannot be opened: the sweep has already run to
    its end when [open] fails.  An error that is not a [ValueError] (any
    [OSError]) leaves [main] unhandled, and the list of live hosts is never
    printed; a [ValueError] is reported like an invalid network.  No file is
    written either way. *)
Theorem main_unwritable_output env open_error args p n path e :
  ipaddress.ip_network (argparse.network args) = Return n ->
  0 < argparse.workers args ->
  argparse.output args = Some path ->
  path <> EmptyString ->
  open_error path = Some e ->
  exists w',
    scan_network env (argparse.network args) (argparse.workers args) (sweep p)
    = (Return (ipaddress.str
                 <$> filter (fun ip => alive env ip = true)
                            (ipaddress.hosts n)),
       w')
    /\ submitted w' = ipaddress.hosts n
    /\ main env open_error args p
       = if is_ValueError e
         then (Return tt, mkProcess w' (console p ++ [error_line e]) (files p))
         else (Raise e, mkProcess w' (console p) (files p)).
Proof.
  intros Hn Hmw Hout Hpath Hopen.
  destruct (scan_network_eq env _ _ (sweep p) n Hn Hmw)
    as (w' & Hsweep & _ & _ & Hsub).
  exists w'. split; [exact Hsweep|]. split; [exact Hsub|].
  rewrite (main_after_sweep _ _ _ _ _ _ Hsweep), Hout, truthy_Some by done.
  by rewrite Hopen.
Qed.

Lemma main_unwritable_output_witness :
  exists w',
    scan_network shuffled_29 "10.0.0.0/29" 4 (sweep fresh_process)
    = (Return (ipaddress.str
                 <$> filter (fun ip => alive shuffled_29 ip = true)
                            (ipaddress.hosts net_10_0_0_0_29)),
       w')
    /\ submitted w' = ipaddress.hosts net_10_0_0_0_29
    /\ main shuffled_29 read_only
            (argparse.mkNamespace "10.0.0.0/29" 4 (Some "live.txt"))
            fresh_process
       = if is_ValueError OSError
         then (Return tt,
               mkProcess w' (console fresh_process ++ [error_line OSError])
                         (files fresh_process))
         else (Raise OSError,
               mkProcess w' (console fresh_process) (files fresh_process)).
Proof.
  apply (main_unwritable_output shuffled_29 read_only
           (argparse.mkNamespace "10.0.0.0/29" 4 (Some "live.txt"))
           fresh_process net_10_0_0_0_29 "live.txt" OSError).
  - reflexivity.
  - cbn. lia.
  - reflexivity.
  - discriminate.
  - reflexivity.
Defined.

Lemma main_no_output env open_error args p :
  truthy (argparse.output args) = None ->
  main env open_error args p
  = match scan_network env (argparse.network args) (argparse.workers args)
                       (sweep p) with
    | (Return l, w') =>
        (Return tt,
         mkProcess w' (console p ++ list_header :: (listed <$> l)) (files p))
    | (Raise e, w') =>
        if is_ValueError e
        then (Return tt, mkProcess w' (console p ++ [error_line e]) (files p))
        else (Raise e, mkProcess w' (console p) (files p))
    end.
Proof.
  intros Hout.
  destruct (scan_network env _ _ (sweep p)) as [[l|e] w'] eqn:Hsweep.
  - by rewrite (main_after_sweep _ _ _ _ _ _ Hsweep), Hout.
  - unfold main, try_except_ValueError.
    unfold mbind at 1. unfold P_bind at 1. unfold in_sweep at 1.
    rewrite Hsweep. by destruct (is_ValueError e).
Qed.

(** X11.  With [args.output] false ([-o] absent or given the empty text)
    [main] opens no file: the files are what they were, whatever the network
    text and the worker count and however [main] ends, and the file system
    has no say in the outcome.  When the sweep of an IPv4 network returns
    its list, what [main] prints after it is the header and that list, which
    repeats the addresses the sweep printed as found. *)
Theorem main_without_output_opens_no_file env open_error open_error' args p :
  truthy (argparse.output args) = None ->
  files (main env open_error args p).2 = files p
  /\ main env open_error args p = main env open_error' args p
  /\ (forall n l w',
        ipaddress.ip_network (argparse.network args) = Return n ->
        scan_network env (argparse.network args) (argparse.workers args)
                     (sweep p)
        = (Return l, w') ->
        console (main env open_error args p).2
        = console p ++ list_header :: (listed <$> l)
        /\ exists mid elapsed,
             stdout w'
             = stdout (sweep p) ++ [scan_started (ipaddress.num_addresses n)]
               ++ mid ++ [scan_finished (length l) elapsed]
             /\ found_lines mid = l).
Proof.
  intros Hout. rewrite !(main_no_output _ _ _ _ Hout).
  split; [|split; [done|]].
  - destruct (scan_network env _ _ (sweep p)) as [[l|e] w']; [done|].
    by destruct (is_ValueError e).
  - intros n l w' Hn Hsweep. rewrite Hsweep. split; [done|].
    destruct (Z.lt_ge_cases 0 (argparse.workers args)) as [Hmw|Hmw].
    + destruct (scan_network_output env _ _ (sweep p) n Hn Hmw)
        as (w2 & mid & elapsed & Hsweep2 & _ & _ & _ & Hstd & Hf & _).
      rewrite Hsweep in Hsweep2. injection Hsweep2 as Hl Hw. subst l w'.
      by exists mid, elapsed.
    + by rewrite (scan_network_no_workers _ _ _ _ n Hn Hmw) in Hsweep.
Qed.

Lemma main_without_output_opens_no_file_witness :
  files (main shuffled_29 read_only
              (argparse.mkNamespace "10.0.0.0/29" 4 (Some EmptyString))
              fresh_process).2
  = files fresh_process
  /\ main shuffled_29 read_only
          (argparse.mkNamespace "10.0.0.0/29" 4 (Some EmptyString))
          fresh_process
     = main shuffled_29 writable
            (argparse.mkNamespace "10.0.0.0/29" 4 (Some EmptyString))
            fresh_process
  /\ (forall n l w',
        ipaddress.ip_network
          (argparse.network
             (argparse.mkNamespace "10.0.0.0/29" 4 (Some EmptyString)))
        = Return n ->
        scan_network shuffled_29
          (argparse.network
             (argparse.mkNamespace "10.0.0.0/29" 4 (Some EmptyString)))
          (argparse.workers
             (argparse.mkNamespace "10.0.0.0/29" 4 (Some EmptyString)))
          (sweep fresh_process)
        = (Return l, w') ->
        console
          (main shuffled_29 read_only
                (argparse.mkNamespace "10.0.0.0/29" 4 (Some EmptyString))
                fresh_process).2
        = console fresh_process ++ list_header :: (listed <$> l)
        /\ exists mid elapsed,
             stdout w'
             = stdout (sweep fresh_process)
               ++ [scan_started (ipaddress.num_addresses n)]
               ++ mid ++ [scan_finished (length l) elapsed]
             /\ found_lines mid = l).
Proof.
  apply (main_without_output_opens_no_file shuffled_29 read_only writable
           (argparse.mkNamespace "10.0.0.0/29" 4 (Some EmptyString))
           fresh_process).
  reflexivity.
Defined.

(** * Properties of the window *)

(** ** The base of the grid *)

Section grid_base.

Import pystr ipaddress.

Lemma to_bytes_last_octet a k :
  0 <= a < 2 ^ 32 -> 0 <= k <= 255 ->
  to_bytes (a / 256 * 256 + k)
  = [Z.land (Z.shiftr a 24) 255; Z.land (Z.shiftr a 16) 255;
     Z.land (Z.shiftr a 8) 255; k].
Proof.
  intros Ha Hk. unfold to_bytes.
  rewrite !land_255, !Z.shiftr_div_pow2 by lia.
  assert ((a / 256 * 256 + k) / 256 = a / 256) as Hhigh.
  { rewrite Z.div_add_l, (Z.div_small k 256) by lia. lia. }
  assert ((a / 256 * 256 + k) mod 256 = k) as Hlow.
  { rewrite Z.add_comm, Z.mod_add, Z.mod_small by lia. done. }
  change (2 ^ 24) with (256 * 65536). change (2 ^ 16) with (256 * 256).
  change (2 ^ 8) with 256.
  rewrite <- !Z.div_div by lia. by rewrite Hhigh, Hlow.
Qed.

Lemma rsplit1_str a :
  rsplit1 "." (str a)
  = [join "." (of_int <$> [Z.land (Z.shiftr a 24) 255;
                           Z.land (Z.shiftr a 16) 255;
                           Z.land (Z.shiftr a 8) 255]);
     of_int (Z.land a 255)].
Proof.
  pose proof (to_bytes_octets a) as Hoct. unfold str, to_bytes in *.
  set (b3 := Z.land (Z.shiftr a 24) 255) in *.
  set (b2 := Z.land (Z.shiftr a 16) 255) in *.
  set (b1 := Z.land (Z.shiftr a 8) 255) in *.
  set (b0 := Z.land a 255) in *.
  apply Forall_cons in Hoct as [H3 Hoct]. apply Forall_cons in Hoct as [H2 Hoct].
  apply Forall_cons in Hoct as [H1 Hoct]. apply Forall_cons in Hoct as [H0 _].
  destruct (octet_roundtrip b3 H3) as (_ & D3 & _).
  destruct (octet_roundtrip b2 H2) as (_ & D2 & _).
  destruct (octet_roundtrip b1 H1) as (_ & D1 & _).
  destruct (octet_roundtrip b0 H0) as (_ & D0 & _).
  unfold rsplit1. cbn [fmap list_fmap join]. rewrite !append_single.
  rewrite (split_app "." _ _ D3), (split_app "." _ _ D2), (split_app "." _ _ D1).
  rewrite (split_no_sep "." _ D0). cbn. by rewrite !append_single.
Qed.

(** The text [create_ip_grid] builds for the last octet [k] is the text of
    the address with that last octet. *)
Lemma base_ip_octet a k part rest :
  0 <= a < 2 ^ 32 -> 0 <= k <= 255 ->
  rsplit1 "." (str a) = part :: rest ->
  (part +:+ ".") +:+ of_int k = str (a / 256 * 256 + k).
Proof.
  intros Ha Hk. rewrite rsplit1_str. intros [= <- _].
  unfold str at 1. rewrite to_bytes_last_octet by done.
  cbn [fmap list_fmap join]. by rewrite !append_assoc.
Qed.

End grid_base.

(** ** The grid of [create_ip_grid] *)

Section grid.

Import IPScannerGUI.

Lemma foldl_nested {S A B} (F : A -> B -> S -> S) rows cols (s : S) :
  foldl (fun s r => foldl (fun s c => F r c s) s cols) s rows
  = foldl (fun s rc => F rc.1 rc.2 s) s (r ← rows; pair r <$> cols).
Proof.
  revert s. induction rows as [|r rows IH]; intros s; [done|].
  cbn [foldl mbind list_bind]. by rewrite foldl_app, <- IH, foldl_fmap.
Qed.

Lemma foldl_insert_list_to_map `{Countable K} {V X} (f : X -> K * V)
    (l : list X) (m : gmap K V) :
  foldl (fun m x => <[(f x).1 := (f x).2]> m) m l
  = list_to_map (reverse (f <$> l)) ∪ m.
Proof.
  induction l as [|x l IH] using rev_ind.
  - cbn. by rewrite (left_id_L ∅ (∪)).
  - rewrite foldl_app, fmap_app, reverse_app. cbn [foldl fmap list_fmap].
    rewrite IH. cbn. by rewrite insert_union_l.
Qed.

Lemma grid_cell_fold base rcs self :
  ip_cells (foldl (fun s rc => grid_cell base rc.1 rc.2 s) self rcs)
  = foldl (fun m rc =>
             <[base +:+ pystr.of_int (Z.of_nat (rc.1 * 16 + rc.2)) := rc]> m)
          (ip_cells self) rcs
  /\ ip_table (foldl (fun s rc => grid_cell base rc.1 rc.2 s) self rcs)
     = foldl (fun t rc =>
                <[rc := unscanned
                          (base +:+ pystr.of_int
                                      (Z.of_nat (rc.1 * 16 + rc.2)))]> t)
             (ip_table self) rcs
  /\ same_widgets self (foldl (fun s rc => grid_cell base rc.1 rc.2 s) self rcs).
Proof.
  revert self. induction rcs as [|rc rcs IH]; intros self.
  - cbn. by repeat split.
  - cbn [foldl]. destruct (IH (grid_cell base rc.1 rc.2 self))
      as (Hc & Ht & Hw). split; [|split].
    + rewrite Hc. by destruct rc.
    + rewrite Ht. by destruct rc.
    + unfold same_widgets in *. cbn in Hw. exact Hw.
Qed.

Lemma grid_pairs :
  (r ← seq 0 16; pair r <$> seq 0 16)
  = (fun k => (k / 16, k mod 16)%nat) <$> seq 0 256.
Proof. vm_compute. reflexivity. Qed.

Lemma grid_address_bound n k :
  well_formed n -> (k < 256)%nat -> 0 <= grid_address n k < 2 ^ 32.
Proof.
  intros (_ & _ & Ha & _) Hk. unfold grid_address.
  change (2 ^ 32) with 4294967296 in *. Z.div_mod_to_equations. lia.
Qed.

Lemma grid_entries_keys_NoDup n : well_formed n -> NoDup (grid_entries n).*1.
Proof.
  intros Hwf. unfold grid_entries. rewrite <- list_fmap_compose.
  apply NoDup_fmap_2_strong; [|apply NoDup_seq].
  intros j k Hj%elem_of_seq Hk%elem_of_seq Heq. cbn in Heq.
  apply str_inj in Heq; [|apply grid_address_bound; [done|lia]..].
  unfold grid_address in Heq. lia.
Qed.

Lemma grid_entries_cells_NoDup n : NoDup (grid_entries n).*2.
Proof.
  unfold grid_entries. rewrite <- list_fmap_compose.
  apply NoDup_fmap_2_strong; [|apply NoDup_seq].
  intros j k _ _ Heq.
  change ((j / 16, j mod 16)%nat = (k / 16, k mod 16)%nat) in Heq.
  apply pair_equal_spec in Heq as [Hd Hm].
  pose proof (Nat.div_mod_eq j 16). pose proof (Nat.div_mod_eq k 16). lia.
Qed.

(** The dictionary and the table after [create_ip_grid] on a valid network
    text. *)
Lemma create_ip_grid_eq s n self :
  ipaddress.ip_network s = Return n ->
  ip_cells (create_ip_grid s self) = list_to_map (grid_entries n)
  /\ ip_table (create_ip_grid s self)
     = list_to_map (grid_items n) ∪ ip_table self
  /\ same_widgets self (create_ip_grid s self).
Proof.
  intros Hn. pose proof (ip_network_well_formed s n Hn) as Hwf.
  assert (0 <= ipaddress.network_address n < 2 ^ 32) as Ha by apply Hwf.
  unfold create_ip_grid. rewrite Hn. cbn [mbind result_bind].
  destruct (pystr.rsplit1 "." _) as [|part rest] eqn:Hpart.
  { by rewrite rsplit1_str in Hpart. }
  cbn [mbind result_bind]. rewrite foldl_nested, grid_pairs.
  set (base := part +:+ ".").
  destruct (grid_cell_fold base ((fun k => (k / 16, k mod 16)%nat) <$> seq 0 256)
              (set_ip_cells ∅ self)) as (Hc & Ht & Hw).
  assert (forall k, (k < 256)%nat ->
            base +:+ pystr.of_int (Z.of_nat (k / 16 * 16 + k mod 16))
            = ipaddress.str (grid_address n k)) as Hkey.
  { intros k Hk. replace (k / 16 * 16 + k mod 16)%nat with k
      by (pose proof (Nat.div_mod_eq k 16); lia).
    unfold base, grid_address.
    erewrite base_ip_octet; [done|done|lia|exact Hpart]. }
  split; [|split].
  - rewrite Hc. cbn [ip_cells set_ip_cells].
    rewrite (foldl_insert_list_to_map
               (fun rc : nat * nat =>
                  (base +:+ pystr.of_int (Z.of_nat (rc.1 * 16 + rc.2)), rc))).
    rewrite (right_id_L ∅ (∪)), <- list_fmap_compose.
    assert ((fun rc : nat * nat =>
               (base +:+ pystr.of_int (Z.of_nat (rc.1 * 16 + rc.2)), rc))
              ∘ (fun k => (k / 16, k mod 16)%nat) <$> seq 0 256
            = grid_entries n) as ->.
    { apply list_fmap_ext. intros i k [-> Hi]%lookup_seq. cbn [compose fst snd].
      by rewrite Hkey. }
    apply list_to_map_proper; [|apply reverse_Permutation].
    rewrite fmap_reverse, reverse_Permutation.
    by apply grid_entries_keys_NoDup.
  - rewrite Ht. cbn [ip_table set_ip_cells].
    rewrite (foldl_insert_list_to_map
               (fun rc : nat * nat =>
                  (rc, unscanned
                         (base +:+ pystr.of_int
                                     (Z.of_nat (rc.1 * 16 + rc.2)))))).
    rewrite <- list_fmap_compose.
    assert ((fun rc : nat * nat =>
               (rc, unscanned
                      (base +:+ pystr.of_int (Z.of_nat (rc.1 * 16 + rc.2)))))
              ∘ (fun k => (k / 16, k mod 16)%nat) <$> seq 0 256
            = grid_items n) as ->.
    { unfold grid_items, grid_entries. rewrite <- list_fmap_compose.
      apply list_fmap_ext. intros i k [-> Hi]%lookup_seq. cbn [compose fst snd].
      by rewrite Hkey. }
    apply (f_equal (fun m => m ∪ ip_table self)).
    apply list_to_map_proper; [|apply reverse_Permutation].
    rewrite fmap_reverse, reverse_Permutation.
    unfold grid_items. rewrite <- list_fmap_compose.
    apply (grid_entries_cells_NoDup n).
  - exact Hw.
Qed.

End grid.

Section grid_lookup.

Import IPScannerGUI.

Context (s : string) (n : ipaddress.IPv4Network).
Context (Hn : ipaddress.ip_network s = Return n).

Lemma in_grid_address a :
  0 <= a < 2 ^ 32 -> in_grid n a = true ->
  a = grid_address n (Z.to_nat (a mod 256))
  /\ (Z.to_nat (a mod 256) < 256)%nat.
Proof.
  intros Ha Hin%Z.eqb_eq. unfold grid_address. rewrite <- Hin.
  pose proof (Z.mod_pos_bound a 256). rewrite Z2Nat.id by lia.
  split; [|lia]. pose proof (Z.div_mod a 256). lia.
Qed.

Lemma grid_address_in_grid k :
  (k < 256)%nat -> in_grid n (grid_address n k) = true.
Proof.
  intros Hk. apply Z.eqb_eq. unfold grid_address.
  rewrite Z.div_add_l, (Z.div_small (Z.of_nat k) 256) by lia. lia.
Qed.

Lemma elem_of_grid_entries ip cell :
  (ip, cell) ∈ grid_entries n
  <-> exists a, 0 <= a < 2 ^ 32 /\ in_grid n a = true
                /\ ip = ipaddress.str a /\ cell = cell_of a.
Proof.
  pose proof (ip_network_well_formed s n Hn) as Hwf.
  unfold grid_entries. rewrite list_elem_of_fmap. split.
  - intros (k & [= -> ->] & Hk%elem_of_seq).
    exists (grid_address n k). split; [apply grid_address_bound; [done|lia]|].
    split; [apply grid_address_in_grid; lia|]. split; [done|].
    unfold cell_of, grid_address.
    rewrite Z.add_comm, Z.mod_add, Z.mod_small, Nat2Z.id by lia. done.
  - intros (a & Ha & Hin & -> & ->).
    destruct (in_grid_address a Ha Hin) as [Heq Hk].
    exists (Z.to_nat (a mod 256)). split; [|apply elem_of_seq; lia].
    by rewrite <- Heq.
Qed.

(** The cell of an address text after [create_ip_grid]. *)
Lemma create_ip_grid_lookup self a :
  0 <= a < 2 ^ 32 ->
  ip_cells (create_ip_grid s self) !! ipaddress.str a
  = if in_grid n a then Some (cell_of a) else None.
Proof.
  intros Ha. pose proof (ip_network_well_formed s n Hn) as Hwf.
  destruct (create_ip_grid_eq s n self Hn) as (-> & _).
  destruct (in_grid n a) eqn:Hin.
  - apply elem_of_list_to_map_1; [by apply grid_entries_keys_NoDup|].
    apply elem_of_grid_entries. by exists a.
  - apply not_elem_of_list_to_map_1.
    intros ([ip cell] & Hip & (b & Hb & Hinb & -> & _)%elem_of_grid_entries)
      %list_elem_of_fmap.
    cbn in Hip. apply str_inj in Hip; [|done..]. congruence.
Qed.

Lemma create_ip_grid_ok self : grid_ok (create_ip_grid s self).
Proof.
  pose proof (ip_network_well_formed s n Hn) as Hwf.
  destruct (create_ip_grid_eq s n self Hn) as (Hc & Ht & _).
  intros ip cell. rewrite Hc, Ht.
  intros Hin%elem_of_list_to_map_2. exists (unscanned ip). split; [|done].
  apply lookup_union_Some_l, elem_of_list_to_map_1.
  - unfold grid_items. rewrite <- list_fmap_compose.
    apply (grid_entries_cells_NoDup n).
  - unfold grid_items. apply list_elem_of_fmap. by exists (ip, cell).
Qed.

Lemma create_ip_grid_item self a :
  0 <= a < 2 ^ 32 -> in_grid n a = true ->
  item_of (create_ip_grid s self) (ipaddress.str a)
  = Some (unscanned (ipaddress.str a)).
Proof.
  intros Ha Hin. unfold item_of.
  rewrite create_ip_grid_lookup, Hin by done. cbn.
  destruct (create_ip_grid_ok self (ipaddress.str a) (cell_of a))
    as (item & Hitem & Htip).
  { by rewrite create_ip_grid_lookup, Hin. }
  pose proof (ip_network_well_formed s n Hn) as Hwf.
  destruct (create_ip_grid_eq s n self Hn) as (_ & Ht & _).
  rewrite Ht. apply lookup_union_Some_l, elem_of_list_to_map_1.
  - unfold grid_items. rewrite <- list_fmap_compose.
    apply (grid_entries_cells_NoDup n).
  - unfold grid_items. apply list_elem_of_fmap.
    exists (ipaddress.str a, cell_of a). split; [done|].
    apply elem_of_grid_entries. by exists a.
Qed.

End grid_lookup.

(** X12.  [create_ip_grid] on a valid network text fills the dictionary
    with exactly 256 address texts: the addresses that share their first
    three octets with the network address, each with the cell (last octet
    div 16, last octet mod 16); every one of these cells holds an unscanned
    item whose tool tip is the address, no other address has a cell, and
    nothing but the dictionary and the table changes. *)
Theorem create_ip_grid_one_octet_block s n self :
  ipaddress.ip_network s = Return n ->
  size (IPScannerGUI.ip_cells (IPScannerGUI.create_ip_grid s self)) = 256%nat
  /\ (forall a, 0 <= a < 2 ^ 32 ->
        IPScannerGUI.ip_cells (IPScannerGUI.create_ip_grid s self)
          !! ipaddress.str a
        = if in_grid n a then Some (cell_of a) else None)
  /\ (forall ip cell,
        IPScannerGUI.ip_cells (IPScannerGUI.create_ip_grid s self) !! ip
        = Some cell ->
        exists a, 0 <= a < 2 ^ 32 /\ in_grid n a = true
                  /\ ip = ipaddress.str a /\ cell = cell_of a)
  /\ (forall a, 0 <= a < 2 ^ 32 -> in_grid n a = true ->
        item_of (IPScannerGUI.create_ip_grid s self) (ipaddress.str a)
        = Some (unscanned (ipaddress.str a)))
  /\ grid_ok (IPScannerGUI.create_ip_grid s self)
  /\ same_widgets self (IPScannerGUI.create_ip_grid s self).
Proof.
  intros Hn. pose proof (ip_network_well_formed s n Hn) as Hwf.
  destruct (create_ip_grid_eq s n self Hn) as (Hc & _ & Hw).
  split; [|split; [|split; [|split; [|split]]]].
  - rewrite Hc, map_size_list_to_map by by apply grid_entries_keys_NoDup.
    unfold grid_entries. by rewrite length_fmap, length_seq.
  - intros a Ha. by eapply create_ip_grid_lookup.
  - intros ip cell. rewrite Hc. intros Hin%elem_of_list_to_map_2.
    by eapply elem_of_grid_entries.
  - intros a Ha Hin. by eapply create_ip_grid_item.
  - by eapply create_ip_grid_ok.
  - exact Hw.
Qed.

Lemma create_ip_grid_one_octet_block_witness :
  size (IPScannerGUI.ip_cells
          (IPScannerGUI.create_ip_grid "10.0.0.0/30" IPScannerGUI.init))
  = 256%nat
  /\ (forall a, 0 <= a < 2 ^ 32 ->
        IPScannerGUI.ip_cells
          (IPScannerGUI.create_ip_grid "10.0.0.0/30" IPScannerGUI.init)
          !! ipaddress.str a
        = if in_grid net_10_0_0_0_30 a then Some (cell_of a) else None)
  /\ (forall ip cell,
        IPScannerGUI.ip_cells
          (IPScannerGUI.create_ip_grid "10.0.0.0/30" IPScannerGUI.init) !! ip
        = Some cell ->
        exists a, 0 <= a < 2 ^ 32 /\ in_grid net_10_0_0_0_30 a = true
                  /\ ip = ipaddress.str a /\ cell = cell_of a)
  /\ (forall a, 0 <= a < 2 ^ 32 -> in_grid net_10_0_0_0_30 a = true ->
        item_of (IPScannerGUI.create_ip_grid "10.0.0.0/30" IPScannerGUI.init)
                (ipaddress.str a)
        = Some (unscanned (ipaddress.str a)))
  /\ grid_ok (IPScannerGUI.create_ip_grid "10.0.0.0/30" IPScannerGUI.init)
  /\ same_widgets IPScannerGUI.init
       (IPScannerGUI.create_ip_grid "10.0.0.0/30" IPScannerGUI.init).
Proof.
  apply (create_ip_grid_one_octet_block "10.0.0.0/30" net_10_0_0_0_30
           IPScannerGUI.init).
  reflexivity.
Defined.

(** ** The hosts of a network and the grid *)

Section hosts_and_grid.

Import ipaddress.

Context (n : IPv4Network) (Hwf : well_formed n).

Lemma network_address_aligned :
  network_address n mod 2 ^ (32 - prefixlen n) = 0.
Proof.
  pose proof (no_host_bits n Hwf) as Hz.
  rewrite (hostmask_ones n Hwf), Z.land_ones in Hz by (destruct Hwf; lia).
  exact Hz.
Qed.

Lemma hosts_block_offset x :
  x ∈ hosts n ->
  network_address n <= x < network_address n + 2 ^ (32 - prefixlen n).
Proof.
  intros Hx%(hosts_in_block n Hwf).
  rewrite (broadcast_address_eq n Hwf) in Hx. lia.
Qed.

(** A network of at most 256 addresses lies within the grid. *)
Lemma hosts_in_grid x :
  24 <= prefixlen n -> x ∈ hosts n -> in_grid n x = true.
Proof.
  intros Hp Hx%hosts_block_offset. pose proof network_address_aligned as Hal.
  assert (0 <= prefixlen n <= 32) as Hp32 by apply Hwf.
  set (c := 2 ^ (32 - prefixlen n)) in *.
  assert (0 < c) as Hc by (apply Z.pow_pos_nonneg; lia).
  assert (256 = c * 2 ^ (prefixlen n - 24)) as H256.
  { unfold c. rewrite <- Z.pow_add_r by lia.
    replace (32 - prefixlen n + (prefixlen n - 24)) with 8 by lia. done. }
  assert (0 < 2 ^ (prefixlen n - 24)) as Hk by (apply Z.pow_pos_nonneg; lia).
  apply Z.eqb_eq. rewrite H256, <- !Z.div_div by lia. f_equal.
  apply Z.div_exact in Hal; [|lia].
  symmetry. apply (Z.div_unique _ _ _ (x - network_address n)); lia.
Qed.

(** In a larger network the grid holds the first 256 addresses. *)
Lemma hosts_in_grid_iff x :
  prefixlen n <= 23 -> x ∈ hosts n ->
  in_grid n x = true <-> x < network_address n + 256.
Proof.
  intros Hp Hx%hosts_block_offset. pose proof network_address_aligned as Hal.
  assert (0 <= prefixlen n <= 32) as Hp32 by apply Hwf.
  assert (network_address n mod 256 = 0) as H0.
  { apply Z.div_exact in Hal;
      [|apply Z.pow_nonzero; lia].
    rewrite Hal.
    replace (2 ^ (32 - prefixlen n)) with (2 ^ (24 - prefixlen n) * 256).
    2:{ change 256 with (2 ^ 8). rewrite <- Z.pow_add_r by lia.
        f_equal. lia. }
    rewrite <- Z.mul_assoc, (Z.mul_comm 256), Z.mul_assoc.
    apply Z.mod_mul. lia. }
  unfold in_grid. rewrite Z.eqb_eq. Z.div_mod_to_equations. lia.
Qed.

Lemma second_block_is_host :
  prefixlen n <= 23 -> network_address n + 256 ∈ hosts n.
Proof.
  intros Hp. apply elem_of_hosts; [lia|].
  rewrite (broadcast_address_eq n Hwf).
  assert (0 <= prefixlen n <= 32) as Hp32 by apply Hwf.
  assert (2 ^ 9 <= 2 ^ (32 - prefixlen n)) by (apply Z.pow_le_mono_r; lia).
  change (2 ^ 9) with 512 in *. lia.
Qed.

End hosts_and_grid.

Lemma update_ip_status_off_grid ip is_active self :
  IPScannerGUI.ip_cells self !! ip = None ->
  IPScannerGUI.update_ip_status ip is_active self = Some self.
Proof. intros Hnone. unfold IPScannerGUI.update_ip_status. by rewrite Hnone. Qed.

(** X13.  A network of more than 256 addresses does not fit the grid: only
    the hosts among its first 256 addresses have a cell.  The results of
    all other hosts, of which [network_address + 256] is one, are dropped by
    [update_ip_status], which leaves the window as it is: a live host
    among them is neither shown nor appended to the window's list. *)
Theorem hosts_beyond_grid_ignored s n self self' :
  ipaddress.ip_network s = Return n ->
  ipaddress.prefixlen n <= 23 ->
  IPScannerGUI.ip_cells self'
  = IPScannerGUI.ip_cells (IPScannerGUI.create_ip_grid s self) ->
  ipaddress.network_address n + 256 ∈ ipaddress.hosts n
  /\ forall a,
       a ∈ ipaddress.hosts n ->
       (IPScannerGUI.ip_cells self' !! ipaddress.str a = None
        <-> ipaddress.network_address n + 256 <= a)
       /\ (ipaddress.network_address n + 256 <= a ->
           forall is_active,
             IPScannerGUI.update_ip_status (ipaddress.str a) is_active self'
             = Some self').
Proof.
  intros Hn Hp Hcells. pose proof (ip_network_well_formed s n Hn) as Hwf.
  split; [by apply second_block_is_host|].
  intros a Ha.
  assert (IPScannerGUI.ip_cells self' !! ipaddress.str a = None
          <-> ipaddress.network_address n + 256 <= a) as Hiff.
  { rewrite Hcells, (create_ip_grid_lookup s n Hn)
      by by eapply hosts_32bit.
    pose proof (hosts_in_grid_iff n Hwf a Hp Ha) as Hgrid.
    destruct (in_grid n a).
    - split; [done|]. intros Hfar. destruct Hgrid as [Hgrid _].
      specialize (Hgrid eq_refl). lia.
    - split; [|done]. intros _.
      destruct (Z.le_gt_cases (ipaddress.network_address n + 256) a)
        as [|Hnear]; [done|].
      destruct Hgrid as [_ Hgrid]. specialize (Hgrid ltac:(lia)). done. }
  split; [exact Hiff|].
  intros Hfar is_active. by apply update_ip_status_off_grid, Hiff.
Qed.

Lemma hosts_beyond_grid_ignored_witness :
  ipaddress.network_address net_10_0_0_0_23 + 256
    ∈ ipaddress.hosts net_10_0_0_0_23
  /\ forall a,
       a ∈ ipaddress.hosts net_10_0_0_0_23 ->
       (IPScannerGUI.ip_cells
          (IPScannerGUI.create_ip_grid "10.0.0.0/23" IPScannerGUI.init)
          !! ipaddress.str a = None
        <-> ipaddress.network_address net_10_0_0_0_23 + 256 <= a)
       /\ (ipaddress.network_address net_10_0_0_0_23 + 256 <= a ->
           forall is_active,
             IPScannerGUI.update_ip_status (ipaddress.str a) is_active
               (IPScannerGUI.create_ip_grid "10.0.0.0/23" IPScannerGUI.init)
             = Some (IPScannerGUI.create_ip_grid "10.0.0.0/23"
                       IPScannerGUI.init)).
Proof.
  apply (hosts_beyond_grid_ignored "10.0.0.0/23" net_10_0_0_0_23
           IPScannerGUI.init
           (IPScannerGUI.create_ip_grid "10.0.0.0/23" IPScannerGUI.init)).
  - reflexivity.
  - cbn. lia.
  - reflexivity.
Defined.

(** ** The percentage of [update_progress] *)

Lemma all_from_spec f a k x :
  all_from f a k = true -> a <= x < a + Z.of_nat k -> f x = true.
Proof.
  revert a. induction k as [|k IH]; intros a Hall Hx; [lia|].
  cbn [all_from] in Hall. apply andb_prop in Hall as [Ha Hrest].
  destruct (Z.eq_dec x a) as [->|Hne]; [done|].
  apply (IH (a + 1)); [done|lia].
Qed.

Lemma percent_exact_small : forallb percent_exact_upto (seq 0 9) = true.
Proof. vm_compute. reflexivity. Qed.

(** For a total of [2 ^ j] addresses, [j] up to 8, the float arithmetic of
    [update_progress] gives the integer part of the exact percentage. *)
Lemma percent_power_of_two j current :
  (j <= 8)%nat -> 0 <= current <= 2 ^ Z.of_nat j ->
  IPScannerGUI.percent current (2 ^ Z.of_nat j)
  = Some (100 * current / 2 ^ Z.of_nat j).
Proof.
  intros Hj Hc.
  assert (percent_exact_upto j = true) as Hall.
  { apply (proj1 (forallb_forall _ _) percent_exact_small).
    apply list_elem_of_In, elem_of_seq. lia. }
  unfold percent_exact_upto in Hall.
  assert (0 < 2 ^ Z.of_nat j) by (apply Z.pow_pos_nonneg; lia).
  apply (all_from_spec _ _ _ current) in Hall; [|lia].
  unfold percent_exact in Hall.
  destruct (IPScannerGUI.percent _ _) as [v|]; [|done].
  by apply Z.eqb_eq in Hall as ->.
Qed.

Lemma percent_network n current :
  well_formed n -> 24 <= ipaddress.prefixlen n ->
  0 <= current <= ipaddress.num_addresses n ->
  IPScannerGUI.percent current (ipaddress.num_addresses n)
  = Some (100 * current / ipaddress.num_addresses n).
Proof.
  intros Hwf Hp. rewrite (num_addresses_eq n Hwf).
  assert (0 <= ipaddress.prefixlen n <= 32) as Hp32 by apply Hwf.
  replace (32 - ipaddress.prefixlen n)
    with (Z.of_nat (Z.to_nat (32 - ipaddress.prefixlen n))) by lia.
  apply percent_power_of_two. lia.
Qed.

Lemma percent_network_range n current :
  well_formed n -> 24 <= ipaddress.prefixlen n ->
  0 <= current <= ipaddress.num_addresses n ->
  exists progress,
    IPScannerGUI.percent current (ipaddress.num_addresses n) = Some progress
    /\ 0 <= progress <= 100.
Proof.
  intros Hwf Hp Hc. eexists. split; [by apply percent_network|].
  assert (0 < ipaddress.num_addresses n) as Htotal.
  { rewrite (num_addresses_eq n Hwf).
    apply Z.pow_pos_nonneg; [lia|]. destruct Hwf; lia. }
  split; [apply Z.div_pos; lia|]. apply Z.div_le_upper_bound; lia.
Qed.

Lemma setValue_in_range value self :
  0 <= value <= 100 ->
  IPScannerGUI.setValue value self
  = Some (IPScannerGUI.set_progress_bar value self).
Proof.
  intros Hv. unfold IPScannerGUI.setValue.
  destruct (Z.leb_spec (-2147483648) value), (Z.leb_spec value 2147483647),
    (Z.leb_spec 0 value), (Z.leb_spec value 100); cbn; (done || lia).
Qed.

Lemma setValue_Some value self self' :
  IPScannerGUI.setValue value self = Some self' ->
  self' = IPScannerGUI.set_progress_bar value self /\ 0 <= value <= 100
  \/ self' = self.
Proof.
  unfold IPScannerGUI.setValue.
  destruct (negb _); [done|].
  destruct (Z.leb_spec 0 value), (Z.leb_spec value 100); cbn;
    intros [= <-]; (by right) || (left; split; [done|lia]).
Qed.

Lemma setValue_None value self :
  IPScannerGUI.setValue value self = None <->
  ~ (-2147483648 <= value <= 2147483647).
Proof.
  unfold IPScannerGUI.setValue.
  destruct (Z.leb_spec (-2147483648) value), (Z.leb_spec value 2147483647);
    cbn; try (split; [done|lia]); try (split; [lia|done]).
  destruct (_ && _); split; (done || lia).
Qed.

Lemma update_progress_eq current total progress self :
  IPScannerGUI.percent current total = Some progress ->
  0 <= progress <= 100 ->
  IPScannerGUI.update_progress current total self
  = Some (IPScannerGUI.set_status_label
            (if progress =? 100
             then IPScannerGUI.complete_text current total
             else IPScannerGUI.progress_text current total progress)
            (IPScannerGUI.set_progress_bar progress self)).
Proof.
  intros Hpc Hrange. unfold IPScannerGUI.update_progress. rewrite Hpc.
  cbn [mbind option_bind]. rewrite setValue_in_range by done.
  cbn [mbind option_bind]. by destruct (progress =? 100).
Qed.

(** X14.  For a network that fits the grid (prefix length 24 or more) and a
    count between 0 and the total, [update_progress] never fails and its
    float arithmetic is exact: the bar is set to the integer part of
    100 * current / total, and the label reads "complete" exactly when the
    count equals the total.  Below /31 the counts of the result loop stay
    under 100 percent, since they end at the number of hosts. *)
Theorem update_progress_exact s n current self :
  ipaddress.ip_network s = Return n ->
  24 <= ipaddress.prefixlen n ->
  0 <= current <= ipaddress.num_addresses n ->
  let total := ipaddress.num_addresses n in
  let progress := 100 * current / total in
  IPScannerGUI.update_progress current total self
  = Some (IPScannerGUI.set_status_label
            (if current =? total
             then IPScannerGUI.complete_text current total
             else IPScannerGUI.progress_text current total progress)
            (IPScannerGUI.set_progress_bar progress self))
  /\ 0 <= progress <= 100
  /\ (progress = 100 <-> current = total)
  /\ (ipaddress.prefixlen n <= 30 ->
      current <= Z.of_nat (length (ipaddress.hosts n)) -> progress < 100).
Proof.
  intros Hn Hp Hc total progress.
  pose proof (ip_network_well_formed s n Hn) as Hwf.
  assert (0 < total) as Htotal.
  { unfold total. rewrite (num_addresses_eq n Hwf).
    apply Z.pow_pos_nonneg; [lia|]. destruct Hwf; lia. }
  assert (0 <= progress <= 100) as Hrange.
  { unfold progress. split; [apply Z.div_pos; lia|].
    apply Z.div_le_upper_bound; lia. }
  assert (progress = 100 <-> current = total) as Hfull.
  { unfold progress. split.
    - intros H100. fold total in Hc.
      pose proof (Z.mul_div_le (100 * current) total Htotal). nia.
    - intros ->. rewrite Z.div_mul by lia. done. }
  split; [|split; [done|split; [done|]]].
  - rewrite (update_progress_eq _ _ progress);
      [|by apply percent_network|done].
    do 2 f_equal.
    destruct (Z.eqb_spec progress 100) as [H100|H100],
             (Z.eqb_spec current total) as [Heq|Heq]; try done.
    + by apply Hfull in H100.
    + by apply Hfull in Heq.
  - intros Hp30 Hhosts.
    pose proof (total_exceeds_hosts_by_two n Hwf Hp30) as Htwo.
    fold total in Htwo.
    assert (progress <> 100) by (rewrite Hfull; lia). lia.
Qed.

Lemma update_progress_exact_witness :
  let total := ipaddress.num_addresses net_10_0_0_0_30 in
  let progress := 100 * 2 / total in
  IPScannerGUI.update_progress 2 total IPScannerGUI.init
  = Some (IPScannerGUI.set_status_label
            (if 2 =? total
             then IPScannerGUI.complete_text 2 total
             else IPScannerGUI.progress_text 2 total progress)
            (IPScannerGUI.set_progress_bar progress IPScannerGUI.init))
  /\ 0 <= progress <= 100
  /\ (progress = 100 <-> 2 = total)
  /\ (ipaddress.prefixlen net_10_0_0_0_30 <= 30 ->
      2 <= Z.of_nat (length (ipaddress.hosts net_10_0_0_0_30)) ->
      progress < 100).
Proof.
  apply (update_progress_exact "10.0.0.0/30" net_10_0_0_0_30 2
           IPScannerGUI.init).
  - reflexivity.
  - cbn. lia.
  - vm_compute. split; discriminate.
Defined.

(** ** The slots on the signals of a sweep *)

Section slots.

Import IPScannerGUI.

Lemma deliver_all_app sigs1 sigs2 self :
  deliver_all (sigs1 ++ sigs2) self
  = self' ← deliver_all sigs1 self; deliver_all sigs2 self'.
Proof.
  revert self. induction sigs1 as [|s sigs1 IH]; intros self; [done|].
  cbn [app deliver_all]. destruct (deliver s self) as [self1|]; [|done].
  cbn. apply IH.
Qed.

(** The cells of two addresses of a sound grid differ. *)
Lemma grid_ok_cells_differ self ip ip' cell cell' :
  grid_ok self ->
  ip_cells self !! ip = Some cell -> ip_cells self !! ip' = Some cell' ->
  ip <> ip' -> cell <> cell'.
Proof.
  intros Hok Hip Hip' Hne ->.
  destruct (Hok ip cell' Hip) as (item & Hitem & Htip).
  destruct (Hok ip' cell' Hip') as (item' & Hitem' & Htip').
  congruence.
Qed.

(** A result whose address has a cell: the item of the cell is painted, a
    live address is appended to the list, nothing else changes. *)
Lemma update_ip_status_on_grid ip is_active self cell :
  grid_ok self ->
  ip_cells self !! ip = Some cell ->
  exists self',
    update_ip_status ip is_active self = Some self'
    /\ same_inputs self self'
    /\ grid_ok self'
    /\ ip_table self' = <[cell := painted ip is_active]> (ip_table self)
    /\ active_ips self'
       = active_ips self ++ (if is_active then [ip] else [])
    /\ scan_button self' = scan_button self
    /\ stop_button self' = stop_button self.
Proof.
  intros Hok Hcell. destruct (Hok ip cell Hcell) as (item & Hitem & Htip).
  unfold update_ip_status. rewrite Hcell. destruct cell as [row col].
  rewrite Hitem. cbn [mbind option_bind]. rewrite Htip.
  assert (forall self',
            ip_cells self' = ip_cells self ->
            ip_table self'
            = <[(row, col) := painted ip is_active]> (ip_table self) ->
            grid_ok self') as Hgrid.
  { intros self' Hc Ht ip' cell'. rewrite Hc, Ht. intros Hip'.
    destruct (decide (cell' = (row, col))) as [->|Hne].
    - rewrite lookup_insert_eq. eexists. split; [done|].
      destruct (decide (ip = ip')) as [->|Hneq].
      + by destruct is_active.
      + by destruct (grid_ok_cells_differ self ip ip' _ _ Hok Hcell Hip' Hneq).
    - rewrite lookup_insert_ne by done. by apply Hok. }
  destruct is_active; eexists; (split; [reflexivity|]);
    cbn; (repeat split; try done);
    try (by rewrite app_nil_r); by eapply Hgrid.
Qed.

Lemma item_of_insert_ne self self' ip ip' cell item :
  grid_ok self ->
  ip_cells self' = ip_cells self ->
  ip_cells self !! ip = Some cell ->
  ip_table self' = <[cell := item]> (ip_table self) ->
  ip <> ip' ->
  item_of self' ip' = item_of self ip'.
Proof.
  intros Hok Hc Hcell Ht Hne. unfold item_of. rewrite Hc, Ht.
  destruct (ip_cells self !! ip') as [cell'|] eqn:Hip'; [|done].
  cbn. rewrite lookup_insert_ne; [done|].
  by eapply grid_ok_cells_differ.
Qed.

Lemma update_progress_same current total self self' :
  update_progress current total self = Some self' ->
  same_inputs self self'
  /\ ip_table self' = ip_table self
  /\ active_ips self' = active_ips self
  /\ scan_button self' = scan_button self
  /\ stop_button self' = stop_button self.
Proof.
  unfold update_progress. destruct (percent current total) as [v|]; [|done].
  cbn [mbind option_bind].
  destruct (setValue v self) as [self1|] eqn:Hset; [|done].
  cbn [mbind option_bind]. intros [= <-].
  apply setValue_Some in Hset as [[-> _]| ->];
    destruct (v =? 100); by repeat split.
Qed.

Lemma grid_ok_same self self' :
  ip_cells self' = ip_cells self -> ip_table self' = ip_table self ->
  grid_ok self -> grid_ok self'.
Proof. intros Hc Ht Hok ip cell. rewrite Hc, Ht. apply Hok. Qed.

Lemma item_of_same self self' ip :
  ip_cells self' = ip_cells self -> ip_table self' = ip_table self ->
  item_of self' ip = item_of self ip.
Proof. intros Hc Ht. unfold item_of. by rewrite Hc, Ht. Qed.

Lemma on_grid_same self self' rs :
  ip_cells self' = ip_cells self -> on_grid self' rs = on_grid self rs.
Proof. intros Hc. unfold on_grid. by rewrite Hc. Qed.

(** The window after the signals of the result loop. *)
Lemma deliver_loop_signals total rs : forall processed self,
  grid_ok self ->
  NoDup rs.*1 ->
  (forall current,
     processed < current <= processed + Z.of_nat (length rs) ->
     exists progress,
       percent current total = Some progress /\ 0 <= progress <= 100) ->
  exists self',
    deliver_all (loop_signals total rs processed) self = Some self'
    /\ same_inputs self self'
    /\ grid_ok self'
    /\ active_ips self' = active_ips self ++ live (on_grid self rs)
    /\ scan_button self' = scan_button self
    /\ stop_button self' = stop_button self
    /\ (forall ip is_active,
          (ip, is_active) ∈ rs -> is_Some (ip_cells self !! ip) ->
          item_of self' ip = Some (painted ip is_active))
    /\ (forall ip, ip ∉ rs.*1 -> item_of self' ip = item_of self ip).
Proof.
  induction rs as [|[ip is_active] rs IH]; intros processed self Hok Hnd Hpc.
  { exists self. cbn. rewrite app_nil_r. repeat split; try done.
    intros ip b Hin. by apply elem_of_nil in Hin. }
  cbn [fmap list_fmap fst] in Hnd. apply NoDup_cons in Hnd as [Hfresh Hnd].
  cbn [loop_signals deliver_all deliver].
  assert (exists self1,
            update_ip_status ip is_active self = Some self1
            /\ same_inputs self self1 /\ grid_ok self1
            /\ active_ips self1
               = active_ips self ++ live (on_grid self [(ip, is_active)])
            /\ scan_button self1 = scan_button self
            /\ stop_button self1 = stop_button self
            /\ (is_Some (ip_cells self !! ip) ->
                item_of self1 ip = Some (painted ip is_active))
            /\ (forall ip', ip <> ip' -> item_of self1 ip' = item_of self ip'))
    as (self1 & -> & Hin1 & Hok1 & Hact1 & Hscan1 & Hstop1 & Hitem1 & Hrest1).
  { destruct (ip_cells self !! ip) as [cell|] eqn:Hcell.
    - destruct (update_ip_status_on_grid ip is_active self cell Hok Hcell)
        as (self1 & Heq & Hin1 & Hok1 & Ht1 & Hact1 & Hscan1 & Hstop1).
      exists self1. split; [done|]. split; [done|]. split; [done|].
      split; [|split; [done|split; [done|split]]].
      + rewrite Hact1. f_equal. unfold on_grid, live.
        rewrite filter_cons_True by (cbn; by rewrite Hcell).
        rewrite filter_nil. by destruct is_active.
      + intros _. unfold item_of. destruct Hin1 as (_ & -> & _).
        rewrite Hcell. cbn. by rewrite Ht1, lookup_insert_eq.
      + intros ip' Hne. eapply item_of_insert_ne; try done. apply Hin1.
    - exists self. rewrite update_ip_status_off_grid by done.
      split; [done|]. split; [done|]. split; [done|].
      split; [|split; [done|split; [done|split]]].
      + unfold on_grid. rewrite filter_cons_False, filter_nil.
        * cbn. by rewrite app_nil_r.
        * cbn. rewrite Hcell. by intros [? ?].
      + by intros [? ?].
      + done. }
  cbn [mbind option_bind].
  destruct (Hpc (processed + 1)) as (v & Hv & Hrange); [cbn [length]; lia|].
  destruct (update_progress (processed + 1) total self1) as [self2|] eqn:Hup.
  2:{ by rewrite (update_progress_eq _ _ v) in Hup. }
  apply update_progress_same in Hup
    as (Hin2 & Ht2 & Hact2 & Hscan2 & Hstop2).
  cbn [mbind option_bind].
  assert (ip_cells self2 = ip_cells self) as Hcells2.
  { destruct Hin1 as (_ & Hc1 & _), Hin2 as (_ & Hc2 & _). congruence. }
  destruct (IH (processed + 1) self2) as
    (self' & -> & Hin' & Hok' & Hact' & Hscan' & Hstop' & Hitem' & Hrest').
  { eapply grid_ok_same; [apply Hin2|done|done]. }
  { done. }
  { intros c Hc. apply Hpc. cbn [length]. lia. }
  exists self'. split; [done|]. split; [|split; [done|]].
  { unfold same_inputs in *. intuition congruence. }
  split; [|split; [congruence|split; [congruence|split]]].
  - rewrite Hact', Hact2, Hact1, (on_grid_same self self2) by done.
    rewrite <- app_assoc. f_equal.
    change ((ip, is_active) :: rs) with ([(ip, is_active)] ++ rs).
    unfold on_grid, live. by rewrite filter_app, filter_app, fmap_app.
  - intros ip' b [[= -> ->]|Hin]%elem_of_cons Hsome.
    + rewrite Hrest' by done.
      rewrite (item_of_same self1 self2) by (done || apply Hin2).
      by apply Hitem1.
    + apply Hitem'; [done|]. by rewrite Hcells2.
  - intros ip' [Hne Hnotin]%not_elem_of_cons.
    rewrite Hrest' by done.
    rewrite (item_of_same self1 self2) by (done || apply Hin2).
    apply Hrest1. cbn in Hne. congruence.
Qed.

End slots.

(** ** A sweep started from the window *)

Section window_sweep.

Lemma start_scan_valid self n :
  ipaddress.ip_network (pystr.strip (IPScannerGUI.network_input self)) = Return n ->
  exists self1,
    IPScannerGUI.start_scan self = Some self1
    /\ IPScannerGUI.scan_thread self1
       = Some (ScanThread_init (pystr.strip (IPScannerGUI.network_input self))
                               (IPScannerGUI.workers_input self))
    /\ IPScannerGUI.ip_cells self1
       = IPScannerGUI.ip_cells (IPScannerGUI.create_ip_grid (pystr.strip (IPScannerGUI.network_input self)) self)
    /\ IPScannerGUI.ip_table self1
       = IPScannerGUI.ip_table (IPScannerGUI.create_ip_grid (pystr.strip (IPScannerGUI.network_input self)) self)
    /\ IPScannerGUI.scan_button self1 = false /\ IPScannerGUI.stop_button self1 = true
    /\ IPScannerGUI.progress_bar self1 = 0
    /\ IPScannerGUI.status_label self1 = IPScannerGUI.scanning (pystr.strip (IPScannerGUI.network_input self))
    /\ IPScannerGUI.active_ips self1 = IPScannerGUI.active_ips self
    /\ IPScannerGUI.network_input self1 = IPScannerGUI.network_input self
    /\ IPScannerGUI.workers_input self1 = IPScannerGUI.workers_input self
    /\ IPScannerGUI.dialogs self1 = IPScannerGUI.dialogs self.
Proof.
  intros Hn. unfold IPScannerGUI.start_scan. rewrite Hn.
  destruct (create_ip_grid_eq _ n self Hn)
    as (_ & _ & _ & Hact & Hnet & Hwork & _ & _ & _ & _ & Hdia).
  eexists. split; [reflexivity|]. cbn. by repeat split.
Qed.

Lemma start_scan_invalid self e :
  ipaddress.ip_network (pystr.strip (IPScannerGUI.network_input self)) = Raise e ->
  IPScannerGUI.start_scan self
  = Some (IPScannerGUI.set_dialogs (IPScannerGUI.dialogs self ++ [IPScannerGUI.network_error ValueError]) self).
Proof.
  intros He. pose proof (ip_network_raises _ _ He) as ->.
  unfold IPScannerGUI.start_scan. by rewrite He.
Qed.

Lemma scan_complete_fields active elapsed self :
  exists self',
    IPScannerGUI.scan_complete active elapsed self = Some self'
    /\ same_inputs self self'
    /\ IPScannerGUI.ip_table self' = IPScannerGUI.ip_table self
    /\ IPScannerGUI.active_ips self' = active
    /\ IPScannerGUI.scan_button self' = true
    /\ IPScannerGUI.stop_button self' = false
    /\ IPScannerGUI.progress_bar self' = 100
    /\ IPScannerGUI.status_label self'
       = IPScannerGUI.finished_text (length active) elapsed.
Proof. eexists. split; [reflexivity|]. by repeat split. Qed.

(** The window after all the signals of a sweep. *)
Lemma deliver_sweep_signals total rs running elapsed self :
  grid_ok self ->
  NoDup rs.*1 ->
  (forall current,
     0 < current <= total ->
     exists progress,
       IPScannerGUI.percent current total = Some progress
       /\ 0 <= progress <= 100) ->
  Z.of_nat (length rs) <= total ->
  0 < total ->
  exists self',
    deliver_all (sweep_signals total rs running elapsed) self = Some self'
    /\ same_inputs self self'
    /\ grid_ok self'
    /\ IPScannerGUI.active_ips self' = live rs
    /\ IPScannerGUI.scan_button self' = true /\ IPScannerGUI.stop_button self' = false
    /\ IPScannerGUI.progress_bar self' = 100
    /\ IPScannerGUI.status_label self' = IPScannerGUI.finished_text (length (live rs)) elapsed
    /\ (forall ip is_active,
          (ip, is_active) ∈ rs -> is_Some (IPScannerGUI.ip_cells self !! ip) ->
          item_of self' ip = Some (painted ip is_active))
    /\ (forall ip, ip ∉ rs.*1 -> item_of self' ip = item_of self ip).
Proof.
  intros Hok Hnd Hpc Hlen Htotal. unfold sweep_signals.
  destruct (deliver_loop_signals total rs 0 self Hok Hnd)
    as (self1 & Hloop & Hin1 & Hok1 & _ & _ & _ & Hitem1 & Hrest1).
  { intros c Hc. apply Hpc. lia. }
  rewrite deliver_all_app, Hloop. cbn [mbind option_bind].
  assert (exists self2,
            deliver_all (if running then [update_progress total total] else [])
                        self1 = Some self2
            /\ same_inputs self1 self2 /\ IPScannerGUI.ip_table self2 = IPScannerGUI.ip_table self1)
    as (self2 & Hclose & Hin2 & Ht2).
  { destruct running; [|by exists self1].
    cbn [deliver_all deliver].
    destruct (IPScannerGUI.update_progress total total self1)
      as [self2|] eqn:Hup.
    - exists self2. split; [done|].
      apply update_progress_same in Hup. tauto.
    - destruct (Hpc total) as (v & Hv & Hrange); [lia|].
      by rewrite (update_progress_eq _ _ v) in Hup. }
  rewrite deliver_all_app, Hclose. cbn [mbind option_bind deliver_all deliver].
  destruct (scan_complete_fields (live rs) elapsed self2)
    as (self3 & -> & Hin3 & Ht3 & Hact3 & Hscan3 & Hstop3 & Hbar3 & Hlabel3).
  cbn [mbind option_bind].
  assert (IPScannerGUI.ip_cells self3 = IPScannerGUI.ip_cells self1
          /\ IPScannerGUI.ip_table self3 = IPScannerGUI.ip_table self1)
    as [Hc Ht].
  { destruct Hin2 as (_ & Hc2 & _), Hin3 as (_ & Hc3 & _).
    split; congruence. }
  exists self3. split; [reflexivity|]. split.
  { unfold same_inputs in *. intuition congruence. }
  split; [by eapply grid_ok_same|].
  do 5 (split; [done|]). split.
  - intros ip b Hin Hsome. rewrite (item_of_same self1) by done.
    by apply Hitem1.
  - intros ip Hnot. rewrite (item_of_same self1) by done. by apply Hrest1.
Qed.

End window_sweep.

(** X15.  A sweep started from the window on a network that fits the grid
    (prefix length 24 or more): [start_scan] accepts the text, stripped of
    surrounding blanks, and creates the thread; [run] returns normally; no
    slot fails on any of its signals; and when the last signal has been
    delivered the scan button is enabled again, the stop button disabled,
    the bar at 100, the window's list is the list of live hosts of the
    results taken, every address with a result is painted by its result,
    and every other address of the grid is unscanned.  This holds for every
    stop schedule and completion order. *)
Theorem window_sweep_completes env self n :
  ipaddress.ip_network (pystr.strip (IPScannerGUI.network_input self))
  = Return n ->
  24 <= ipaddress.prefixlen n ->
  0 < IPScannerGUI.workers_input self ->
  each_once (completion_order env) (length (ipaddress.hosts n)) ->
  exists self1 t w' self2 fs,
    IPScannerGUI.start_scan self = Some self1
    /\ IPScannerGUI.scan_thread self1 = Some t
    /\ run env (initial_world t) = (Return tt, w')
    /\ fs `prefix_of` completion_order env
    /\ result_events (signals w') = outcomes env (ipaddress.hosts n) fs
    /\ deliver_all (signals w') self1 = Some self2
    /\ IPScannerGUI.active_ips self2
       = live (outcomes env (ipaddress.hosts n) fs)
    /\ IPScannerGUI.scan_button self2 = true
    /\ IPScannerGUI.stop_button self2 = false
    /\ IPScannerGUI.progress_bar self2 = 100
    /\ IPScannerGUI.dialogs self2 = IPScannerGUI.dialogs self
    /\ (forall ip is_active,
          (ip, is_active) ∈ outcomes env (ipaddress.hosts n) fs ->
          item_of self2 ip = Some (painted ip is_active))
    /\ (forall a,
          0 <= a < 2 ^ 32 -> in_grid n a = true ->
          ipaddress.str a ∉ (outcomes env (ipaddress.hosts n) fs).*1 ->
          item_of self2 (ipaddress.str a)
          = Some (unscanned (ipaddress.str a))).
Proof.
  intros Hn Hp Hmw Horder.
  pose proof (ip_network_well_formed _ n Hn) as Hwf.
  set (s := pystr.strip (IPScannerGUI.network_input self)) in *.
  destruct (start_scan_valid self n Hn)
    as (self1 & Hstart & Hthread & Hcells & Htable & _ & _ & _ & _ & _ & _ & _
        & Hdia).
  fold s in Hthread, Hcells, Htable.
  destruct (gui_sweep_shape env s _ n Hn Hmw Horder)
    as (fs & running & elapsed & w' & Hrun & Hpre & Hsig & _).
  unfold gui_sweep in Hrun.
  assert (grid_ok self1) as Hok.
  { eapply grid_ok_same; [exact Hcells|exact Htable|].
    by eapply create_ip_grid_ok. }
  assert (0 < ipaddress.num_addresses n) as Htotal.
  { rewrite (num_addresses_eq n Hwf).
    apply Z.pow_pos_nonneg; [lia|]. destruct Hwf; lia. }
  destruct (deliver_sweep_signals (ipaddress.num_addresses n)
              (outcomes env (ipaddress.hosts n) fs) running elapsed self1)
    as (self2 & Hdel & Hin & _ & Hact & Hscan & Hstop & Hbar & _ & Hitem
        & Hrest); [done|by eapply taken_results_NoDup|..|done|].
  { intros c Hc. apply percent_network_range; (done || lia). }
  { pose proof (outcomes_length env (ipaddress.hosts n) fs).
    pose proof (prefix_length _ _ Hpre).
    pose proof (each_once_length _ _ Horder).
    pose proof (hosts_length_le n Hwf). lia. }
  exists self1, (ScanThread_init s (IPScannerGUI.workers_input self)), w',
    self2, fs.
  split; [done|]. split; [done|]. split; [done|]. split; [done|].
  split; [by rewrite Hsig, result_events_sweep|].
  split; [by rewrite Hsig|]. do 4 (split; [done|]).
  split; [destruct Hin as (_ & _ & _ & _ & ->); done|]. split.
  - intros ip b Hin'. apply Hitem; [done|].
    destruct (elem_of_outcomes _ _ _ _ Hin') as (a & Ha & [= -> ->]).
    rewrite Hcells, (create_ip_grid_lookup s n Hn) by by eapply hosts_32bit.
    by rewrite (hosts_in_grid n Hwf a Hp Ha).
  - intros a Ha Hgrid Hnot. rewrite Hrest by done.
    rewrite (item_of_same (IPScannerGUI.create_ip_grid s self)) by done.
    by eapply create_ip_grid_item.
Qed.

Lemma window_sweep_completes_witness :
  exists self1 t w' self2 fs,
    IPScannerGUI.start_scan (window_with " 10.0.0.0/29 " 4) = Some self1
    /\ IPScannerGUI.scan_thread self1 = Some t
    /\ run cancelled_29 (initial_world t) = (Return tt, w')
    /\ fs `prefix_of` completion_order cancelled_29
    /\ result_events (signals w')
       = outcomes cancelled_29 (ipaddress.hosts net_10_0_0_0_29) fs
    /\ deliver_all (signals w') self1 = Some self2
    /\ IPScannerGUI.active_ips self2
       = live (outcomes cancelled_29 (ipaddress.hosts net_10_0_0_0_29) fs)
    /\ IPScannerGUI.scan_button self2 = true
    /\ IPScannerGUI.stop_button self2 = false
    /\ IPScannerGUI.progress_bar self2 = 100
    /\ IPScannerGUI.dialogs self2
       = IPScannerGUI.dialogs (window_with " 10.0.0.0/29 " 4)
    /\ (forall ip is_active,
          (ip, is_active)
            ∈ outcomes cancelled_29 (ipaddress.hosts net_10_0_0_0_29) fs ->
          item_of self2 ip = Some (painted ip is_active))
    /\ (forall a,
          0 <= a < 2 ^ 32 -> in_grid net_10_0_0_0_29 a = true ->
          ipaddress.str a
            ∉ (outcomes cancelled_29 (ipaddress.hosts net_10_0_0_0_29) fs).*1 ->
          item_of self2 (ipaddress.str a)
          = Some (unscanned (ipaddress.str a))).
Proof.
  apply (window_sweep_completes cancelled_29 (window_with " 10.0.0.0/29 " 4)
           net_10_0_0_0_29).
  - reflexivity.
  - cbn. lia.
  - cbn. lia.
  - apply each_once_check. vm_compute. reflexivity.
Defined.

(** ** Invariants of the window *)

Lemma init_inv : window_inv IPScannerGUI.init.
Proof.
  unfold window_inv. cbn -[in_model].
  split; [done|]. split; [vm_compute; reflexivity|].
  repeat split; try done; lia.
Qed.

Lemma setValue_bar value self self' :
  IPScannerGUI.setValue value self = Some self' ->
  -1 <= IPScannerGUI.progress_bar self <= 100 ->
  -1 <= IPScannerGUI.progress_bar self' <= 100.
Proof.
  intros [[-> Hv]| ->]%setValue_Some Hbar; [cbn; lia|done].
Qed.

Lemma update_ip_status_bar ip is_active self self' :
  IPScannerGUI.update_ip_status ip is_active self = Some self' ->
  IPScannerGUI.progress_bar self' = IPScannerGUI.progress_bar self
  /\ IPScannerGUI.network_input self' = IPScannerGUI.network_input self.
Proof.
  unfold IPScannerGUI.update_ip_status.
  destruct (IPScannerGUI.ip_cells self !! ip) as [[row col]|];
    [|by intros [= <-]].
  destruct (IPScannerGUI.ip_table self !! (row, col)); [|done].
  cbn. by destruct is_active; intros [= <-].
Qed.

Lemma handle_inv e self self' :
  event_in_model e = true ->
  window_inv self -> handle e self = Some self' -> window_inv self'.
Proof.
  intros He Hinv.
  pose proof Hinv
    as (Hok & Htext & Hbuttons & Hworkers & Hbar & Hthread & Hstop).
  destruct e as [text|value| |isRunning|[current total|ip is_active|active elapsed]];
    cbn [handle deliver].
  - intros [= <-].
    split; [exact Hok|]. split; [exact He|]. split; [exact Hbuttons|].
    split; [exact Hworkers|]. split; [exact Hbar|].
    split; [exact Hthread|exact Hstop].
  - intros [= <-].
    split; [exact Hok|]. split; [exact Htext|]. split; [exact Hbuttons|].
    split; [cbn; lia|]. split; [exact Hbar|].
    split; [exact Hthread|exact Hstop].
  - destruct (ipaddress.ip_network
                (pystr.strip (IPScannerGUI.network_input self)))
      as [n|e] eqn:Hn.
    + destruct (start_scan_valid self n Hn)
        as (self1 & -> & Ht1 & Hc1 & Htab1 & Hscan1 & Hstop1 & Hbar1 & _ & _
            & Hnet1 & Hw1 & _).
      intros [= <-]. split; [|split; [|split; [|split; [|split; [|split]]]]].
      * eapply grid_ok_same; [exact Hc1|exact Htab1|].
        by eapply create_ip_grid_ok.
      * by rewrite Hnet1.
      * by rewrite Hscan1.
      * by rewrite Hw1.
      * rewrite Hbar1. lia.
      * rewrite Ht1. intros t [= <-]. cbn. split; [by exists n|done].
      * intros _. rewrite Ht1. by eexists.
    + rewrite (start_scan_invalid self e Hn). intros [= <-].
      split; [exact Hok|]. split; [exact Htext|]. split; [exact Hbuttons|].
      split; [exact Hworkers|]. split; [exact Hbar|].
      split; [exact Hthread|exact Hstop].
  - intros [= <-]. unfold IPScannerGUI.stop_scan.
    destruct (IPScannerGUI.scan_thread self) as [t|] eqn:Ht; [|exact Hinv].
    destruct isRunning; [|exact Hinv].
    split; [exact Hok|]. split; [exact Htext|]. split; [apply andb_false_r|].
    split; [exact Hworkers|]. split; [exact Hbar|]. split; [|done].
    intros t' [= <-]. cbn. by apply Hthread.
  - intros Hup. pose proof Hup as Hsame.
    apply update_progress_same in Hsame
      as ((Ht & Hc & Hnet & Hw & _) & Htab & _ & Hscan & Hstop').
    split; [by eapply grid_ok_same|].
    rewrite Hnet, Hscan, Hstop', Hw, Ht.
    do 3 (split; [done|]). split; [|done].
    unfold IPScannerGUI.update_progress in Hup.
    destruct (IPScannerGUI.percent current total) as [v|]; [|done].
    cbn [mbind option_bind] in Hup.
    destruct (IPScannerGUI.setValue v self) as [self1|] eqn:Hset; [|done].
    cbn [mbind option_bind] in Hup. injection Hup as <-.
    pose proof (setValue_bar _ _ _ Hset Hbar).
    by destruct (v =? 100).
  - destruct (IPScannerGUI.ip_cells self !! ip) as [cell|] eqn:Hcell.
    + destruct (update_ip_status_on_grid ip is_active self cell Hok Hcell)
        as (self1 & Hup1 & (Ht & _ & Hnet & Hw & _) & Hok1 & _ & _ & Hscan
            & Hstop').
      rewrite Hup1. intros [= <-]. split; [done|].
      rewrite Hnet, Hscan, Hstop', Hw, Ht.
      do 3 (split; [done|]). split; [|done].
      by rewrite (proj1 (update_ip_status_bar _ _ _ _ Hup1)).
    + rewrite update_ip_status_off_grid by done. by intros [= <-].
  - destruct (scan_complete_fields active elapsed self)
      as (self1 & -> & (Ht & Hc & Hnet & Hw & _) & Htab & _ & Hscan & Hstop'
          & Hbar' & _).
    intros [= <-].
    split; [by eapply grid_ok_same|].
    rewrite Hnet, Hscan, Hstop', Hw, Ht, Hbar'.
    split; [done|]. split; [done|]. split; [done|]. split; [lia|].
    split; [done|done].
Qed.

Lemma handle_all_inv es : forall self self',
  forallb event_in_model es = true ->
  window_inv self -> handle_all es self = Some self' -> window_inv self'.
Proof.
  induction es as [|e es IH]; intros self self' Hes Hinv; cbn [handle_all].
  - by intros [= <-].
  - cbn [forallb] in Hes. apply andb_prop in Hes as [He Hes].
    destruct (handle e self) as [self1|] eqn:Hh; [|done]. cbn.
    apply IH; [done|]. by eapply handle_inv.
Qed.

(** X16.  Whatever the user does and whatever signals arrive, in any order,
    as far as the model goes (network texts that are IPv4 networks or that
    the IPv6 constructor refuses at its first check; progress counts that
    are C [int]s), the window keeps these properties: each address of the
    dictionary has an item in the table, so that [update_ip_status] never
    fails; the two buttons are never enabled together; an enabled stop
    button means a thread that has not been told to stop; every thread the
    window has created has an IPv4 network text and a worker count within
    1..200, so that its [run] cannot take the error path; and the only
    handler that can fail is [update_progress], when the percentage cannot
    be computed or does not fit a C [int]. *)
Theorem window_invariants es self :
  forallb event_in_model es = true ->
  handle_all es IPScannerGUI.init = Some self ->
  window_inv self
  /\ (forall ip is_active,
        is_Some (IPScannerGUI.update_ip_status ip is_active self))
  /\ (forall e,
        event_in_model e = true ->
        handle e self = None ->
        exists current total,
          e = signal_arrives (update_progress current total)
          /\ (IPScannerGUI.percent current total = None
              \/ exists progress,
                   IPScannerGUI.percent current total = Some progress
                   /\ c_int progress = false)).
Proof.
  intros Hscope Hes.
  pose proof (handle_all_inv es _ _ Hscope init_inv Hes) as Hinv.
  split; [done|]. destruct Hinv as (Hok & _).
  assert (forall ip is_active,
            is_Some (IPScannerGUI.update_ip_status ip is_active self)) as Hup.
  { intros ip is_active.
    destruct (IPScannerGUI.ip_cells self !! ip) as [cell|] eqn:Hcell.
    - destruct (update_ip_status_on_grid ip is_active self cell Hok Hcell)
        as (self1 & -> & _). done.
    - by rewrite update_ip_status_off_grid. }
  split; [done|].
  intros [text|value| |isRunning|[current total|ip is_active|active elapsed]]
    _; cbn [handle deliver]; try done.
  - destruct (ipaddress.ip_network
                (pystr.strip (IPScannerGUI.network_input self)))
      as [n|e] eqn:Hn.
    + by destruct (start_scan_valid self n Hn) as (self1 & -> & _).
    + by rewrite (start_scan_invalid self e Hn).
  - intros Hnone. exists current, total. split; [done|].
    unfold IPScannerGUI.update_progress in Hnone.
    destruct (IPScannerGUI.percent current total) as [v|]; [|by left].
    right. exists v. split; [done|].
    cbn [mbind option_bind] in Hnone.
    destruct (IPScannerGUI.setValue v self) as [self1|] eqn:Hset; [done|].
    apply setValue_None in Hset. unfold c_int.
    destruct (Z.leb_spec (-2147483648) v), (Z.leb_spec v 2147483647);
      (done || lia).
  - intros Hnone. destruct (Hup ip is_active) as [? ?]. congruence.
Qed.

Lemma window_invariants_witness :
  window_inv
    (default IPScannerGUI.init
       (handle_all [edit_workers 500; edit_network "10.0.0.0/33"; click_scan;
                    click_stop true]
                   IPScannerGUI.init))
  /\ (forall ip is_active,
        is_Some
          (IPScannerGUI.update_ip_status ip is_active
             (default IPScannerGUI.init
                (handle_all
                   [edit_workers 500; edit_network "10.0.0.0/33"; click_scan;
                    click_stop true]
                   IPScannerGUI.init))))
  /\ (forall e,
        event_in_model e = true ->
        handle e
          (default IPScannerGUI.init
             (handle_all
                [edit_workers 500; edit_network "10.0.0.0/33"; click_scan;
                 click_stop true]
                IPScannerGUI.init))
        = None ->
        exists current total,
          e = signal_arrives (update_progress current total)
          /\ (IPScannerGUI.percent current total = None
              \/ exists progress,
                   IPScannerGUI.percent current total = Some progress
                   /\ c_int progress = false)).
Proof.
  apply (window_invariants
           [edit_workers 500; edit_network "10.0.0.0/33"; click_scan;
            click_stop true]).
  - vm_compute. reflexivity.
  - vm_compute. reflexivity.
Defined.

(** The percentage of a progress signal can overflow the bar's C [int]: the
    handler fails although the percentage is computed. *)
Example update_progress_overflows :
  IPScannerGUI.percent 2147483647 1 = Some 214748364700
  /\ IPScannerGUI.update_progress 2147483647 1 IPScannerGUI.init = None.
Proof. split; vm_compute; reflexivity. Qed.

(** ** The window while a sweep runs *)

Lemma loop_signals_take total rs : forall k processed,
  take (2 * k) (loop_signals total rs processed)
  = loop_signals total (take k rs) processed.
Proof.
  induction rs as [|[ip is_active] rs IH]; intros k processed.
  { cbn [loop_signals]. by rewrite !take_nil. }
  destruct k as [|k]; [done|].
  replace (2 * S k)%nat with (S (S (2 * k))) by lia.
  cbn [loop_signals take]. by rewrite IH.
Qed.

Lemma loop_signals_length total rs : forall processed,
  length (loop_signals total rs processed) = (2 * length rs)%nat.
Proof.
  induction rs as [|[ip is_active] rs IH]; intros processed; [done|].
  cbn [loop_signals length]. rewrite IH. lia.
Qed.

Lemma on_grid_all self rs :
  (forall r, r ∈ rs -> is_Some (IPScannerGUI.ip_cells self !! r.1)) ->
  on_grid self rs = rs.
Proof.
  intros Hall. unfold on_grid. induction rs as [|r rs IH]; [done|].
  rewrite filter_cons_True by (apply Hall; left).
  f_equal. apply IH. intros r' Hr'. apply Hall. by right.
Qed.

(** X17.  While a sweep started from the window runs (network within the
    grid), after the first [k] results the window's list is the list it
    held before [start_scan], which does not clear it, followed by the live
    hosts among these results; their cells are painted, the scan button is
    disabled and the stop button enabled.  Only [scan_complete] replaces
    the list by the live hosts of the sweep. *)
Theorem window_during_sweep env self n k :
  ipaddress.ip_network (pystr.strip (IPScannerGUI.network_input self))
  = Return n ->
  24 <= ipaddress.prefixlen n ->
  0 < IPScannerGUI.workers_input self ->
  each_once (completion_order env) (length (ipaddress.hosts n)) ->
  exists self1 t w',
    IPScannerGUI.start_scan self = Some self1
    /\ IPScannerGUI.scan_thread self1 = Some t
    /\ run env (initial_world t) = (Return tt, w')
    /\ ((k <= length (result_events (signals w')))%nat ->
        exists self2,
          deliver_all (take (2 * k) (signals w')) self1 = Some self2
          /\ IPScannerGUI.active_ips self2
             = IPScannerGUI.active_ips self
               ++ live (take k (result_events (signals w')))
          /\ IPScannerGUI.scan_button self2 = false
          /\ IPScannerGUI.stop_button self2 = true
          /\ (forall ip is_active,
                (ip, is_active) ∈ take k (result_events (signals w')) ->
                item_of self2 ip = Some (painted ip is_active))).
Proof.
  intros Hn Hp Hmw Horder.
  pose proof (ip_network_well_formed _ n Hn) as Hwf.
  set (s := pystr.strip (IPScannerGUI.network_input self)) in *.
  destruct (start_scan_valid self n Hn)
    as (self1 & Hstart & Hthread & Hcells & Htable & Hscan & Hstop & _ & _
        & Hact & _).
  fold s in Hthread, Hcells, Htable.
  destruct (gui_sweep_shape env s _ n Hn Hmw Horder)
    as (fs & running & elapsed & w' & Hrun & Hpre & Hsig & _).
  unfold gui_sweep in Hrun.
  exists self1, (ScanThread_init s (IPScannerGUI.workers_input self)), w'.
  do 3 (split; [done|]).
  rewrite Hsig, result_events_sweep.
  set (rs := outcomes env (ipaddress.hosts n) fs).
  intros Hk. unfold sweep_signals.
  rewrite take_app_le by (rewrite loop_signals_length; lia).
  rewrite loop_signals_take.
  assert (grid_ok self1) as Hok.
  { eapply grid_ok_same; [exact Hcells|exact Htable|].
    by eapply create_ip_grid_ok. }
  assert (forall r, r ∈ rs -> is_Some (IPScannerGUI.ip_cells self1 !! r.1))
    as Hgrid.
  { intros r Hr.
    destruct (elem_of_outcomes _ _ _ _ Hr) as (a & Ha & ->). cbn.
    rewrite Hcells, (create_ip_grid_lookup s n Hn) by by eapply hosts_32bit.
    by rewrite (hosts_in_grid n Hwf a Hp Ha). }
  destruct (deliver_loop_signals (ipaddress.num_addresses n) (take k rs) 0
              self1 Hok)
    as (self2 & Hdel & _ & _ & Hact2 & Hscan2 & Hstop2 & Hitem & _).
  { eapply sublist_NoDup; [by eapply (taken_results_NoDup env s n Hn Horder)|].
    apply fmap_sublist, sublist_take. }
  { intros c Hc. apply percent_network_range; [done|done|].
    rewrite length_take in Hc.
    pose proof (outcomes_length env (ipaddress.hosts n) fs).
    pose proof (prefix_length _ _ Hpre).
    pose proof (each_once_length _ _ Horder).
    pose proof (hosts_length_le n Hwf). fold rs in H. lia. }
  exists self2. split; [done|]. split.
  { rewrite Hact2, Hact, on_grid_all; [done|].
    intros r Hr. apply Hgrid.
    eapply elem_of_sublist; [done|apply sublist_take]. }
  split; [congruence|]. split; [congruence|].
  intros ip b Hin. apply Hitem; [done|].
  apply (Hgrid (ip, b)). eapply elem_of_sublist; [done|apply sublist_take].
Qed.

Lemma window_during_sweep_witness :
  exists self1 t w',
    IPScannerGUI.start_scan
      (IPScannerGUI.set_active_ips ["10.0.0.77"]
         (window_with " 10.0.0.0/29 " 4))
    = Some self1
    /\ IPScannerGUI.scan_thread self1 = Some t
    /\ run cancelled_29 (initial_world t) = (Return tt, w')
    /\ ((2 <= length (result_events (signals w')))%nat ->
        exists self2,
          deliver_all (take (2 * 2) (signals w')) self1 = Some self2
          /\ IPScannerGUI.active_ips self2
             = IPScannerGUI.active_ips
                 (IPScannerGUI.set_active_ips ["10.0.0.77"]
                    (window_with " 10.0.0.0/29 " 4))
               ++ live (take 2 (result_events (signals w')))
          /\ IPScannerGUI.scan_button self2 = false
          /\ IPScannerGUI.stop_button self2 = true
          /\ (forall ip is_active,
                (ip, is_active) ∈ take 2 (result_events (signals w')) ->
                item_of self2 ip = Some (painted ip is_active))).
Proof.
  apply (window_during_sweep cancelled_29
           (IPScannerGUI.set_active_ips ["10.0.0.77"]
              (window_with " 10.0.0.0/29 " 4))
           net_10_0_0_0_29 2).
  - reflexivity.
  - cbn. lia.
  - cbn. lia.
  - apply each_once_check. vm_compute. reflexivity.
Defined.

(** * The networks whose total is their host count *)

Lemma printed_counts_last total k :
  (0 < k)%nat -> Z.of_nat k = total ->
  last (printed_counts total 0 k) = Some total.
Proof.
  intros Hk Htotal. destruct k as [|k]; [lia|].
  unfold printed_counts. rewrite seq_S, fmap_app, filter_app.
  cbn [fmap list_fmap]. rewrite filter_cons_True by (right; lia).
  rewrite filter_nil, last_snoc. f_equal. lia.
Qed.

(** X18.  The total the sweeps report equals the number of hosts probed
    exactly for the /31 and /32 networks.  There an uncancelled GUI sweep
    reports every address of the block, its progress signals reach
    [(total, total)] inside the loop and the closing signal repeats it; and
    the batch sweep prints its last progress line at [total] of [total],
    the one case in which the second half of its progress test holds. *)
Theorem total_is_host_count_iff_tiny s n env mw w :
  ipaddress.ip_network s = Return n ->
  (ipaddress.num_addresses n = Z.of_nat (length (ipaddress.hosts n))
   <-> 31 <= ipaddress.prefixlen n)
  /\ (31 <= ipaddress.prefixlen n ->
      0 < mw ->
      (each_once (completion_order env) (length (ipaddress.hosts n)) ->
       (forall k, stop_calls env k = 0%nat) ->
       exists before,
         progress_events (signals (gui_sweep env s mw).2)
         = before ++ [(ipaddress.num_addresses n, ipaddress.num_addresses n);
                      (ipaddress.num_addresses n, ipaddress.num_addresses n)])
      /\ exists w' out elapsed l,
           scan_network env s mw w = (Return l, w')
           /\ stdout w'
              = stdout w ++ [scan_started (ipaddress.num_addresses n)] ++ out
                ++ [scan_finished (length l) elapsed]
           /\ last (progress_lines out)
              = Some (ipaddress.num_addresses n, ipaddress.num_addresses n)).
Proof.
  intros Hn. pose proof (ip_network_well_formed s n Hn) as Hwf.
  assert (0 <= ipaddress.prefixlen n <= 32) as Hp32 by apply Hwf.
  pose proof (hosts_length n Hwf) as Hlen.
  pose proof (num_addresses_eq n Hwf) as Htotal.
  assert (31 <= ipaddress.prefixlen n ->
          ipaddress.num_addresses n = Z.of_nat (length (ipaddress.hosts n)))
    as Htiny.
  { intros Hp. rewrite Hlen, Htotal.
    destruct (Z.eqb_spec (ipaddress.prefixlen n) 32) as [->|]; [done|].
    destruct (Z.eqb_spec (ipaddress.prefixlen n) 31) as [->|]; [done|lia]. }
  split.
  - split; [|done]. intros Heq.
    destruct (Z.le_gt_cases 31 (ipaddress.prefixlen n)) as [|Hp]; [done|].
    pose proof (total_exceeds_hosts_by_two n Hwf ltac:(lia)). lia.
  - intros Hp Hmw. specialize (Htiny Hp). split.
    + intros Horder Hnone.
      destruct (gui_sweep_uncancelled env s mw n Hn Hmw Horder Hnone)
        as (elapsed & w' & -> & Hsig & _).
      cbn [snd]. rewrite Hsig. unfold sweep_signals.
      rewrite !progress_events_app, progress_events_loop.
      rewrite outcomes_length_eq.
      2:{ apply Forall_forall. intros f Hf. by eapply each_once_bound. }
      rewrite (each_once_length _ _ Horder).
      pose proof (hosts_nonempty n Hwf) as Hne.
      destruct (length (ipaddress.hosts n)) as [|k] eqn:Hk.
      { by destruct (ipaddress.hosts n). }
      rewrite seq_S, fmap_app. cbn [fmap list_fmap].
      eexists. rewrite <- app_assoc. f_equal. cbn. do 3 f_equal. lia.
    + destruct (scan_network_output env s mw w n Hn Hmw)
        as (w' & out & elapsed & Hsweep & _ & _ & _ & Hout & _ & Hprog).
      eexists w', out, elapsed, _. split; [exact Hsweep|].
      split; [exact Hout|].
      rewrite Hprog, fmap_last, printed_counts_last; [done| |done].
      pose proof (hosts_nonempty n Hwf) as Hne.
      destruct (ipaddress.hosts n); [done|cbn; lia].
Qed.

Lemma total_is_host_count_iff_tiny_witness :
  (ipaddress.num_addresses net_10_0_0_0_31
   = Z.of_nat (length (ipaddress.hosts net_10_0_0_0_31))
   <-> 31 <= ipaddress.prefixlen net_10_0_0_0_31)
  /\ (31 <= ipaddress.prefixlen net_10_0_0_0_31 ->
      0 < 2 ->
      (each_once (completion_order unreachable_30)
                 (length (ipaddress.hosts net_10_0_0_0_31)) ->
       (forall k, stop_calls unreachable_30 k = 0%nat) ->
       exists before,
         progress_events (signals (gui_sweep unreachable_30 "10.0.0.0/31" 2).2)
         = before ++ [(ipaddress.num_addresses net_10_0_0_0_31,
                       ipaddress.num_addresses net_10_0_0_0_31);
                      (ipaddress.num_addresses net_10_0_0_0_31,
                       ipaddress.num_addresses net_10_0_0_0_31)])
      /\ exists w' out elapsed l,
           scan_network unreachable_30 "10.0.0.0/31" 2 stopped_30
           = (Return l, w')
           /\ stdout w'
              = stdout stopped_30
                ++ [scan_started (ipaddress.num_addresses net_10_0_0_0_31)]
                ++ out ++ [scan_finished (length l) elapsed]
           /\ last (progress_lines out)
              = Some (ipaddress.num_addresses net_10_0_0_0_31,
                      ipaddress.num_addresses net_10_0_0_0_31)).
Proof.
  apply (total_is_host_count_iff_tiny "10.0.0.0/31" net_10_0_0_0_31
           unreachable_30 2 stopped_30).
  reflexivity.
Defined.

(** * The texts of IPv4 networks in the window *)

Section accepted_texts.

Import pystr.

Lemma last_char_cons c s :
  last_char (String c s) = Some (default c (last_char s)).
Proof.
  revert c. induction s as [|d s IH]; intros c; [done|].
  change (last_char (String c (String d s))) with (last_char (String d s)).
  by rewrite IH.
Qed.

Lemma last_char_app s1 s2 d :
  last_char s2 = Some d -> last_char (s1 +:+ s2) = Some d.
Proof.
  intros Hd. induction s1 as [|c s1 IH]; [done|].
  by rewrite append_cons, last_char_cons, IH.
Qed.

Lemma last_char_sep c s d :
  last_char s = Some d -> last_char (String c EmptyString +:+ s) = Some d.
Proof. apply last_char_app. Qed.

Lemma rev_app_rev_app s1 s2 s3 :
  String.rev_app (String.rev_app s1 s2) s3 = String.rev_app s2 (s1 +:+ s3).
Proof.
  revert s2 s3. induction s1 as [|c s1 IH]; intros s2 s3; [done|].
  cbn [String.rev_app]. by rewrite IH.
Qed.

Lemma rev_involutive s : String.rev (String.rev s) = s.
Proof.
  unfold String.rev. rewrite rev_app_rev_app. cbn. apply append_nil_r.
Qed.

Lemma first_char_rev_app s acc :
  first_char (String.rev_app s acc)
  = match last_char s with
    | Some d => Some d
    | None => first_char acc
    end.
Proof.
  revert acc. induction s as [|c s IH]; intros acc; [done|].
  cbn [String.rev_app]. rewrite IH, last_char_cons.
  by destruct (last_char s).
Qed.

Lemma lstrip_first s c :
  first_char s = Some c -> isspace c = false -> lstrip s = s.
Proof. destruct s as [|c' s]; [done|]. intros [= ->] Hc. cbn. by rewrite Hc. Qed.

Lemma is_digit_not_space c : is_digit c = true -> isspace c = false.
Proof.
  destruct c as [[] [] [] [] [] [] [] []]; try done; vm_compute; done.
Qed.

(** A text between two digits is its own [strip]. *)
Lemma strip_digit_ends s : digit_ends s -> strip s = s.
Proof.
  intros (c & d & Hc & Hd & Hdc & Hdd). unfold strip.
  rewrite (lstrip_first s c Hc) by by apply is_digit_not_space.
  rewrite (lstrip_first (String.rev s) d), rev_involutive; [done| |].
  - unfold String.rev. by rewrite first_char_rev_app, Hd.
  - by apply is_digit_not_space.
Qed.

Lemma split_nonempty sep s : split sep s <> [].
Proof.
  destruct s as [|c s]; [done|]. cbn.
  destruct (Ascii.eqb c sep); [done|]. by destruct (split sep s).
Qed.

Lemma join_split sep s : join (String sep EmptyString) (split sep s) = s.
Proof.
  induction s as [|c s IH]; [done|]. cbn [split].
  pose proof (split_nonempty sep s) as Hne.
  destruct (Ascii.eqb_spec c sep) as [->|Hc].
  - destruct (split sep s) as [|p ps]; [done|].
    cbn [join] in *. by rewrite IH.
  - destruct (split sep s) as [|p ps]; [done|].
    destruct ps as [|q qs]; cbn [join] in *; rewrite <- IH; done.
Qed.

Lemma isdigit_digit_ends s : isdigit s = true -> digit_ends s.
Proof.
  destruct s as [|c s]; [done|]. cbn [isdigit all_digits].
  intros [Hc Hs]%andb_prop. exists c.
  assert (forall t, all_digits t = true ->
            forall d, last_char t = Some d -> is_digit d = true) as Hlast.
  { induction t as [|e t IH]; [done|]. cbn [all_digits].
    intros [He Ht]%andb_prop d. rewrite last_char_cons. intros [= <-].
    destruct (last_char t) as [d|] eqn:Hd; cbn; [by eapply IH|done]. }
  rewrite last_char_cons. eexists. split; [done|]. split; [done|].
  split; [done|].
  destruct (last_char s) as [d|] eqn:Hd; cbn; [by eapply Hlast|done].
Qed.

Lemma parse_octet_isdigit o b :
  ipaddress.parse_octet o = Return b -> isdigit o = true.
Proof.
  unfold ipaddress.parse_octet. destruct (String.eqb o ""); [done|].
  by destruct (isdigit o).
Qed.

Lemma ip_int_from_string_digit_ends t a :
  ipaddress.ip_int_from_string t = Return a -> digit_ends t.
Proof.
  unfold ipaddress.ip_int_from_string. destruct (String.eqb t ""); [done|].
  pose proof (join_split "." t) as Hjoin.
  destruct (split "." t) as [|o1 [|o2 [|o3 [|o4 [|]]]]]; try done.
  cbn [length Nat.eqb negb ipaddress.parse_octets].
  destruct (ipaddress.parse_octet o1) as [b1|] eqn:H1; [|done].
  destruct (ipaddress.parse_octet o2) as [b2|] eqn:H2; [|done].
  destruct (ipaddress.parse_octet o3) as [b3|] eqn:H3; [|done].
  destruct (ipaddress.parse_octet o4) as [b4|] eqn:H4; [|done].
  intros _.
  apply parse_octet_isdigit, isdigit_digit_ends in H1 as (c & _ & Hc & _ & Hdc & _).
  apply parse_octet_isdigit, isdigit_digit_ends in H4 as (_ & d & _ & Hd & _ & Hdd).
  exists c, d. rewrite <- Hjoin. cbn [join]. split.
  { destruct o1; [done|]. by rewrite append_cons. }
  split; [|done].
  by repeat first [apply last_char_sep | apply last_char_app].
Qed.

Lemma make_netmask_digit_ends m r :
  ipaddress.make_netmask (Some m) = Return r -> digit_ends m.
Proof.
  unfold ipaddress.make_netmask.
  destruct (ipaddress.prefix_from_prefix_string m) as [p|] eqn:Hp.
  - intros _. unfold ipaddress.prefix_from_prefix_string in Hp.
    destruct (isdigit m) eqn:Hm; [|done]. by apply isdigit_digit_ends.
  - unfold ipaddress.prefix_from_ip_string.
    destruct (ipaddress.ip_int_from_string m) as [a|] eqn:Ha; [|done].
    intros _. by eapply ip_int_from_string_digit_ends.
Qed.

(** A text that the IPv4 constructor accepts begins and ends with a
    digit. *)
Lemma ip_network_digit_ends s n :
  ipaddress.ip_network s = Return n -> digit_ends s.
Proof.
  unfold ipaddress.ip_network.
  destruct (ipaddress.new_IPv4Network s) as [n'|e] eqn:Hnew; [|by destruct e].
  intros _. unfold ipaddress.new_IPv4Network in Hnew.
  pose proof (join_split "/" s) as Hjoin.
  unfold ipaddress.split_addr_prefix in Hnew.
  destruct (split "/" s) as [|a [|m [|]]]; try done;
    cbn [length Nat.ltb Nat.leb mbind result_bind] in Hnew.
  - unfold ipaddress.IPv4Address in Hnew.
    destruct (contains "/" a); [done|].
    destruct (ipaddress.ip_int_from_string a) as [x|] eqn:Ha; [|done].
    cbn in Hjoin. subst a. by eapply ip_int_from_string_digit_ends.
  - unfold ipaddress.IPv4Address in Hnew.
    destruct (contains "/" a); [done|].
    destruct (ipaddress.ip_int_from_string a) as [x|] eqn:Ha; [|done].
    cbn [mbind result_bind] in Hnew.
    destruct (ipaddress.make_netmask (Some m)) as [r|] eqn:Hm; [|done].
    apply ip_int_from_string_digit_ends in Ha as (c & _ & Hc & _ & Hdc & _).
    apply make_netmask_digit_ends in Hm as (_ & d & _ & Hd & _ & Hdd).
    exists c, d. rewrite <- Hjoin. cbn [join]. split.
    { destruct a; [done|]. by rewrite append_cons. }
    split; [|done].
    by repeat first [apply last_char_sep | apply last_char_app].
Qed.

End accepted_texts.

(** X19.  On the text of an IPv4 network the [strip] of [start_scan] changes
    nothing: a text the IPv4 constructor accepts begins and ends with a
    decimal digit.  [start_scan] then shows no error box and creates the
    thread on the text as it stands in the line edit, with the spin box's
    worker count, so that the thread's sweep is the GUI sweep of that
    text.  (Nothing is said of the texts of the IPv6 family.) *)
Theorem start_scan_keeps_ipv4_text self n :
  ipaddress.ip_network (IPScannerGUI.network_input self) = Return n ->
  digit_ends (IPScannerGUI.network_input self)
  /\ pystr.strip (IPScannerGUI.network_input self)
     = IPScannerGUI.network_input self
  /\ exists self1 t,
       IPScannerGUI.start_scan self = Some self1
       /\ IPScannerGUI.scan_thread self1 = Some t
       /\ IPScannerGUI.dialogs self1 = IPScannerGUI.dialogs self
       /\ forall env,
            run env (initial_world t)
            = gui_sweep env (IPScannerGUI.network_input self)
                        (IPScannerGUI.workers_input self).
Proof.
  intros Hn. pose proof (ip_network_digit_ends _ _ Hn) as Hends.
  pose proof (strip_digit_ends _ Hends) as Hstrip.
  split; [done|]. split; [done|].
  destruct (start_scan_valid self n)
    as (self1 & Hstart & Hthread & _ & _ & _ & _ & _ & _ & _ & _ & _ & Hdia);
    [by rewrite Hstrip|].
  rewrite Hstrip in Hthread.
  by eexists self1, _.
Qed.

Lemma start_scan_keeps_ipv4_text_witness :
  digit_ends (IPScannerGUI.network_input (window_with "10.0.0.0/255.255.254.0" 8))
  /\ pystr.strip
       (IPScannerGUI.network_input (window_with "10.0.0.0/255.255.254.0" 8))
     = IPScannerGUI.network_input (window_with "10.0.0.0/255.255.254.0" 8)
  /\ exists self1 t,
       IPScannerGUI.start_scan (window_with "10.0.0.0/255.255.254.0" 8)
       = Some self1
       /\ IPScannerGUI.scan_thread self1 = Some t
       /\ IPScannerGUI.dialogs self1
          = IPScannerGUI.dialogs (window_with "10.0.0.0/255.255.254.0" 8)
       /\ forall env,
            run env (initial_world t)
            = gui_sweep env
                (IPScannerGUI.network_input
                   (window_with "10.0.0.0/255.255.254.0" 8))
                (IPScannerGUI.workers_input
                   (window_with "10.0.0.0/255.255.254.0" 8)).
Proof.
  apply (start_scan_keeps_ipv4_text
           (window_with "10.0.0.0/255.255.254.0" 8) net_10_0_0_0_23).
  reflexivity.
Defined.
